(** * NDP state machine of the IPv6 endpoint (pkg/tcpip/network/ipv6/ndp.go)

    A shallow embedding of the per-interface Neighbor Discovery state
    ([ndpState]) and of the operations that act on it, followed by the
    properties established about them.

    Conventions of the embedding:
    - [time.Duration] and [time.Time] are integers counting nanoseconds; the
      zero [time.Time] is [0].  The clock is a field of the state and does not
      move while one operation runs (every operation runs under the endpoint
      lock).
    - [uint8] counters are integers with their wrap-around written out.
    - Go maps are [gmap]s; pointers ([*tcpip.Job], [stack.AddressEndpoint],
      the shared [tempAddrs] maps) are keys into stores kept in the state.
    - A Go [panic] is the outcome [None] of the state monad [M].
    - Callbacks of the [NDPDispatcher] are recorded in the trace [events]. *)

From Stdlib Require Import ZArith Lia String Ascii List Permutation.
From stdpp Require Import base option gmap strings list fin_maps.

Local Open Scope Z_scope.

(** ** Durations *)

Definition Duration := Z.
Definition Time := Z.

Definition Millisecond : Duration := 1000000.
Definition Second : Duration := 1000 * Millisecond.
Definition Minute : Duration := 60 * Second.
Definition Hour : Duration := 60 * Minute.

(** ** Constants of ndp.go *)

Definition defaultRetransmitTimer : Duration := Second.
Definition minimumRetransmitTimer : Duration := Millisecond.
Definition defaultDupAddrDetectTransmits : Z := 1.
Definition defaultMaxRtrSolicitations : Z := 3.
Definition defaultRtrSolicitationInterval : Duration := 4 * Second.
Definition defaultMaxRtrSolicitationDelay : Duration := Second.
Definition defaultHandleRAs := true.
Definition defaultDiscoverDefaultRouters := true.
Definition defaultDiscoverOnLinkPrefixes := true.
Definition defaultAutoGenGlobalAddresses := true.
Definition minimumRtrSolicitationInterval : Duration := 500 * Millisecond.
Definition minimumMaxRtrSolicitationDelay : Duration := 0.
Definition MaxDiscoveredDefaultRouters : nat := 10.
Definition MaxDiscoveredOnLinkPrefixes : nat := 10.
Definition validPrefixLenForAutoGen : Z := 64.
Definition defaultAutoGenTempGlobalAddresses := true.
Definition defaultMaxTempAddrValidLifetime : Duration := 7 * 24 * Hour.
Definition defaultMaxTempAddrPreferredLifetime : Duration := 24 * Hour.
Definition defaultRegenAdvanceDuration : Duration := 5 * Second.
Definition minRegenAdvanceDuration : Duration := 0.
Definition maxSLAACAddrLocalRegenAttempts : nat := 10.

Definition MinPrefixInformationValidLifetimeForUpdate : Duration := 2 * Hour.
Definition MaxDesyncFactor : Duration := 10 * Minute.
Definition MinMaxTempAddrPreferredLifetime : Duration :=
  defaultRegenAdvanceDuration + MaxDesyncFactor + Hour.
Definition MinMaxTempAddrValidLifetime : Duration := 2 * Hour.

(** [uint8] arithmetic. *)
Definition u8 (z : Z) : Z := z mod 256.

(** ** DHCPv6ConfigurationFromNDPRA

    The Go type is an [int] whose constants start at [iota = 1]; the value
    [0] is the unnamed first constant, the zero value of the type. *)

Definition DHCPv6ConfigurationFromNDPRA := Z.
Definition DHCPv6NoConfiguration : DHCPv6ConfigurationFromNDPRA := 1.
Definition DHCPv6ManagedAddress : DHCPv6ConfigurationFromNDPRA := 2.
Definition DHCPv6OtherConfigurations : DHCPv6ConfigurationFromNDPRA := 3.

(** ** NDPConfigurations *)

Record NDPConfigurations : Type := mkNDPConfigurations {
  DupAddrDetectTransmits : Z;
  RetransmitTimer : Duration;
  MaxRtrSolicitations : Z;
  RtrSolicitationInterval : Duration;
  MaxRtrSolicitationDelay : Duration;
  HandleRAs : bool;
  DiscoverDefaultRouters : bool;
  DiscoverOnLinkPrefixes : bool;
  AutoGenGlobalAddresses : bool;
  AutoGenAddressConflictRetries : Z;
  AutoGenTempGlobalAddresses : bool;
  MaxTempAddrValidLifetime : Duration;
  MaxTempAddrPreferredLifetime : Duration;
  RegenAdvanceDuration : Duration
}.

(** The composite literal of [DefaultNDPConfigurations] leaves
    [AutoGenAddressConflictRetries] at its zero value. *)
Definition DefaultNDPConfigurations : NDPConfigurations := {|
  DupAddrDetectTransmits := defaultDupAddrDetectTransmits;
  RetransmitTimer := defaultRetransmitTimer;
  MaxRtrSolicitations := defaultMaxRtrSolicitations;
  RtrSolicitationInterval := defaultRtrSolicitationInterval;
  MaxRtrSolicitationDelay := defaultMaxRtrSolicitationDelay;
  HandleRAs := defaultHandleRAs;
  DiscoverDefaultRouters := defaultDiscoverDefaultRouters;
  DiscoverOnLinkPrefixes := defaultDiscoverOnLinkPrefixes;
  AutoGenGlobalAddresses := defaultAutoGenGlobalAddresses;
  AutoGenAddressConflictRetries := 0;
  AutoGenTempGlobalAddresses := defaultAutoGenTempGlobalAddresses;
  MaxTempAddrValidLifetime := defaultMaxTempAddrValidLifetime;
  MaxTempAddrPreferredLifetime := defaultMaxTempAddrPreferredLifetime;
  RegenAdvanceDuration := defaultRegenAdvanceDuration
|}.

Definition with_RetransmitTimer (v : Duration) (c : NDPConfigurations) :=
  mkNDPConfigurations (DupAddrDetectTransmits c) v (MaxRtrSolicitations c)
    (RtrSolicitationInterval c) (MaxRtrSolicitationDelay c) (HandleRAs c)
    (DiscoverDefaultRouters c) (DiscoverOnLinkPrefixes c)
    (AutoGenGlobalAddresses c) (AutoGenAddressConflictRetries c)
    (AutoGenTempGlobalAddresses c) (MaxTempAddrValidLifetime c)
    (MaxTempAddrPreferredLifetime c) (RegenAdvanceDuration c).

Definition with_RtrSolicitationInterval (v : Duration) (c : NDPConfigurations) :=
  mkNDPConfigurations (DupAddrDetectTransmits c) (RetransmitTimer c)
    (MaxRtrSolicitations c) v (MaxRtrSolicitationDelay c) (HandleRAs c)
    (DiscoverDefaultRouters c) (DiscoverOnLinkPrefixes c)
    (AutoGenGlobalAddresses c) (AutoGenAddressConflictRetries c)
    (AutoGenTempGlobalAddresses c) (MaxTempAddrValidLifetime c)
    (MaxTempAddrPreferredLifetime c) (RegenAdvanceDuration c).

Definition with_MaxRtrSolicitationDelay (v : Duration) (c : NDPConfigurations) :=
  mkNDPConfigurations (DupAddrDetectTransmits c) (RetransmitTimer c)
    (MaxRtrSolicitations c) (RtrSolicitationInterval c) v (HandleRAs c)
    (DiscoverDefaultRouters c) (DiscoverOnLinkPrefixes c)
    (AutoGenGlobalAddresses c) (AutoGenAddressConflictRetries c)
    (AutoGenTempGlobalAddresses c) (MaxTempAddrValidLifetime c)
    (MaxTempAddrPreferredLifetime c) (RegenAdvanceDuration c).

Definition with_MaxTempAddrValidLifetime (v : Duration) (c : NDPConfigurations) :=
  mkNDPConfigurations (DupAddrDetectTransmits c) (RetransmitTimer c)
    (MaxRtrSolicitations c) (RtrSolicitationInterval c)
    (MaxRtrSolicitationDelay c) (HandleRAs c)
    (DiscoverDefaultRouters c) (DiscoverOnLinkPrefixes c)
    (AutoGenGlobalAddresses c) (AutoGenAddressConflictRetries c)
    (AutoGenTempGlobalAddresses c) v
    (MaxTempAddrPreferredLifetime c) (RegenAdvanceDuration c).

Definition with_MaxTempAddrPreferredLifetime (v : Duration) (c : NDPConfigurations) :=
  mkNDPConfigurations (DupAddrDetectTransmits c) (RetransmitTimer c)
    (MaxRtrSolicitations c) (RtrSolicitationInterval c)
    (MaxRtrSolicitationDelay c) (HandleRAs c)
    (DiscoverDefaultRouters c) (DiscoverOnLinkPrefixes c)
    (AutoGenGlobalAddresses c) (AutoGenAddressConflictRetries c)
    (AutoGenTempGlobalAddresses c) (MaxTempAddrValidLifetime c)
    v (RegenAdvanceDuration c).

Definition with_RegenAdvanceDuration (v : Duration) (c : NDPConfigurations) :=
  mkNDPConfigurations (DupAddrDetectTransmits c) (RetransmitTimer c)
    (MaxRtrSolicitations c) (RtrSolicitationInterval c)
    (MaxRtrSolicitationDelay c) (HandleRAs c)
    (DiscoverDefaultRouters c) (DiscoverOnLinkPrefixes c)
    (AutoGenGlobalAddresses c) (AutoGenAddressConflictRetries c)
    (AutoGenTempGlobalAddresses c) (MaxTempAddrValidLifetime c)
    (MaxTempAddrPreferredLifetime c) v.

(** [validate]: the six [if] statements of the source, in order; each reads
    the configuration as left by the previous ones. *)
Definition validate (c : NDPConfigurations) : NDPConfigurations :=
  let c := if RetransmitTimer c <? minimumRetransmitTimer
           then with_RetransmitTimer defaultRetransmitTimer c else c in
  let c := if RtrSolicitationInterval c <? minimumRtrSolicitationInterval
           then with_RtrSolicitationInterval defaultRtrSolicitationInterval c
           else c in
  let c := if MaxRtrSolicitationDelay c <? minimumMaxRtrSolicitationDelay
           then with_MaxRtrSolicitationDelay defaultMaxRtrSolicitationDelay c
           else c in
  let c := if MaxTempAddrValidLifetime c <? MinMaxTempAddrValidLifetime
           then with_MaxTempAddrValidLifetime MinMaxTempAddrValidLifetime c
           else c in
  let c := if (MaxTempAddrPreferredLifetime c <? MinMaxTempAddrPreferredLifetime)
              || (MaxTempAddrPreferredLifetime c >? MaxTempAddrValidLifetime c)
           then with_MaxTempAddrPreferredLifetime MinMaxTempAddrPreferredLifetime c
           else c in
  let c := if RegenAdvanceDuration c <? minRegenAdvanceDuration
           then with_RegenAdvanceDuration minRegenAdvanceDuration c else c in
  c.

(** ** Addresses, subnets and the objects NDP points to *)

(** [tcpip.Address] and [tcpip.LinkAddress] are Go strings of bytes. *)
Definition Address := string.
Definition LinkAddress := string.
Definition NICID := Z.

(** [tcpip.Subnet]: the masked address and the mask; the mask is kept as the
    number of its leading one bits, the value [Prefix()] returns. *)
Record Subnet : Type := mkSubnet { subnet_ID : Address; subnet_Prefix : Z }.

Global Instance Subnet_eq_dec : EqDecision Subnet.
Proof. solve_decision. Defined.

Global Instance Subnet_countable : Countable Subnet.
Proof.
  refine (inj_countable' (λ p, (subnet_ID p, subnet_Prefix p))
                         (λ q, mkSubnet q.1 q.2) _).
  intros [i p]. reflexivity.
Defined.

Record AddressWithPrefix : Type :=
  mkAddressWithPrefix { awp_Address : Address; awp_PrefixLen : Z }.

Global Instance AddressWithPrefix_eq_dec : EqDecision AddressWithPrefix.
Proof. solve_decision. Defined.

Inductive Error : Type :=
| ErrAddressFamilyNotSupported
| ErrDuplicateAddress
| ErrBadLocalAddress
| ErrLink (code : Z).

Global Instance Error_eq_dec : EqDecision Error.
Proof. solve_decision. Defined.

(** [stack.AddressKind] and [stack.AddressConfigType]. *)
Inductive AddressKind : Type :=
| PermanentTentative | Permanent | PermanentExpired | Temporary.

Global Instance AddressKind_eq_dec : EqDecision AddressKind.
Proof. solve_decision. Defined.

Inductive AddressConfigType : Type :=
| AddressConfigStatic | AddressConfigSlaac | AddressConfigSlaacTemp.

Global Instance AddressConfigType_eq_dec : EqDecision AddressConfigType.
Proof. solve_decision. Defined.

(** The object behind a [stack.AddressEndpoint]: what its methods [GetKind],
    [SetKind], [Deprecated], [SetDeprecated], [ConfigType],
    [AddressWithPrefix] and [DecRef] read and write.  A handle is the address
    itself (the parent endpoint keeps one object per address); [nil] is
    [None]. *)
Record AddressState : Type := mkAddressState {
  ae_PrefixLen : Z;
  ae_Kind : AddressKind;
  ae_ConfigType : AddressConfigType;
  ae_Deprecated : bool;
  ae_Refs : Z
}.

Definition AddressEndpoint := Address.

(** References to [*tcpip.Job] objects and to Go maps shared by copies of a
    [slaacPrefixState]. *)
Definition JobRef := nat.
Definition MapRef := nat.

(** The closures given to [NewJob], one constructor per function literal of
    ndp.go, with the variables each captures by value. *)
Inductive JobFn : Type :=
| DADJob (addr : Address) (addressEndpoint : option AddressEndpoint)
| DefaultRouterInvalidationJob (ip : Address)
| OnLinkPrefixInvalidationJob (prefix : Subnet)
| SLAACPrefixDeprecationJob (prefix : Subnet)
| SLAACPrefixInvalidationJob (prefix : Subnet)
| TempAddrDeprecationJob (prefix : Subnet) (generatedAddr : AddressWithPrefix)
| TempAddrInvalidationJob (prefix : Subnet) (generatedAddr : AddressWithPrefix)
| TempAddrRegenJob (prefix : Subnet) (generatedAddr : AddressWithPrefix)
| RtrSolicitJob.

(** A [tcpip.Job]: its function, the variable [remaining] the DAD and the
    router solicitation closures capture by reference, and the instant the
    job is scheduled to fire at ([None]: not scheduled, cancelled or already
    fired). *)
Record Job : Type := mkJob {
  job_fn : JobFn;
  job_remaining : Z;
  job_deadline : option Time
}.

Record dadState : Type := mkDadState { dad_job : JobRef }.
Record defaultRouterState : Type :=
  mkDefaultRouterState { rtr_invalidationJob : JobRef }.
Record onLinkPrefixState : Type :=
  mkOnLinkPrefixState { olp_invalidationJob : JobRef }.

Record tempSLAACAddrState : Type := mkTempSLAACAddrState {
  tmp_deprecationJob : JobRef;
  tmp_invalidationJob : JobRef;
  tmp_regenJob : JobRef;
  tmp_createdAt : Time;
  tmp_addressEndpoint : option AddressEndpoint;
  tmp_regenerated : bool
}.

Record slaacPrefixState : Type := mkSlaacPrefixState {
  deprecationJob : JobRef;
  invalidationJob : JobRef;
  validUntil : Time;
  preferredUntil : Time;
  stableAddr_addressEndpoint : option AddressEndpoint;
  stableAddr_localGenerationFailures : Z;
  tempAddrs : MapRef;
  generationAttempts : Z;
  maxGenerationAttempts : Z
}.

(** ** The integrator and the NIC *)

(** One constructor per method of [NDPDispatcher]: a call of the method. *)
Inductive Event : Type :=
| OnDuplicateAddressDetectionStatus
    (nicID : NICID) (addr : Address) (resolved : bool) (err : option Error)
| OnDefaultRouterDiscovered (nicID : NICID) (addr : Address)
| OnDefaultRouterInvalidated (nicID : NICID) (addr : Address)
| OnOnLinkPrefixDiscovered (nicID : NICID) (prefix : Subnet)
| OnOnLinkPrefixInvalidated (nicID : NICID) (prefix : Subnet)
| OnAutoGenAddress (nicID : NICID) (addr : AddressWithPrefix)
| OnAutoGenAddressDeprecated (nicID : NICID) (addr : AddressWithPrefix)
| OnAutoGenAddressInvalidated (nicID : NICID) (addr : AddressWithPrefix)
| OnRecursiveDNSServerOption
    (nicID : NICID) (addrs : list Address) (lifetime : Duration)
| OnDNSSearchListOption
    (nicID : NICID) (domainNames : list string) (lifetime : Duration)
| OnDHCPv6Configuration (nicID : NICID) (c : DHCPv6ConfigurationFromNDPRA).

(** The answers of the integrator to the three callbacks that return a
    [bool]; an answer may depend on every call made so far. *)
Record NDPDispatcher : Type := mkNDPDispatcher {
  rememberRouter : list Event → Address → bool;
  rememberPrefix : list Event → Subnet → bool;
  acceptAutoGenAddress : list Event → AddressWithPrefix → bool
}.

(** What ndp.go puts on the wire. *)
Inductive ICMPv6Message : Type :=
| NeighborSolicit (target : Address)
| RouterSolicit (sourceLinkLayerAddress : option LinkAddress).

Record Packet : Type := mkPacket {
  pkt_src : Address;
  pkt_dst : Address;
  pkt_hopLimit : Z;
  pkt_remoteLink : LinkAddress;
  pkt_msg : ICMPv6Message
}.

Record ICMPv6SentPacketStats : Type := mkStats {
  st_NeighborSolicit : Z;
  st_RouterSolicit : Z;
  st_Dropped : Z
}.

(** The parts of the parent endpoint, of the protocol options and of the NIC
    that ndp.go reads and that no operation of ndp.go changes.  The outcome of
    [WritePacketToRemote], the primary address chosen by
    [acquireOutgoingPrimaryAddressRLocked] and the draws of [rand.Int63n] are
    functions supplied by the environment. *)
Record Endpoint : Type := mkEndpoint {
  nic_ID : NICID;
  nic_Name : string;
  nic_LinkAddress : LinkAddress;
  nic_WritePacketToRemote : list Packet → Packet → option Error;
  NDPDisp : option NDPDispatcher;
  OpaqueIIDOpts_NICNameFromID : option (NICID → string → string);
  OpaqueIIDOpts_SecretKey : string;
  Forwarding : bool;
  outgoingPrimaryAddress : gmap Address AddressState → Address → option Address;
  rand_Int63n : Z → Z
}.

(** ** The state *)

(** The fields of the Go struct [ndpState] (from [configs] to
    [temporaryAddressDesyncFactor]; [ep] stands for the pointer to the parent
    endpoint), followed by the stores the pointers of the struct refer to,
    the clock, the trace of dispatcher calls and the packets written. *)
Record ndpState : Type := mkNdpState {
  ep : Endpoint;
  configs : NDPConfigurations;
  dad : gmap Address dadState;
  defaultRouters : gmap Address defaultRouterState;
  rtrSolicitJob : option JobRef;
  onLinkPrefixes : gmap Subnet onLinkPrefixState;
  slaacPrefixes : gmap Subnet slaacPrefixState;
  dhcpv6Configuration : DHCPv6ConfigurationFromNDPRA;
  temporaryIIDHistory : string;
  temporaryAddressDesyncFactor : Duration;
  addressEndpoints : gmap Address AddressState;
  jobs : gmap JobRef Job;
  nextJob : JobRef;
  tempAddrMaps : gmap MapRef (gmap Address tempSLAACAddrState);
  nextMap : MapRef;
  clock : Time;
  events : list Event;
  wire : list Packet;
  stats : ICMPv6SentPacketStats
}.

Definition upd_dad (f : (gmap Address dadState) → (gmap Address dadState)) (s : ndpState) : ndpState :=
  mkNdpState (ep s) (configs s) (f (dad s)) (defaultRouters s)
    (rtrSolicitJob s) (onLinkPrefixes s) (slaacPrefixes s)
    (dhcpv6Configuration s) (temporaryIIDHistory s)
    (temporaryAddressDesyncFactor s) (addressEndpoints s) (jobs s) (nextJob s)
    (tempAddrMaps s) (nextMap s) (clock s) (events s) (wire s) (stats s).

Definition upd_defaultRouters (f : (gmap Address defaultRouterState) → (gmap Address defaultRouterState)) (s : ndpState) : ndpState :=
  mkNdpState (ep s) (configs s) (dad s) (f (defaultRouters s))
    (rtrSolicitJob s) (onLinkPrefixes s) (slaacPrefixes s)
    (dhcpv6Configuration s) (temporaryIIDHistory s)
    (temporaryAddressDesyncFactor s) (addressEndpoints s) (jobs s) (nextJob s)
    (tempAddrMaps s) (nextMap s) (clock s) (events s) (wire s) (stats s).

Definition upd_rtrSolicitJob (f : (option JobRef) → (option JobRef)) (s : ndpState) : ndpState :=
  mkNdpState (ep s) (configs s) (dad s) (defaultRouters s)
    (f (rtrSolicitJob s)) (onLinkPrefixes s) (slaacPrefixes s)
    (dhcpv6Configuration s) (temporaryIIDHistory s)
    (temporaryAddressDesyncFactor s) (addressEndpoints s) (jobs s) (nextJob s)
    (tempAddrMaps s) (nextMap s) (clock s) (events s) (wire s) (stats s).

Definition upd_onLinkPrefixes (f : (gmap Subnet onLinkPrefixState) → (gmap Subnet onLinkPrefixState)) (s : ndpState) : ndpState :=
  mkNdpState (ep s) (configs s) (dad s) (defaultRouters s) (rtrSolicitJob s)
    (f (onLinkPrefixes s)) (slaacPrefixes s) (dhcpv6Configuration s)
    (temporaryIIDHistory s) (temporaryAddressDesyncFactor s)
    (addressEndpoints s) (jobs s) (nextJob s) (tempAddrMaps s) (nextMap s)
    (clock s) (events s) (wire s) (stats s).

Definition upd_slaacPrefixes (f : (gmap Subnet slaacPrefixState) → (gmap Subnet slaacPrefixState)) (s : ndpState) : ndpState :=
  mkNdpState (ep s) (configs s) (dad s) (defaultRouters s) (rtrSolicitJob s)
    (onLinkPrefixes s) (f (slaacPrefixes s)) (dhcpv6Configuration s)
    (temporaryIIDHistory s) (temporaryAddressDesyncFactor s)
    (addressEndpoints s) (jobs s) (nextJob s) (tempAddrMaps s) (nextMap s)
    (clock s) (events s) (wire s) (stats s).

Definition upd_dhcpv6Configuration (f : DHCPv6ConfigurationFromNDPRA → DHCPv6ConfigurationFromNDPRA) (s : ndpState) : ndpState :=
  mkNdpState (ep s) (configs s) (dad s) (defaultRouters s) (rtrSolicitJob s)
    (onLinkPrefixes s) (slaacPrefixes s) (f (dhcpv6Configuration s))
    (temporaryIIDHistory s) (temporaryAddressDesyncFactor s)
    (addressEndpoints s) (jobs s) (nextJob s) (tempAddrMaps s) (nextMap s)
    (clock s) (events s) (wire s) (stats s).

Definition upd_temporaryIIDHistory (f : string → string) (s : ndpState) : ndpState :=
  mkNdpState (ep s) (configs s) (dad s) (defaultRouters s) (rtrSolicitJob s)
    (onLinkPrefixes s) (slaacPrefixes s) (dhcpv6Configuration s)
    (f (temporaryIIDHistory s)) (temporaryAddressDesyncFactor s)
    (addressEndpoints s) (jobs s) (nextJob s) (tempAddrMaps s) (nextMap s)
    (clock s) (events s) (wire s) (stats s).

Definition upd_addressEndpoints (f : (gmap Address AddressState) → (gmap Address AddressState)) (s : ndpState) : ndpState :=
  mkNdpState (ep s) (configs s) (dad s) (defaultRouters s) (rtrSolicitJob s)
    (onLinkPrefixes s) (slaacPrefixes s) (dhcpv6Configuration s)
    (temporaryIIDHistory s) (temporaryAddressDesyncFactor s)
    (f (addressEndpoints s)) (jobs s) (nextJob s) (tempAddrMaps s) (nextMap s)
    (clock s) (events s) (wire s) (stats s).

Definition upd_jobs (f : (gmap JobRef Job) → (gmap JobRef Job)) (s : ndpState) : ndpState :=
  mkNdpState (ep s) (configs s) (dad s) (defaultRouters s) (rtrSolicitJob s)
    (onLinkPrefixes s) (slaacPrefixes s) (dhcpv6Configuration s)
    (temporaryIIDHistory s) (temporaryAddressDesyncFactor s)
    (addressEndpoints s) (f (jobs s)) (nextJob s) (tempAddrMaps s) (nextMap s)
    (clock s) (events s) (wire s) (stats s).

Definition upd_nextJob (f : JobRef → JobRef) (s : ndpState) : ndpState :=
  mkNdpState (ep s) (configs s) (dad s) (defaultRouters s) (rtrSolicitJob s)
    (onLinkPrefixes s) (slaacPrefixes s) (dhcpv6Configuration s)
    (temporaryIIDHistory s) (temporaryAddressDesyncFactor s)
    (addressEndpoints s) (jobs s) (f (nextJob s)) (tempAddrMaps s) (nextMap s)
    (clock s) (events s) (wire s) (stats s).

Definition upd_tempAddrMaps (f : (gmap MapRef (gmap Address tempSLAACAddrState)) → (gmap MapRef (gmap Address tempSLAACAddrState))) (s : ndpState) : ndpState :=
  mkNdpState (ep s) (configs s) (dad s) (defaultRouters s) (rtrSolicitJob s)
    (onLinkPrefixes s) (slaacPrefixes s) (dhcpv6Configuration s)
    (temporaryIIDHistory s) (temporaryAddressDesyncFactor s)
    (addressEndpoints s) (jobs s) (nextJob s) (f (tempAddrMaps s)) (nextMap s)
    (clock s) (events s) (wire s) (stats s).

Definition upd_nextMap (f : MapRef → MapRef) (s : ndpState) : ndpState :=
  mkNdpState (ep s) (configs s) (dad s) (defaultRouters s) (rtrSolicitJob s)
    (onLinkPrefixes s) (slaacPrefixes s) (dhcpv6Configuration s)
    (temporaryIIDHistory s) (temporaryAddressDesyncFactor s)
    (addressEndpoints s) (jobs s) (nextJob s) (tempAddrMaps s) (f (nextMap s))
    (clock s) (events s) (wire s) (stats s).

Definition upd_clock (f : Time → Time) (s : ndpState) : ndpState :=
  mkNdpState (ep s) (configs s) (dad s) (defaultRouters s) (rtrSolicitJob s)
    (onLinkPrefixes s) (slaacPrefixes s) (dhcpv6Configuration s)
    (temporaryIIDHistory s) (temporaryAddressDesyncFactor s)
    (addressEndpoints s) (jobs s) (nextJob s) (tempAddrMaps s) (nextMap s)
    (f (clock s)) (events s) (wire s) (stats s).

Definition upd_events (f : (list Event) → (list Event)) (s : ndpState) : ndpState :=
  mkNdpState (ep s) (configs s) (dad s) (defaultRouters s) (rtrSolicitJob s)
    (onLinkPrefixes s) (slaacPrefixes s) (dhcpv6Configuration s)
    (temporaryIIDHistory s) (temporaryAddressDesyncFactor s)
    (addressEndpoints s) (jobs s) (nextJob s) (tempAddrMaps s) (nextMap s)
    (clock s) (f (events s)) (wire s) (stats s).

Definition upd_wire (f : (list Packet) → (list Packet)) (s : ndpState) : ndpState :=
  mkNdpState (ep s) (configs s) (dad s) (defaultRouters s) (rtrSolicitJob s)
    (onLinkPrefixes s) (slaacPrefixes s) (dhcpv6Configuration s)
    (temporaryIIDHistory s) (temporaryAddressDesyncFactor s)
    (addressEndpoints s) (jobs s) (nextJob s) (tempAddrMaps s) (nextMap s)
    (clock s) (events s) (f (wire s)) (stats s).

Definition upd_stats (f : ICMPv6SentPacketStats → ICMPv6SentPacketStats) (s : ndpState) : ndpState :=
  mkNdpState (ep s) (configs s) (dad s) (defaultRouters s) (rtrSolicitJob s)
    (onLinkPrefixes s) (slaacPrefixes s) (dhcpv6Configuration s)
    (temporaryIIDHistory s) (temporaryAddressDesyncFactor s)
    (addressEndpoints s) (jobs s) (nextJob s) (tempAddrMaps s) (nextMap s)
    (clock s) (events s) (wire s) (f (stats s)).

(** ** Packages [header] and [tcpip]

    The functions and constants of the packages [header] and [tcpip] that
    ndp.go calls are parameters of the development. *)

Class Header : Type := {
  NDPInfiniteLifetime : Duration;
  IPv6Any : Address;
  IPv6AllRoutersMulticastAddress : Address;
  IPv6LinkLocalPrefix : AddressWithPrefix;
  IsV6UnicastAddress : Address → bool;
  IsV6LinkLocalAddress : Address → bool;
  SolicitedNodeAddr : Address → Address;
  EthernetAddressFromMulticastIPv6Address : Address → LinkAddress;
  IsValidUnicastEthernetAddress : LinkAddress → bool;
  (** [AppendOpaqueInterfaceIdentifier(buf, prefix, nicName, dadCounter, key)] *)
  AppendOpaqueInterfaceIdentifier :
    string → Subnet → string → Z → string → string;
  (** [EthernetAdddressToModifiedEUI64IntoBuf(linkAddr, addrBytes[8:])], as
      the new contents of [addrBytes]. *)
  EthernetAdddressToModifiedEUI64IntoBuf : LinkAddress → string → string;
  (** [GenerateTempIPv6SLAACAddr(history, stableAddr)]: the new contents of
      the history buffer and the generated address. *)
  GenerateTempIPv6SLAACAddr : string → Address → string * AddressWithPrefix;
  (** The method [Subnet()] of [tcpip.AddressWithPrefix]. *)
  AddressWithPrefix_Subnet : AddressWithPrefix → Subnet
}.

(** The order in which a [for ... range] statement visits the entries of a
    Go map is not specified; it is a parameter, any rearrangement of the
    entries. *)
Class MapIteration : Type := {
  rangeOrder : ∀ {K V : Type}, list (K * V) → list (K * V);
  rangeOrder_perm : ∀ {K V : Type} (l : list (K * V)), rangeOrder l ≡ₚ l
}.

Definition NDPHopLimit : Z := 255.
Definition IIDOffsetInIPv6Address : nat := 8.

(** ** The monad of operations

    An operation takes the state and either panics ([None]) or returns a
    value and the new state. *)

Definition M (A : Type) : Type := ndpState → option (A * ndpState).

Definition ret {A : Type} (a : A) : M A := λ s, Some (a, s).
Definition bind {A B : Type} (m : M A) (f : A → M B) : M B :=
  λ s, match m s with Some (a, s') => f a s' | None => None end.

Declare Scope ndp_scope.
Delimit Scope ndp_scope with ndp.
Notation "x ← y ; z" := (bind y (λ x : _, z))
  (at level 20, y at level 100, z at level 200, only parsing) : ndp_scope.
Notation "x ;; z" := (bind x (λ _, z))
  (at level 100, z at level 200, only parsing, right associativity) : ndp_scope.
Local Open Scope ndp_scope.

Definition panic {A : Type} : M A := λ _, None.
Definition gets {A : Type} (f : ndpState → A) : M A := λ s, Some (f s, s).
Definition modify (f : ndpState → ndpState) : M unit := λ s, Some (tt, f s).

(** A bounded loop over a list, with the variables the loop body assigns
    threaded as an accumulator. *)
Fixpoint foldM {A B : Type} (body : B → A → M B) (acc : B) (l : list A) : M B :=
  match l with
  | [] => ret acc
  | x :: l => acc' ← body acc x; foldM body acc' l
  end.

Definition forEach {A : Type} (l : list A) (body : A → M unit) : M unit :=
  foldM (λ _ x, body x) tt l.

Section Operations.
Context {hdr : Header} {iter : MapIteration}.

(** The keys of a Go map, in the order a [range] statement reaches them. *)
Definition rangeKeys {K V : Type} `{Countable K} (m : gmap K V) : list K :=
  (rangeOrder (map_to_list m)).*1.

(** *** Dispatcher calls *)

Definition emit (mk : NICID → Event) : M unit :=
  modify (λ s, upd_events (λ t, t ++ [mk (nic_ID (ep s))]) s).

(** [if ndpDisp := ...NDPDisp; ndpDisp != nil { ndpDisp.On...(nicID, ...) }] *)
Definition notify (mk : NICID → Event) : M unit :=
  disp ← gets (λ s, NDPDisp (ep s));
  match disp with
  | Some _ => emit mk
  | None => ret tt
  end.

(** A callback that returns a [bool]: the call is recorded, the answer is
    the integrator's. *)
Definition ask {A : Type} (answer : list Event → A → bool)
    (mk : NICID → A → Event) (a : A) : M bool :=
  t ← gets events;
  emit (λ nic, mk nic a);;
  ret (answer t a).

(** *** [tcpip.Job] *)

(** Modelled from the spec: package [tcpip] is not under src/.  Section 4.1:
    a job is a cancellable one-shot scheduled with a duration; cancellation
    guarantees the body will not run afterwards; rescheduling a pending job
    replaces its deadline. *)
Definition NewJob (fn : JobFn) (remaining : Z) : M JobRef :=
  j ← gets nextJob;
  modify (upd_jobs (insert j (mkJob fn remaining None)));;
  modify (upd_nextJob S);;
  ret j.

Definition Job_Schedule (j : JobRef) (d : Duration) : M unit :=
  modify (λ s, upd_jobs
    (alter (λ b, mkJob (job_fn b) (job_remaining b) (Some (clock s + d))) j) s).

Definition Job_Cancel (j : JobRef) : M unit :=
  modify (upd_jobs (alter (λ b, mkJob (job_fn b) (job_remaining b) None) j)).

(** The variable [remaining] captured by the closure of job [j]. *)
Definition getRemaining (j : JobRef) : M Z :=
  js ← gets jobs;
  match js !! j with
  | Some b => ret (job_remaining b)
  | None => panic
  end.

Definition setRemaining (j : JobRef) (r : Z) : M unit :=
  modify (upd_jobs (alter (λ b, mkJob (job_fn b) r (job_deadline b)) j)).

(** The instant job [j] is due at, if it is scheduled. *)
Definition scheduledAt (s : ndpState) (j : JobRef) : option Time :=
  jobs s !! j ≫= job_deadline.

(** *** [stack.AddressEndpoint] *)

(** A method call on a handle; calling a method of a [nil] interface value
    panics. *)
Definition onAddressEndpoint {A : Type} (ae : option AddressEndpoint)
    (f : Address → AddressState → M A) : M A :=
  match ae with
  | None => panic
  | Some a =>
      o ← gets (λ s, addressEndpoints s !! a);
      match o with
      | Some st => f a st
      | None => panic
      end
  end.

Definition GetKind (ae : option AddressEndpoint) : M AddressKind :=
  onAddressEndpoint ae (λ _ st, ret (ae_Kind st)).

Definition SetKind (ae : option AddressEndpoint) (k : AddressKind) : M unit :=
  onAddressEndpoint ae (λ a st,
    modify (upd_addressEndpoints (insert a
      (mkAddressState (ae_PrefixLen st) k (ae_ConfigType st)
                      (ae_Deprecated st) (ae_Refs st))))).

Definition Deprecated (ae : option AddressEndpoint) : M bool :=
  onAddressEndpoint ae (λ _ st, ret (ae_Deprecated st)).

Definition SetDeprecated (ae : option AddressEndpoint) (d : bool) : M unit :=
  onAddressEndpoint ae (λ a st,
    modify (upd_addressEndpoints (insert a
      (mkAddressState (ae_PrefixLen st) (ae_Kind st) (ae_ConfigType st)
                      d (ae_Refs st))))).

Definition ConfigType (ae : option AddressEndpoint) : M AddressConfigType :=
  onAddressEndpoint ae (λ _ st, ret (ae_ConfigType st)).

Definition GetAddressWithPrefix (ae : option AddressEndpoint)
    : M AddressWithPrefix :=
  onAddressEndpoint ae (λ a st, ret (mkAddressWithPrefix a (ae_PrefixLen st))).

Definition DecRef (ae : option AddressEndpoint) : M unit :=
  onAddressEndpoint ae (λ a st,
    modify (upd_addressEndpoints (insert a
      (mkAddressState (ae_PrefixLen st) (ae_Kind st) (ae_ConfigType st)
                      (ae_Deprecated st) (ae_Refs st - 1))))).

(** *** The shared [tempAddrs] maps *)

Definition getTempAddrs (r : MapRef) : M (gmap Address tempSLAACAddrState) :=
  ms ← gets tempAddrMaps;
  match ms !! r with
  | Some m => ret m
  | None => panic
  end.

Definition updTempAddrs (r : MapRef)
    (f : gmap Address tempSLAACAddrState → gmap Address tempSLAACAddrState)
    : M unit :=
  modify (upd_tempAddrMaps (alter f r)).

(** [make(map[tcpip.Address]tempSLAACAddrState)] *)
Definition makeTempAddrs : M MapRef :=
  r ← gets nextMap;
  modify (upd_tempAddrMaps (insert r ∅));;
  modify (upd_nextMap S);;
  ret r.

(** *** Duplicate Address Detection *)

(** [startDuplicateAddressDetection]; the result is the returned
    [*tcpip.Error]. *)
Definition startDuplicateAddressDetection (addr : Address)
    (addressEndpoint : option AddressEndpoint) : M (option Error) :=
  if negb (IsV6UnicastAddress addr) then ret (Some ErrAddressFamilyNotSupported)
  else
    kind ← GetKind addressEndpoint;
    if negb (bool_decide (kind = PermanentTentative)) then panic
    else
      d ← gets dad;
      match d !! addr with
      | Some _ => panic
      | None =>
          remaining ← gets (λ s, DupAddrDetectTransmits (configs s));
          if remaining =? 0 then
            SetKind addressEndpoint Permanent;;
            notify (λ nic, OnDuplicateAddressDetectionStatus nic addr true None);;
            ret None
          else
            job ← NewJob (DADJob addr addressEndpoint) remaining;
            Job_Schedule job 0;;
            modify (upd_dad (insert addr (mkDadState job)));;
            ret None
      end.

(** [stopDuplicateAddressDetection] *)
Definition stopDuplicateAddressDetection (addr : Address) : M unit :=
  d ← gets dad;
  match d !! addr with
  | None => ret tt
  | Some st =>
      Job_Cancel (dad_job st);;
      modify (upd_dad (delete addr));;
      notify (λ nic, OnDuplicateAddressDetectionStatus nic addr false None)
  end.

(** [sendDADPacket] *)
Definition sendDADPacket (addr : Address)
    (addressEndpoint : option AddressEndpoint) : M (option Error) :=
  let snmc := SolicitedNodeAddr addr in
  let pkt := mkPacket IPv6Any snmc NDPHopLimit
               (EthernetAddressFromMulticastIPv6Address snmc)
               (NeighborSolicit addr) in
  r ← gets (λ s, nic_WritePacketToRemote (ep s) (wire s) pkt);
  match r with
  | Some err =>
      modify (upd_stats (λ c, mkStats (st_NeighborSolicit c) (st_RouterSolicit c)
                                      (st_Dropped c + 1)));;
      ret (Some err)
  | None =>
      modify (upd_wire (λ w, w ++ [pkt]));;
      modify (upd_stats (λ c, mkStats (st_NeighborSolicit c + 1)
                                      (st_RouterSolicit c) (st_Dropped c)));;
      ret None
  end.

(** *** Deprecation and invalidation of SLAAC addresses *)

(** [deprecateSLAACAddress] *)
Definition deprecateSLAACAddress (addressEndpoint : option AddressEndpoint)
    : M unit :=
  dep ← Deprecated addressEndpoint;
  if dep then ret tt
  else
    SetDeprecated addressEndpoint true;;
    addr ← GetAddressWithPrefix addressEndpoint;
    notify (λ nic, OnAutoGenAddressDeprecated nic addr).

(** [cleanupTempSLAACAddrResources]; [tempAddrs] is the reference to the map
    the Go function receives. *)
Definition cleanupTempSLAACAddrResources (tempAddrs : MapRef) (tempAddr : Address)
    (tempAddrState : tempSLAACAddrState) : M unit :=
  DecRef (tmp_addressEndpoint tempAddrState);;
  Job_Cancel (tmp_deprecationJob tempAddrState);;
  Job_Cancel (tmp_invalidationJob tempAddrState);;
  Job_Cancel (tmp_regenJob tempAddrState);;
  updTempAddrs tempAddrs (delete tempAddr).

(** [cleanupTempSLAACAddrResourcesAndNotify] *)
Definition cleanupTempSLAACAddrResourcesAndNotify (addr : AddressWithPrefix)
    (invalidateAddr : bool) : M unit :=
  notify (λ nic, OnAutoGenAddressInvalidated nic addr);;
  if negb invalidateAddr then ret tt
  else
    let prefix := AddressWithPrefix_Subnet addr in
    ps ← gets slaacPrefixes;
    match ps !! prefix with
    | None => panic
    | Some state =>
        tmps ← getTempAddrs (tempAddrs state);
        match tmps !! awp_Address addr with
        | None => panic
        | Some tempAddrState =>
            cleanupTempSLAACAddrResources (tempAddrs state) (awp_Address addr)
              tempAddrState
        end
    end.

Definition clear_stableAddr (st : slaacPrefixState) : slaacPrefixState :=
  mkSlaacPrefixState (deprecationJob st) (invalidationJob st) (validUntil st)
    (preferredUntil st) None (stableAddr_localGenerationFailures st)
    (tempAddrs st) (generationAttempts st) (maxGenerationAttempts st).

(** The body of [cleanupSLAACAddrResourcesAndNotify], with the function it
    calls when [invalidatePrefix] is set as an argument: that function,
    [cleanupSLAACPrefixResources], removes addresses from the parent endpoint,
    which calls back into this one. *)
Definition cleanupSLAACAddrResourcesAndNotify_with
    (cleanupPrefix : Subnet → slaacPrefixState → M unit)
    (addr : AddressWithPrefix) (invalidatePrefix : bool) : M unit :=
  notify (λ nic, OnAutoGenAddressInvalidated nic addr);;
  let prefix := AddressWithPrefix_Subnet addr in
  ps ← gets slaacPrefixes;
  match ps !! prefix with
  | None => ret tt
  | Some state =>
      match stableAddr_addressEndpoint state with
      | None => ret tt
      | Some stable =>
          stableAddr ← GetAddressWithPrefix (Some stable);
          if negb (bool_decide (awp_Address addr = awp_Address stableAddr))
          then ret tt
          else if negb invalidatePrefix then
            DecRef (Some stable);;
            modify (upd_slaacPrefixes (insert prefix (clear_stableAddr state)))
          else cleanupPrefix prefix state
      end
  end.

(** Modelled from the spec: [removePermanentEndpointLocked] belongs to the
    parent endpoint (ipv6.go), which is not under src/.  Every call in ndp.go
    passes [allowSLAACInvalidation = false], the case modelled.  Section 6:
    the address table calls [stopDAD] when an address is removed; section
    4.6: the removal notifies the integrator of the invalidation of a SLAAC
    address and does not cascade to the invalidation of its prefix (the
    callbacks [cleanupSLAACAddrResourcesAndNotify] and
    [cleanupTempSLAACAddrResourcesAndNotify] of ndp.go, which have no other
    caller); the address then stops being a permanent address of the
    endpoint.  Removing an address that is not permanent is an error. *)
Definition removePermanentEndpointLocked (addressEndpoint : option AddressEndpoint)
    : M (option Error) :=
  addr ← GetAddressWithPrefix addressEndpoint;
  (if IsV6UnicastAddress (awp_Address addr) then
     stopDuplicateAddressDetection (awp_Address addr);;
     ct ← ConfigType addressEndpoint;
     match ct with
     | AddressConfigSlaac =>
         cleanupSLAACAddrResourcesAndNotify_with (λ _ _, panic) addr false
     | AddressConfigSlaacTemp =>
         cleanupTempSLAACAddrResourcesAndNotify addr false
     | AddressConfigStatic => ret tt
     end
   else ret tt);;
  kind ← GetKind addressEndpoint;
  match kind with
  | Permanent | PermanentTentative =>
      SetKind addressEndpoint PermanentExpired;;
      DecRef addressEndpoint;;
      ret None
  | _ => ret (Some ErrBadLocalAddress)
  end.

(** [invalidateTempSLAACAddr] *)
Definition invalidateTempSLAACAddr (tempAddrs : MapRef) (tempAddr : Address)
    (tempAddrState : tempSLAACAddrState) : M unit :=
  err ← removePermanentEndpointLocked (tmp_addressEndpoint tempAddrState);
  match err with
  | Some _ => panic
  | None => cleanupTempSLAACAddrResources tempAddrs tempAddr tempAddrState
  end.

(** A [for k, v := range m] statement over the map behind [r]: an entry
    removed before it is reached is not visited. *)
Definition rangeTempAddrs {B : Type} (r : MapRef)
    (body : B → Address → tempSLAACAddrState → M B) (acc : B) : M B :=
  m ← getTempAddrs r;
  foldM (λ acc k,
           cur ← getTempAddrs r;
           match cur !! k with
           | Some v => body acc k v
           | None => ret acc
           end) acc (rangeKeys m).

(** [cleanupSLAACPrefixResources] *)
Definition cleanupSLAACPrefixResources (prefix : Subnet)
    (state : slaacPrefixState) : M unit :=
  rangeTempAddrs (tempAddrs state)
    (λ _ tempAddr tempAddrState,
       invalidateTempSLAACAddr (tempAddrs state) tempAddr tempAddrState) tt;;
  match stableAddr_addressEndpoint state with
  | Some ae => DecRef (Some ae)
  | None => ret tt
  end;;
  Job_Cancel (deprecationJob state);;
  Job_Cancel (invalidationJob state);;
  modify (upd_slaacPrefixes (delete prefix)).

(** [cleanupSLAACAddrResourcesAndNotify] *)
Definition cleanupSLAACAddrResourcesAndNotify :=
  cleanupSLAACAddrResourcesAndNotify_with cleanupSLAACPrefixResources.

(** [invalidateSLAACPrefix]; [state] is passed by value, so the handle of the
    stable address is still the caller's after the resources are cleaned. *)
Definition invalidateSLAACPrefix (prefix : Subnet) (state : slaacPrefixState)
    : M unit :=
  cleanupSLAACPrefixResources prefix state;;
  match stableAddr_addressEndpoint state with
  | Some ae =>
      err ← removePermanentEndpointLocked (Some ae);
      match err with
      | Some _ => panic
      | None => ret tt
      end
  | None => ret tt
  end.

(** *** Adding addresses to the parent endpoint *)

Definition isPermanent (k : AddressKind) : bool :=
  match k with
  | Permanent | PermanentTentative => true
  | _ => false
  end.

(** Modelled from the spec: [hasPermanentAddressRLocked] belongs to the
    parent endpoint, which is not under src/: whether the endpoint already
    owns the address (section 4.6, "local conflict"). *)
Definition hasPermanentAddressRLocked (addr : Address) : M bool :=
  o ← gets (λ s, addressEndpoints s !! addr);
  ret (match o with
       | Some st => isPermanent (ae_Kind st)
       | None => false
       end).

(** Modelled from the spec: [addAndAcquirePermanentAddressLocked] belongs to
    the parent endpoint, which is not under src/.  Section 7: adding an
    address the endpoint already owns is an error; sections 2 and 6: the
    address table runs [startDAD] on a newly added address, which is
    tentative until DAD resolves.  Section 5: the handle is
    reference-counted; the new address has one reference held by the address
    table and one by the caller.  The result is the pair the Go function
    returns. *)
Definition addAndAcquirePermanentAddressLocked (addr : AddressWithPrefix)
    (configType : AddressConfigType) (deprecated : bool)
    : M (option AddressEndpoint * option Error) :=
  has ← hasPermanentAddressRLocked (awp_Address addr);
  if has then ret (None, Some ErrDuplicateAddress)
  else
    modify (upd_addressEndpoints (insert (awp_Address addr)
      (mkAddressState (awp_PrefixLen addr) Permanent configType deprecated 2)));;
    if negb (IsV6UnicastAddress (awp_Address addr))
    then ret (Some (awp_Address addr), None)
    else
      SetKind (Some (awp_Address addr)) PermanentTentative;;
      err ← startDuplicateAddressDetection (awp_Address addr)
              (Some (awp_Address addr));
      match err with
      | Some e => ret (None, Some e)
      | None => ret (Some (awp_Address addr), None)
      end.

(** [addAndAcquireSLAACAddr] *)
Definition addAndAcquireSLAACAddr (addr : AddressWithPrefix)
    (configType : AddressConfigType) (deprecated : bool)
    : M (option AddressEndpoint) :=
  disp ← gets (λ s, NDPDisp (ep s));
  match disp with
  | None => ret None
  | Some ndpDisp =>
      ok ← ask (acceptAutoGenAddress ndpDisp) OnAutoGenAddress addr;
      if negb ok then ret None
      else
        r ← addAndAcquirePermanentAddressLocked addr configType deprecated;
        match r.2 with
        | Some _ => panic
        | None => ret r.1
        end
  end.

(** *** Generation of SLAAC addresses *)

Definition set_stableAddr (ae : option AddressEndpoint) (fails : Z)
    (st : slaacPrefixState) : slaacPrefixState :=
  mkSlaacPrefixState (deprecationJob st) (invalidationJob st) (validUntil st)
    (preferredUntil st) ae fails
    (tempAddrs st) (generationAttempts st) (maxGenerationAttempts st).

Definition set_generation (attempts maxAttempts : Z) (st : slaacPrefixState)
    : slaacPrefixState :=
  mkSlaacPrefixState (deprecationJob st) (invalidationJob st) (validUntil st)
    (preferredUntil st) (stableAddr_addressEndpoint st)
    (stableAddr_localGenerationFailures st)
    (tempAddrs st) attempts maxAttempts.

Definition set_validUntil (t : Time) (st : slaacPrefixState) : slaacPrefixState :=
  mkSlaacPrefixState (deprecationJob st) (invalidationJob st) t
    (preferredUntil st) (stableAddr_addressEndpoint st)
    (stableAddr_localGenerationFailures st)
    (tempAddrs st) (generationAttempts st) (maxGenerationAttempts st).

Definition set_preferredUntil (t : Time) (st : slaacPrefixState)
    : slaacPrefixState :=
  mkSlaacPrefixState (deprecationJob st) (invalidationJob st) (validUntil st)
    t (stableAddr_addressEndpoint st)
    (stableAddr_localGenerationFailures st)
    (tempAddrs st) (generationAttempts st) (maxGenerationAttempts st).

(** The [for i := 0; ; i++] loop of [generateSLAACAddr]; [n] is
    [maxSLAACAddrLocalRegenAttempts - i].  The result is the generated
    address if the loop is left by [break], [None] if the function returns
    [false] from inside the loop, and the state behind the pointer. *)
Fixpoint generateSLAACAddr_loop (n : nat) (prefix : Subnet)
    (state : slaacPrefixState) (addrBytes : string)
    : M (option AddressWithPrefix * slaacPrefixState) :=
  match n with
  | O => ret (None, state)
  | S n =>
      let dadCounter :=
        u8 (generationAttempts state + stableAddr_localGenerationFailures state) in
      e ← gets ep;
      let check (addrBytes : string) :=
        let generatedAddr := mkAddressWithPrefix addrBytes validPrefixLenForAutoGen in
        has ← hasPermanentAddressRLocked (awp_Address generatedAddr);
        if negb has then ret (Some generatedAddr, state)
        else
          generateSLAACAddr_loop n prefix
            (set_stableAddr (stableAddr_addressEndpoint state)
               (u8 (stableAddr_localGenerationFailures state + 1)) state)
            addrBytes in
      match OpaqueIIDOpts_NICNameFromID e with
      | Some NICNameFromID =>
          if (String.length addrBytes <? IIDOffsetInIPv6Address)%nat then panic
          else
            check (AppendOpaqueInterfaceIdentifier
                     (substring 0 IIDOffsetInIPv6Address addrBytes) prefix
                     (NICNameFromID (nic_ID e) (nic_Name e)) dadCounter
                     (OpaqueIIDOpts_SecretKey e))
      | None =>
          if dadCounter =? 0 then
            let linkAddr := nic_LinkAddress e in
            if negb (IsValidUnicastEthernetAddress linkAddr) then ret (None, state)
            else if (String.length addrBytes <? IIDOffsetInIPv6Address)%nat
            then panic
            else check (EthernetAdddressToModifiedEUI64IntoBuf linkAddr addrBytes)
          else ret (None, state)
      end
  end.

(** [generateSLAACAddr]: the returned [bool] and the state behind the
    pointer [state]. *)
Definition generateSLAACAddr (prefix : Subnet) (state : slaacPrefixState)
    : M (bool * slaacPrefixState) :=
  match stableAddr_addressEndpoint state with
  | Some _ => panic
  | None =>
      if generationAttempts state =? maxGenerationAttempts state
      then ret (false, state)
      else
        r ← generateSLAACAddr_loop maxSLAACAddrLocalRegenAttempts prefix state
              (subnet_ID prefix);
        let state := r.2 in
        match r.1 with
        | None => ret (false, state)
        | Some generatedAddr =>
            now ← gets clock;
            ae ← addAndAcquireSLAACAddr generatedAddr AddressConfigSlaac
                   (0 <=? now - preferredUntil state);
            match ae with
            | Some a =>
                ret (true,
                     set_generation (u8 (generationAttempts state + 1))
                       (maxGenerationAttempts state)
                       (set_stableAddr (Some a)
                          (stableAddr_localGenerationFailures state) state))
            | None => ret (false, state)
            end
        end
  end.

(** [regenerateSLAACAddr] *)
Definition regenerateSLAACAddr (prefix : Subnet) : M unit :=
  ps ← gets slaacPrefixes;
  match ps !! prefix with
  | None => panic
  | Some state =>
      r ← generateSLAACAddr prefix state;
      if r.1 then modify (upd_slaacPrefixes (insert prefix r.2))
      else invalidateSLAACPrefix prefix r.2
  end.

(** The [for i := 0; ; i++] loop of [generateTempSLAACAddr]. *)
Fixpoint generateTempSLAACAddr_loop (n : nat) (stableAddr : Address)
    : M (option AddressWithPrefix) :=
  match n with
  | O => ret None
  | S n =>
      h ← gets temporaryIIDHistory;
      let g := GenerateTempIPv6SLAACAddr h stableAddr in
      modify (upd_temporaryIIDHistory (λ _, g.1));;
      has ← hasPermanentAddressRLocked (awp_Address g.2);
      if negb has then ret (Some g.2)
      else generateTempSLAACAddr_loop n stableAddr
  end.

(** [generateTempSLAACAddr]: the returned [bool] and the state behind the
    pointer [prefixState]. *)
Definition generateTempSLAACAddr (prefix : Subnet) (prefixState : slaacPrefixState)
    (resetGenAttempts : bool) : M (bool * slaacPrefixState) :=
  c ← gets configs;
  if negb (AutoGenTempGlobalAddresses c)
     || bool_decide (prefix = AddressWithPrefix_Subnet IPv6LinkLocalPrefix)
  then ret (false, prefixState)
  else
    let prefixState :=
      if resetGenAttempts
      then set_generation 0 (u8 (AutoGenAddressConflictRetries c + 1)) prefixState
      else prefixState in
    if generationAttempts prefixState =? maxGenerationAttempts prefixState
    then ret (false, prefixState)
    else
      stable ← GetAddressWithPrefix (stableAddr_addressEndpoint prefixState);
      let stableAddr := awp_Address stable in
      now ← gets clock;
      let vl := MaxTempAddrValidLifetime c in
      let vl :=
        if negb (validUntil prefixState =? 0) then
          let prefixVL := validUntil prefixState - now in
          if vl >? prefixVL then prefixVL else vl
        else vl in
      if vl <=? 0 then ret (false, prefixState)
      else
        desync ← gets temporaryAddressDesyncFactor;
        let pl := MaxTempAddrPreferredLifetime c - desync in
        let pl :=
          if negb (preferredUntil prefixState =? 0) then
            let prefixPL := preferredUntil prefixState - now in
            if pl >? prefixPL then prefixPL else pl
          else pl in
        if pl <=? RegenAdvanceDuration c then ret (false, prefixState)
        else
          g ← generateTempSLAACAddr_loop maxSLAACAddrLocalRegenAttempts stableAddr;
          match g with
          | None => ret (false, prefixState)
          | Some generatedAddr =>
              ae ← addAndAcquireSLAACAddr generatedAddr AddressConfigSlaacTemp false;
              match ae with
              | None => ret (false, prefixState)
              | Some a =>
                  dj ← NewJob (TempAddrDeprecationJob prefix generatedAddr) 0;
                  ij ← NewJob (TempAddrInvalidationJob prefix generatedAddr) 0;
                  rj ← NewJob (TempAddrRegenJob prefix generatedAddr) 0;
                  let state := mkTempSLAACAddrState dj ij rj now (Some a) false in
                  Job_Schedule dj pl;;
                  Job_Schedule ij vl;;
                  Job_Schedule rj (pl - RegenAdvanceDuration c);;
                  updTempAddrs (tempAddrs prefixState)
                    (insert (awp_Address generatedAddr) state);;
                  ret (true,
                       set_generation (u8 (generationAttempts prefixState + 1))
                         (maxGenerationAttempts prefixState) prefixState)
              end
          end.

(** [regenerateTempSLAACAddr] *)
Definition regenerateTempSLAACAddr (prefix : Subnet) (resetGenAttempts : bool)
    : M unit :=
  ps ← gets slaacPrefixes;
  match ps !! prefix with
  | None => panic
  | Some state =>
      r ← generateTempSLAACAddr prefix state resetGenAttempts;
      modify (upd_slaacPrefixes (insert prefix r.2))
  end.

(** *** Refreshing the lifetimes of a SLAAC prefix *)

Definition set_regenerated (b : bool) (t : tempSLAACAddrState)
    : tempSLAACAddrState :=
  mkTempSLAACAddrState (tmp_deprecationJob t) (tmp_invalidationJob t)
    (tmp_regenJob t) (tmp_createdAt t) (tmp_addressEndpoint t) b.

(** The body of the [range] loop of [refreshSLAACPrefixLifetimes]; the
    accumulator is the pair of [regenForAddr] and [allAddressesRegenerated]. *)
Definition refreshTempAddr (prefixState : slaacPrefixState) (now : Time)
    (acc : Address * bool) (tempAddr : Address)
    (tempAddrState : tempSLAACAddrState) : M (Address * bool) :=
  c ← gets configs;
  desync ← gets temporaryAddressDesyncFactor;
  let validUntil_t := tmp_createdAt tempAddrState + MaxTempAddrValidLifetime c in
  let validUntil_t :=
    if negb (validUntil prefixState =? 0)
       && (validUntil_t - validUntil prefixState >? 0)
    then validUntil prefixState else validUntil_t in
  let newValidLifetime := validUntil_t - now in
  if newValidLifetime <=? 0 then
    invalidateTempSLAACAddr (tempAddrs prefixState) tempAddr tempAddrState;;
    ret acc
  else
    Job_Cancel (tmp_invalidationJob tempAddrState);;
    Job_Schedule (tmp_invalidationJob tempAddrState) newValidLifetime;;
    let preferredUntil_t :=
      tmp_createdAt tempAddrState + (MaxTempAddrPreferredLifetime c - desync) in
    let preferredUntil_t :=
      if negb (preferredUntil prefixState =? 0)
         && (preferredUntil_t - preferredUntil prefixState >? 0)
      then preferredUntil prefixState else preferredUntil_t in
    let newPreferredLifetime := preferredUntil_t - now in
    Job_Cancel (tmp_deprecationJob tempAddrState);;
    (if newPreferredLifetime <=? 0
     then deprecateSLAACAddress (tmp_addressEndpoint tempAddrState)
     else
       SetDeprecated (tmp_addressEndpoint tempAddrState) false;;
       Job_Schedule (tmp_deprecationJob tempAddrState) newPreferredLifetime);;
    Job_Cancel (tmp_regenJob tempAddrState);;
    if tmp_regenerated tempAddrState then ret acc
    else if newPreferredLifetime <=? RegenAdvanceDuration c
    then ret (tempAddr, false)
    else
      Job_Schedule (tmp_regenJob tempAddrState)
        (newPreferredLifetime - RegenAdvanceDuration c);;
      ret (acc.1, false).

(** The first part of [refreshSLAACPrefixLifetimes], up to the update of the
    preferred lifetime of the prefix. *)
Definition refreshPreferredLifetime (prefixState : slaacPrefixState)
    (pl : Duration) (now : Time) : M slaacPrefixState :=
  let deprecated := pl =? 0 in
  (if deprecated
   then deprecateSLAACAddress (stableAddr_addressEndpoint prefixState)
   else SetDeprecated (stableAddr_addressEndpoint prefixState) false);;
  Job_Cancel (deprecationJob prefixState);;
  if pl <? NDPInfiniteLifetime then
    (if negb deprecated then Job_Schedule (deprecationJob prefixState) pl
     else ret tt);;
    ret (set_preferredUntil (now + pl) prefixState)
  else ret (set_preferredUntil 0 prefixState).

(** The second part: the update of the valid lifetime, RFC 4862 section
    5.5.3.e. *)
Definition refreshValidLifetime (prefixState : slaacPrefixState)
    (vl : Duration) (now : Time) : M slaacPrefixState :=
  if vl >=? NDPInfiniteLifetime then
    Job_Cancel (invalidationJob prefixState);;
    ret (set_validUntil 0 prefixState)
  else
    let rl :=
      if validUntil prefixState =? 0 then NDPInfiniteLifetime
      else validUntil prefixState - now in
    let effectiveVl :=
      if (vl >? MinPrefixInformationValidLifetimeForUpdate) || (vl >? rl) then vl
      else if rl >? MinPrefixInformationValidLifetimeForUpdate
      then MinPrefixInformationValidLifetimeForUpdate
      else 0 in
    if negb (effectiveVl =? 0) then
      Job_Cancel (invalidationJob prefixState);;
      Job_Schedule (invalidationJob prefixState) effectiveVl;;
      ret (set_validUntil (now + effectiveVl) prefixState)
    else ret prefixState.

(** The last part: the temporary addresses of the prefix. *)
Definition refreshTempAddrs (prefix : Subnet) (prefixState : slaacPrefixState)
    (now : Time) : M slaacPrefixState :=
  kind ← GetKind (stableAddr_addressEndpoint prefixState);
  if negb (bool_decide (kind = Permanent)) then ret prefixState
  else
    acc ← rangeTempAddrs (tempAddrs prefixState)
            (refreshTempAddr prefixState now) (EmptyString, true);
    let regenForAddr := acc.1 in
    let allAddressesRegenerated := acc.2 in
    if negb (String.length regenForAddr =? 0)%nat || allAddressesRegenerated then
      tmps ← getTempAddrs (tempAddrs prefixState);
      let o := tmps !! regenForAddr in
      r ← generateTempSLAACAddr prefix prefixState true;
      match o with
      | Some state =>
          if r.1 then
            updTempAddrs (tempAddrs prefixState)
              (insert regenForAddr (set_regenerated true state));;
            ret r.2
          else ret r.2
      | None => ret r.2
      end
    else ret prefixState.

(** [refreshSLAACPrefixLifetimes]: the state behind the pointer
    [prefixState] when the function returns. *)
Definition refreshSLAACPrefixLifetimes (prefix : Subnet)
    (prefixState : slaacPrefixState) (pl vl : Duration) : M slaacPrefixState :=
  now ← gets clock;
  prefixState ← refreshPreferredLifetime prefixState pl now;
  prefixState ← refreshValidLifetime prefixState vl now;
  refreshTempAddrs prefix prefixState now.

(** *** Prefix Information options *)

(** The fields of a Prefix Information option read through the methods of
    [header.NDPPrefixInformation]. *)
Record NDPPrefixInformation : Type := mkNDPPrefixInformation {
  pi_Subnet : Subnet;
  pi_OnLinkFlag : bool;
  pi_AutonomousAddressConfigurationFlag : bool;
  pi_ValidLifetime : Duration;
  pi_PreferredLifetime : Duration
}.

(** [doSLAAC] *)
Definition doSLAAC (prefix : Subnet) (pl vl : Duration) : M unit :=
  if vl =? 0 then ret tt
  else if negb (subnet_Prefix prefix =? validPrefixLenForAutoGen) then ret tt
  else
    dj ← NewJob (SLAACPrefixDeprecationJob prefix) 0;
    ij ← NewJob (SLAACPrefixInvalidationJob prefix) 0;
    tmps ← makeTempAddrs;
    c ← gets configs;
    let state :=
      mkSlaacPrefixState dj ij 0 0 None 0 tmps 0
        (u8 (AutoGenAddressConflictRetries c + 1)) in
    now ← gets clock;
    let state :=
      if pl <? NDPInfiniteLifetime then set_preferredUntil (now + pl) state
      else state in
    r ← generateSLAACAddr prefix state;
    let state := r.2 in
    if negb r.1 then ret tt
    else
      (if (pl <? NDPInfiniteLifetime) && negb (pl =? 0)
       then Job_Schedule (deprecationJob state) pl
       else ret tt);;
      state ← (if vl <? NDPInfiniteLifetime then
                 Job_Schedule (invalidationJob state) vl;;
                 ret (set_validUntil (now + vl) state)
               else ret state);
      kind ← GetKind (stableAddr_addressEndpoint state);
      state ← (if bool_decide (kind = Permanent) then
                 r ← generateTempSLAACAddr prefix state true;
                 ret r.2
               else ret state);
      modify (upd_slaacPrefixes (insert prefix state)).

(** [handleAutonomousPrefixInformation] *)
Definition handleAutonomousPrefixInformation (pi : NDPPrefixInformation)
    : M unit :=
  let vl := pi_ValidLifetime pi in
  let pl := pi_PreferredLifetime pi in
  if pl >? vl then ret tt
  else
    let prefix := pi_Subnet pi in
    ps ← gets slaacPrefixes;
    match ps !! prefix with
    | Some state =>
        state ← refreshSLAACPrefixLifetimes prefix state pl vl;
        modify (upd_slaacPrefixes (insert prefix state))
    | None =>
        c ← gets configs;
        if negb (AutoGenGlobalAddresses c) then ret tt
        else doSLAAC prefix pl vl
    end.

(** *** Default routers and on-link prefixes *)

(** [invalidateDefaultRouter] *)
Definition invalidateDefaultRouter (ip : Address) : M unit :=
  rs ← gets defaultRouters;
  match rs !! ip with
  | None => ret tt
  | Some rtr =>
      Job_Cancel (rtr_invalidationJob rtr);;
      modify (upd_defaultRouters (delete ip));;
      notify (λ nic, OnDefaultRouterInvalidated nic ip)
  end.

(** [rememberDefaultRouter] *)
Definition rememberDefaultRouter (ip : Address) (rl : Duration) : M unit :=
  disp ← gets (λ s, NDPDisp (ep s));
  match disp with
  | None => ret tt
  | Some ndpDisp =>
      ok ← ask (rememberRouter ndpDisp) OnDefaultRouterDiscovered ip;
      if negb ok then ret tt
      else
        job ← NewJob (DefaultRouterInvalidationJob ip) 0;
        Job_Schedule job rl;;
        modify (upd_defaultRouters (insert ip (mkDefaultRouterState job)))
  end.

(** [rememberOnLinkPrefix] *)
Definition rememberOnLinkPrefix (prefix : Subnet) (l : Duration) : M unit :=
  disp ← gets (λ s, NDPDisp (ep s));
  match disp with
  | None => ret tt
  | Some ndpDisp =>
      ok ← ask (rememberPrefix ndpDisp) OnOnLinkPrefixDiscovered prefix;
      if negb ok then ret tt
      else
        job ← NewJob (OnLinkPrefixInvalidationJob prefix) 0;
        (if l <? NDPInfiniteLifetime then Job_Schedule job l else ret tt);;
        modify (upd_onLinkPrefixes (insert prefix (mkOnLinkPrefixState job)))
  end.

(** [invalidateOnLinkPrefix] *)
Definition invalidateOnLinkPrefix (prefix : Subnet) : M unit :=
  ps ← gets onLinkPrefixes;
  match ps !! prefix with
  | None => ret tt
  | Some st =>
      Job_Cancel (olp_invalidationJob st);;
      modify (upd_onLinkPrefixes (delete prefix));;
      notify (λ nic, OnOnLinkPrefixInvalidated nic prefix)
  end.

(** [handleOnLinkPrefixInformation] *)
Definition handleOnLinkPrefixInformation (pi : NDPPrefixInformation) : M unit :=
  let prefix := pi_Subnet pi in
  ps ← gets onLinkPrefixes;
  let vl := pi_ValidLifetime pi in
  match ps !! prefix with
  | None =>
      if vl =? 0 then ret tt
      else
        c ← gets configs;
        if DiscoverOnLinkPrefixes c
           && (size ps <? MaxDiscoveredOnLinkPrefixes)%nat
        then rememberOnLinkPrefix prefix vl
        else ret tt
  | Some prefixState =>
      if vl =? 0 then invalidateOnLinkPrefix prefix
      else
        Job_Cancel (olp_invalidationJob prefixState);;
        (if vl <? NDPInfiniteLifetime
         then Job_Schedule (olp_invalidationJob prefixState) vl
         else ret tt);;
        modify (upd_onLinkPrefixes (insert prefix prefixState))
  end.

(** *** Router Advertisements *)

(** The options of a Router Advertisement as the iterator of
    [header.NDPOptions] yields them. *)
Inductive NDPOption : Type :=
| NDPRecursiveDNSServer (addrs : list Address) (lifetime : Duration)
| NDPDNSSearchList (domainNames : list string) (lifetime : Duration)
| NDPPrefixInformationOption (pi : NDPPrefixInformation)
| NDPOtherOption.

(** The fields of a Router Advertisement read through the methods of
    [header.NDPRouterAdvert]. *)
Record NDPRouterAdvert : Type := mkNDPRouterAdvert {
  ra_ManagedAddrConfFlag : bool;
  ra_OtherConfFlag : bool;
  ra_RouterLifetime : Duration;
  ra_Options : list NDPOption
}.

(** The block of [handleRA] guarded by [ndpDisp != nil]. *)
Definition handleRA_dhcpv6 (ra : NDPRouterAdvert) : M unit :=
  disp ← gets (λ s, NDPDisp (ep s));
  match disp with
  | None => ret tt
  | Some _ =>
      let configuration :=
        if ra_ManagedAddrConfFlag ra then DHCPv6ManagedAddress
        else if ra_OtherConfFlag ra then DHCPv6OtherConfigurations
        else DHCPv6NoConfiguration in
      cur ← gets dhcpv6Configuration;
      if negb (cur =? configuration) then
        modify (upd_dhcpv6Configuration (λ _, configuration));;
        emit (λ nic, OnDHCPv6Configuration nic configuration)
      else ret tt
  end.

(** The block of [handleRA] guarded by [ndp.configs.DiscoverDefaultRouters]. *)
Definition handleRA_defaultRouter (ip : Address) (ra : NDPRouterAdvert)
    : M unit :=
  c ← gets configs;
  if negb (DiscoverDefaultRouters c) then ret tt
  else
    rs ← gets defaultRouters;
    let rl := ra_RouterLifetime ra in
    match rs !! ip with
    | None =>
        if negb (rl =? 0) then
          if (size rs <? MaxDiscoveredDefaultRouters)%nat
          then rememberDefaultRouter ip rl
          else ret tt
        else ret tt
    | Some rtr =>
        if negb (rl =? 0) then
          Job_Cancel (rtr_invalidationJob rtr);;
          Job_Schedule (rtr_invalidationJob rtr) rl;;
          modify (upd_defaultRouters (insert ip rtr))
        else invalidateDefaultRouter ip
    end.

(** The body of the loop of [handleRA] over the options. *)
Definition handleRA_option (opt : NDPOption) : M unit :=
  match opt with
  | NDPRecursiveDNSServer addrs lifetime =>
      notify (λ nic, OnRecursiveDNSServerOption nic addrs lifetime)
  | NDPDNSSearchList domainNames lifetime =>
      notify (λ nic, OnDNSSearchListOption nic domainNames lifetime)
  | NDPPrefixInformationOption pi =>
      let prefix := pi_Subnet pi in
      if IsV6LinkLocalAddress (subnet_ID prefix) then ret tt
      else if subnet_Prefix prefix =? 0 then ret tt
      else
        (if pi_OnLinkFlag pi then handleOnLinkPrefixInformation pi else ret tt);;
        (if pi_AutonomousAddressConfigurationFlag pi
         then handleAutonomousPrefixInformation pi
         else ret tt)
  | NDPOtherOption => ret tt
  end.

(** [handleRA] *)
Definition handleRA (ip : Address) (ra : NDPRouterAdvert) : M unit :=
  c ← gets configs;
  fwd ← gets (λ s, Forwarding (ep s));
  if negb (HandleRAs c) || fwd then ret tt
  else
    handleRA_dhcpv6 ra;;
    handleRA_defaultRouter ip ra;;
    forEach (ra_Options ra) handleRA_option.

(** *** Teardown *)

(** [removeSLAACAddresses] *)
Definition removeSLAACAddresses (keepLinkLocal : bool) : M unit :=
  let linkLocalSubnet := AddressWithPrefix_Subnet IPv6LinkLocalPrefix in
  ps ← gets slaacPrefixes;
  linkLocalPrefixes ←
    foldM (λ (n : nat) prefix,
             cur ← gets slaacPrefixes;
             match cur !! prefix with
             | None => ret n
             | Some state =>
                 if keepLinkLocal && bool_decide (prefix = linkLocalSubnet)
                 then ret (S n)
                 else invalidateSLAACPrefix prefix state;; ret n
             end) O (rangeKeys ps);
  got ← gets (λ s, size (slaacPrefixes s));
  if negb (got =? linkLocalPrefixes)%nat then panic else ret tt.

(** [cleanupState] *)
Definition cleanupState (hostOnly : bool) : M unit :=
  removeSLAACAddresses hostOnly;;
  ps ← gets onLinkPrefixes;
  forEach (rangeKeys ps)
    (λ prefix,
       cur ← gets onLinkPrefixes;
       match cur !! prefix with
       | None => ret tt
       | Some _ => invalidateOnLinkPrefix prefix
       end);;
  got ← gets (λ s, size (onLinkPrefixes s));
  if negb (got =? 0)%nat then panic
  else
    rs ← gets defaultRouters;
    forEach (rangeKeys rs)
      (λ router,
         cur ← gets defaultRouters;
         match cur !! router with
         | None => ret tt
         | Some _ => invalidateDefaultRouter router
         end);;
    got ← gets (λ s, size (defaultRouters s));
    if negb (got =? 0)%nat then panic
    else modify (upd_dhcpv6Configuration (λ _, 0)).

(** *** Router Solicitation *)

(** [startSolicitingRouters] *)
Definition startSolicitingRouters : M unit :=
  cur ← gets rtrSolicitJob;
  match cur with
  | Some _ => ret tt
  | None =>
      c ← gets configs;
      let remaining := MaxRtrSolicitations c in
      if remaining =? 0 then ret tt
      else
        e ← gets ep;
        let delay :=
          if MaxRtrSolicitationDelay c >? 0
          then rand_Int63n e (MaxRtrSolicitationDelay c)
          else 0 in
        job ← NewJob RtrSolicitJob remaining;
        modify (upd_rtrSolicitJob (λ _, Some job));;
        Job_Schedule job delay
  end.

(** [stopSolicitingRouters] *)
Definition stopSolicitingRouters : M unit :=
  cur ← gets rtrSolicitJob;
  match cur with
  | None => ret tt
  | Some job =>
      Job_Cancel job;;
      modify (upd_rtrSolicitJob (λ _, None))
  end.

(** Modelled from the spec: [acquireOutgoingPrimaryAddressRLocked] belongs to
    the parent endpoint, which is not under src/.  Section 4.7: the source
    of a Router Solicitation is a primary address assigned to the interface,
    if there is one; the address is returned with a reference taken. *)
Definition acquireOutgoingPrimaryAddressRLocked (remote : Address)
    : M (option AddressEndpoint) :=
  o ← gets (λ s, outgoingPrimaryAddress (ep s) (addressEndpoints s) remote);
  match o with
  | None => ret None
  | Some a =>
      st ← gets (λ s, addressEndpoints s !! a);
      match st with
      | None => ret None
      | Some st =>
          modify (upd_addressEndpoints (insert a
            (mkAddressState (ae_PrefixLen st) (ae_Kind st) (ae_ConfigType st)
                            (ae_Deprecated st) (ae_Refs st + 1))));;
          ret (Some a)
      end
  end.

(** *** The functions given to [NewJob] *)

(** The closure of [startSolicitingRouters]; [self] is the job that runs it,
    which holds the captured variable [remaining]. *)
Definition rtrSolicitJob_fn (self : JobRef) : M unit :=
  ae ← acquireOutgoingPrimaryAddressRLocked IPv6AllRoutersMulticastAddress;
  localAddr ← match ae with
              | Some a =>
                  addr ← GetAddressWithPrefix (Some a);
                  DecRef (Some a);;
                  ret (awp_Address addr)
              | None => ret IPv6Any
              end;
  e ← gets ep;
  let linkAddress := nic_LinkAddress e in
  let opts :=
    if negb (bool_decide (localAddr = IPv6Any))
       && IsValidUnicastEthernetAddress linkAddress
    then Some linkAddress else None in
  let pkt := mkPacket localAddr IPv6AllRoutersMulticastAddress NDPHopLimit
               (EthernetAddressFromMulticastIPv6Address
                  IPv6AllRoutersMulticastAddress)
               (RouterSolicit opts) in
  r ← gets (λ s, nic_WritePacketToRemote e (wire s) pkt);
  match r with
  | Some _ =>
      modify (upd_stats (λ c, mkStats (st_NeighborSolicit c) (st_RouterSolicit c)
                                      (st_Dropped c + 1)));;
      setRemaining self 0
  | None =>
      modify (upd_wire (λ w, w ++ [pkt]));;
      modify (upd_stats (λ c, mkStats (st_NeighborSolicit c)
                                      (st_RouterSolicit c + 1) (st_Dropped c)));;
      remaining ← getRemaining self;
      setRemaining self (u8 (remaining - 1))
  end;;
  remaining ← getRemaining self;
  if negb (remaining =? 0) then
    cur ← gets rtrSolicitJob;
    match cur with
    | Some job =>
        c ← gets configs;
        Job_Schedule job (RtrSolicitationInterval c)
    | None => panic
    end
  else ret tt.

(** The closure of [startDuplicateAddressDetection]. *)
Definition dadJob_fn (self : JobRef) (addr : Address)
    (addressEndpoint : option AddressEndpoint) : M unit :=
  d ← gets dad;
  match d !! addr with
  | None => panic
  | Some state =>
      kind ← GetKind addressEndpoint;
      if negb (bool_decide (kind = PermanentTentative)) then panic
      else
        remaining ← getRemaining self;
        let dadDone := remaining =? 0 in
        err ← (if negb dadDone then sendDADPacket addr addressEndpoint
               else ret None);
        let finish :=
          modify (upd_dad (delete addr));;
          notify (λ nic, OnDuplicateAddressDetectionStatus nic addr dadDone err);;
          if dadDone then
            ct ← ConfigType addressEndpoint;
            if bool_decide (ct = AddressConfigSlaac) then
              a ← GetAddressWithPrefix addressEndpoint;
              regenerateTempSLAACAddr (AddressWithPrefix_Subnet a) true
            else ret tt
          else ret tt in
        if dadDone then SetKind addressEndpoint Permanent;; finish
        else
          match err with
          | None =>
              setRemaining self (u8 (remaining - 1));;
              c ← gets configs;
              Job_Schedule (dad_job state) (RetransmitTimer c)
          | Some _ => finish
          end
  end.

(** The closures of [doSLAAC]. *)
Definition slaacDeprecationJob_fn (prefix : Subnet) : M unit :=
  ps ← gets slaacPrefixes;
  match ps !! prefix with
  | None => panic
  | Some state => deprecateSLAACAddress (stableAddr_addressEndpoint state)
  end.

Definition slaacInvalidationJob_fn (prefix : Subnet) : M unit :=
  ps ← gets slaacPrefixes;
  match ps !! prefix with
  | None => panic
  | Some state => invalidateSLAACPrefix prefix state
  end.

(** The lookups every closure of [generateTempSLAACAddr] starts with. *)
Definition withTempAddr {A : Type} (prefix : Subnet)
    (generatedAddr : AddressWithPrefix)
    (f : slaacPrefixState → tempSLAACAddrState → M A) : M A :=
  ps ← gets slaacPrefixes;
  match ps !! prefix with
  | None => panic
  | Some prefixState =>
      tmps ← getTempAddrs (tempAddrs prefixState);
      match tmps !! awp_Address generatedAddr with
      | None => panic
      | Some tempAddrState => f prefixState tempAddrState
      end
  end.

Definition tempDeprecationJob_fn (prefix : Subnet)
    (generatedAddr : AddressWithPrefix) : M unit :=
  withTempAddr prefix generatedAddr (λ _ tempAddrState,
    deprecateSLAACAddress (tmp_addressEndpoint tempAddrState)).

Definition tempInvalidationJob_fn (prefix : Subnet)
    (generatedAddr : AddressWithPrefix) : M unit :=
  withTempAddr prefix generatedAddr (λ prefixState tempAddrState,
    invalidateTempSLAACAddr (tempAddrs prefixState) (awp_Address generatedAddr)
      tempAddrState).

Definition tempRegenJob_fn (prefix : Subnet)
    (generatedAddr : AddressWithPrefix) : M unit :=
  withTempAddr prefix generatedAddr (λ prefixState tempAddrState,
    if tmp_regenerated tempAddrState then ret tt
    else
      r ← generateTempSLAACAddr prefix prefixState true;
      updTempAddrs (tempAddrs r.2)
        (insert (awp_Address generatedAddr) (set_regenerated r.1 tempAddrState));;
      modify (upd_slaacPrefixes (insert prefix r.2))).

Definition runJob (self : JobRef) (fn : JobFn) : M unit :=
  match fn with
  | DADJob addr addressEndpoint => dadJob_fn self addr addressEndpoint
  | DefaultRouterInvalidationJob ip => invalidateDefaultRouter ip
  | OnLinkPrefixInvalidationJob prefix => invalidateOnLinkPrefix prefix
  | SLAACPrefixDeprecationJob prefix => slaacDeprecationJob_fn prefix
  | SLAACPrefixInvalidationJob prefix => slaacInvalidationJob_fn prefix
  | TempAddrDeprecationJob prefix a => tempDeprecationJob_fn prefix a
  | TempAddrInvalidationJob prefix a => tempInvalidationJob_fn prefix a
  | TempAddrRegenJob prefix a => tempRegenJob_fn prefix a
  | RtrSolicitJob => rtrSolicitJob_fn self
  end.

(** Modelled from the spec: the runtime of [tcpip.Job] is not under src/.
    Section 4.1: when a job fires, the runtime takes the endpoint lock,
    checks that the job has not been cancelled, then executes the body; a
    job is one-shot.  A job that is not scheduled, or not yet due, does not
    run. *)
Definition fireJob (j : JobRef) : M unit :=
  js ← gets jobs;
  match js !! j with
  | None => ret tt
  | Some b =>
      match job_deadline b with
      | None => ret tt
      | Some t =>
          now ← gets clock;
          if now <? t then ret tt
          else Job_Cancel j;; runJob j (job_fn b)
      end
  end.

(** ** Runs of the state machine *)

(** The operations the network layer and the scheduler perform on the NDP
    state of an endpoint: the functions of ndp.go the endpoint calls, the
    firing of a job and the passing of time. *)
Inductive Op : Type :=
| OpHandleRA (ip : Address) (ra : NDPRouterAdvert)
| OpFireJob (j : JobRef)
| OpCleanupState (hostOnly : bool)
| OpRemoveSLAACAddresses (keepLinkLocal : bool)
| OpStartDAD (addr : Address) (addressEndpoint : option AddressEndpoint)
| OpStopDAD (addr : Address)
| OpRegenerateSLAACAddr (prefix : Subnet)
| OpDoSLAAC (prefix : Subnet) (pl vl : Duration)
| OpStartSolicitingRouters
| OpStopSolicitingRouters
| OpAdvanceClock (d : Duration).

Definition exec (op : Op) : M unit :=
  match op with
  | OpHandleRA ip ra => handleRA ip ra
  | OpFireJob j => fireJob j
  | OpCleanupState hostOnly => cleanupState hostOnly
  | OpRemoveSLAACAddresses keepLinkLocal => removeSLAACAddresses keepLinkLocal
  | OpStartDAD addr ae => startDuplicateAddressDetection addr ae;; ret tt
  | OpStopDAD addr => stopDuplicateAddressDetection addr
  | OpRegenerateSLAACAddr prefix => regenerateSLAACAddr prefix
  | OpDoSLAAC prefix pl vl => doSLAAC prefix pl vl
  | OpStartSolicitingRouters => startSolicitingRouters
  | OpStopSolicitingRouters => stopSolicitingRouters
  | OpAdvanceClock d => modify (upd_clock (λ t, t + Z.max 0 d))
  end.

(** A state with no discovered router and no on-link prefix, and the states
    reached from one by operations that return. *)
Definition initial (s : ndpState) : Prop :=
  defaultRouters s = ∅ ∧ onLinkPrefixes s = ∅.

Inductive reachable : ndpState → Prop :=
| reachable_initial s : initial s → reachable s
| reachable_step s op s' :
    reachable s → exec op s = Some (tt, s') → reachable s'.

(** The firings of job [j] alone, with the clock advancing in between. *)
Inductive firings (j : JobRef) : ndpState → ndpState → Prop :=
| firings_done s : firings j s s
| firings_fire s s1 s' :
    fireJob j s = Some (tt, s1) → firings j s1 s' → firings j s s'
| firings_wait s d s' :
    0 ≤ d → firings j (upd_clock (λ t, t + d) s) s' → firings j s s'.

End Operations.

(** ** Specifications of operations *)

(** [m] relates every state it returns from to the state it returns. *)
Definition preserves {A : Type} (R : ndpState → ndpState → Prop) (m : M A)
    : Prop :=
  ∀ s a s', m s = Some (a, s') → R s s'.

(** Whenever [m] returns, what it returns satisfies [Q]. *)
Definition returns {A : Type} (Q : A → Prop) (m : M A) : Prop :=
  ∀ s a s', m s = Some (a, s') → Q a.

(** From every state that satisfies [P], [m] returns, in a state that
    satisfies [P], a value that satisfies [Q]. *)
Definition succeeds {A : Type} (P : ndpState → Prop) (Q : A → Prop) (m : M A)
    : Prop :=
  ∀ s, P s → ∃ a s', m s = Some (a, s') ∧ P s' ∧ Q a.

(** Address [a] is in the address table and DAD has not resolved on it. *)
Definition unresolved (a : AddressEndpoint) (s : ndpState) : Prop :=
  ∃ st, addressEndpoints s !! a = Some st ∧ ae_Kind st ≠ Permanent.

(** The calls of the two discovery callbacks in a trace. *)
Definition routerDiscoveries (t : list Event) : list Address :=
  omap (λ e, match e with
             | OnDefaultRouterDiscovered _ ip => Some ip
             | _ => None
             end) t.

Definition prefixDiscoveries (t : list Event) : list Subnet :=
  omap (λ e, match e with
             | OnOnLinkPrefixDiscovered _ p => Some p
             | _ => None
             end) t.

(** What an operation that takes no part in the discovery of routers and
    on-link prefixes leaves as it is; no operation moves the clock or changes
    the configuration. *)
Definition aside (s s' : ndpState) : Prop :=
  defaultRouters s' = defaultRouters s
  ∧ onLinkPrefixes s' = onLinkPrefixes s
  ∧ routerDiscoveries (events s') = routerDiscoveries (events s)
  ∧ prefixDiscoveries (events s') = prefixDiscoveries (events s)
  ∧ clock s' = clock s ∧ configs s' = configs s ∧ ep s' = ep s.

Definition sameRouters (s s' : ndpState) : Prop :=
  defaultRouters s' = defaultRouters s
  ∧ routerDiscoveries (events s') = routerDiscoveries (events s).

(** The caps on the two discovery tables. *)
Definition bounded (s : ndpState) : Prop :=
  (size (defaultRouters s) ≤ MaxDiscoveredDefaultRouters)%nat
  ∧ (size (onLinkPrefixes s) ≤ MaxDiscoveredOnLinkPrefixes)%nat.

Definition keepsBounded (s s' : ndpState) : Prop := bounded s → bounded s'.

Definition sameSLAAC (s s' : ndpState) : Prop :=
  slaacPrefixes s' = slaacPrefixes s.

Definition sameSLAACOnLink (s s' : ndpState) : Prop :=
  slaacPrefixes s' = slaacPrefixes s ∧ onLinkPrefixes s' = onLinkPrefixes s.

Definition sameSLAACDom (s s' : ndpState) : Prop :=
  dom (slaacPrefixes s') = dom (slaacPrefixes s).

(** The state [startDuplicateAddressDetection] returns when DAD is
    disabled. *)
Definition promoted (addr : Address) (a : AddressEndpoint) (st : AddressState)
    (s : ndpState) : ndpState :=
  let s1 := upd_addressEndpoints (insert a
              (mkAddressState (ae_PrefixLen st) Permanent (ae_ConfigType st)
                              (ae_Deprecated st) (ae_Refs st))) s in
  match NDPDisp (ep s) with
  | Some _ =>
      upd_events (λ t, t ++ [OnDuplicateAddressDetectionStatus (nic_ID (ep s))
                               addr true None]) s1
  | None => s1
  end.

(** The state [stopDuplicateAddressDetection] returns when an entry exists. *)
Definition stopped (addr : Address) (d : dadState) (s : ndpState) : ndpState :=
  let s1 := upd_dad (delete addr)
              (upd_jobs (alter (λ b, mkJob (job_fn b) (job_remaining b) None)
                               (dad_job d)) s) in
  match NDPDisp (ep s) with
  | Some _ =>
      upd_events (λ t, t ++ [OnDuplicateAddressDetectionStatus (nic_ID (ep s))
                               addr false None]) s1
  | None => s1
  end.

(** The state [deprecateSLAACAddress] returns for an address that was not
    deprecated. *)
Definition deprecatedNow (a : AddressEndpoint) (st : AddressState)
    (s : ndpState) : ndpState :=
  let s1 := upd_addressEndpoints (insert a
              (mkAddressState (ae_PrefixLen st) (ae_Kind st) (ae_ConfigType st)
                              true (ae_Refs st))) s in
  match NDPDisp (ep s) with
  | Some _ =>
      upd_events (λ t, t ++ [OnAutoGenAddressDeprecated (nic_ID (ep s))
                               (mkAddressWithPrefix a (ae_PrefixLen st))]) s1
  | None => s1
  end.

(** The number of Router Solicitations written so far. *)
Definition routerSolicitsSent (s : ndpState) : Z := st_RouterSolicit (stats s).

Section Specifications.
Context {hdr : Header}.

(** What one firing of the router solicitation job [j] does, [r] being the
    value of [remaining] and [dl] the deadline of the job before it: nothing
    if the job is not scheduled or not due; otherwise one Router Solicitation
    is handed to the NIC, and either it is written, [remaining] is
    decremented and the job is rescheduled only if [remaining] is not zero,
    or the write fails, [remaining] becomes zero and the job is left
    unscheduled. *)
Definition firingOutcome (j : JobRef) (r : Z) (dl : option Time)
    (s s' : ndpState) : Prop :=
  (s' = s ∧ match dl with Some t => clock s < t | None => True end)
  ∨ (∃ t pkt, dl = Some t ∧ t ≤ clock s
       ∧ nic_WritePacketToRemote (ep s) (wire s) pkt = None
       ∧ pkt_dst pkt = IPv6AllRoutersMulticastAddress
       ∧ pkt_hopLimit pkt = 255
       ∧ wire s' = wire s ++ [pkt]
       ∧ routerSolicitsSent s' = routerSolicitsSent s + 1
       ∧ jobs s' !! j
         = Some (mkJob RtrSolicitJob (r - 1)
                   (if r - 1 =? 0 then None
                    else Some (clock s + RtrSolicitationInterval (configs s)))))
  ∨ (∃ t pkt e, dl = Some t ∧ t ≤ clock s
       ∧ nic_WritePacketToRemote (ep s) (wire s) pkt = Some e
       ∧ wire s' = wire s
       ∧ routerSolicitsSent s' = routerSolicitsSent s
       ∧ jobs s' !! j = Some (mkJob RtrSolicitJob 0 None)).

End Specifications.

(** The state of a burst of Router Solicitations started in [s0]. *)
Definition inBurst (s0 : ndpState) (j : JobRef) (s : ndpState) : Prop :=
  rtrSolicitJob s = Some j ∧ configs s = configs s0
  ∧ ∃ r dl, jobs s !! j = Some (mkJob RtrSolicitJob r dl)
      ∧ 0 ≤ r ∧ (is_Some dl → 0 < r)
      ∧ routerSolicitsSent s0 ≤ routerSolicitsSent s
      ∧ routerSolicitsSent s + r
        ≤ routerSolicitsSent s0 + MaxRtrSolicitations (configs s0).

(** ** Concrete instances

    An instance of the parameters and a few states, on which the statements
    below are exercised. *)

Definition octet (n : nat) : string := String (ascii_of_nat n) EmptyString.

Fixpoint zeros (n : nat) : string :=
  match n with
  | O => EmptyString
  | S n => String zero (zeros n)
  end.

Definition demoHeader : Header := {|
  NDPInfiniteLifetime := 4294967295 * Second;
  IPv6Any := zeros 16;
  IPv6AllRoutersMulticastAddress := (octet 255 ++ octet 2 ++ zeros 13 ++ octet 2)%string;
  IPv6LinkLocalPrefix :=
    mkAddressWithPrefix (octet 254 ++ octet 128 ++ zeros 14)%string 64;
  IsV6UnicastAddress a :=
    (String.length a =? 16)%nat && negb (String.eqb a (zeros 16))
    && negb (String.eqb (substring 0 1 a) (octet 255));
  IsV6LinkLocalAddress a :=
    String.eqb (substring 0 2 a) (octet 254 ++ octet 128)%string;
  SolicitedNodeAddr a :=
    (octet 255 ++ octet 2 ++ zeros 9 ++ octet 1 ++ octet 255 ++ substring 13 3 a)%string;
  EthernetAddressFromMulticastIPv6Address a :=
    (octet 51 ++ octet 51 ++ substring 12 4 a)%string;
  IsValidUnicastEthernetAddress l := (String.length l =? 6)%nat;
  AppendOpaqueInterfaceIdentifier buf prefix name ctr key :=
    (buf ++ zeros 7 ++ octet (Z.to_nat ctr))%string;
  EthernetAdddressToModifiedEUI64IntoBuf l buf :=
    (substring 0 8 buf ++ substring 0 3 l ++ octet 255 ++ octet 254
     ++ substring 3 3 l)%string;
  GenerateTempIPv6SLAACAddr h stable :=
    ((h ++ octet 1)%string,
     mkAddressWithPrefix
       (substring 0 8 stable ++ zeros 7 ++ octet (S (String.length h)))%string 64);
  AddressWithPrefix_Subnet a :=
    mkSubnet (substring 0 8 (awp_Address a) ++ zeros 8)%string (awp_PrefixLen a)
|}.

Definition demoIteration : MapIteration := {|
  rangeOrder K V l := l;
  rangeOrder_perm K V l := Permutation_refl l
|}.

Definition demoDispatcher : NDPDispatcher :=
  mkNDPDispatcher (λ _ _, true) (λ _ _, true) (λ _ _, true).

Definition demoEndpoint : Endpoint :=
  mkEndpoint 1 "nic0"
    (octet 2 ++ octet 3 ++ octet 4 ++ octet 5 ++ octet 6 ++ octet 7)%string
    (λ _ _, None) (Some demoDispatcher) None "" false (λ _ _, None) (λ _, 0).

(** A freshly initialised state at instant [1000], with the given
    configuration. *)
Definition demoInit (c : NDPConfigurations) : ndpState :=
  mkNdpState demoEndpoint c ∅ ∅ None ∅ ∅ 0 "" 0 ∅ ∅ O ∅ O 1000 [] []
    (mkStats 0 0 0).

(** 2001:db8::/64, 2001:db8::1, fe80::/64, ff02::1 and the routers
    fe80::1:[n]. *)
Definition demoPrefix : Subnet :=
  mkSubnet (octet 32 ++ octet 1 ++ octet 13 ++ octet 184 ++ zeros 12)%string 64.
Definition demoAddr : Address :=
  (octet 32 ++ octet 1 ++ octet 13 ++ octet 184 ++ zeros 11 ++ octet 1)%string.
Definition demoLinkLocal : Subnet :=
  mkSubnet (octet 254 ++ octet 128 ++ zeros 14)%string 64.
Definition demoMulticast : Address :=
  (octet 255 ++ octet 2 ++ zeros 13 ++ octet 1)%string.
Definition demoRouter (n : nat) : Address :=
  (octet 254 ++ octet 128 ++ zeros 12 ++ octet 1 ++ octet n)%string.

(** The state an operation returns, [s] itself if it panics. *)
Definition after {A : Type} (m : M A) (s : ndpState) : ndpState :=
  match m s with
  | Some (_, s') => s'
  | None => s
  end.

Definition demoExec (op : Op) (s : ndpState) : ndpState :=
  after (exec (hdr:=demoHeader) (iter:=demoIteration) op) s.

(** A Router Advertisement with a Prefix Information option for
    [demoPrefix], both flags set. *)
Definition demoPI (vl pl : Duration) : NDPPrefixInformation :=
  mkNDPPrefixInformation demoPrefix true true vl pl.

Definition demoRA (vl pl : Duration) : NDPRouterAdvert :=
  mkNDPRouterAdvert false false (30 * Second)
    [NDPPrefixInformationOption (demoPI vl pl)].

(** [demoPrefix] advertised with a valid lifetime of three hours and a
    preferred lifetime of one hour: a stable address is generated and DAD
    starts on it (job 4). *)
Definition demoConfigured : ndpState :=
  demoExec (OpHandleRA (demoRouter 1) (demoRA (3 * Hour) Hour))
    (demoInit DefaultNDPConfigurations).

(** DAD resolves after one Neighbor Solicitation and a second: a temporary
    address is generated. *)
Definition demoResolved : ndpState :=
  demoExec (OpFireJob 4%nat)
    (demoExec (OpAdvanceClock Second)
       (demoExec (OpFireJob 4%nat) demoConfigured)).

(** The same advertisement again: the prefix is valid for three hours from
    now, and the link-local prefix is configured as well. *)
Definition demoRefreshed : ndpState :=
  demoExec (OpDoSLAAC demoLinkLocal (4294967295 * Second) (4294967295 * Second))
    (demoExec (OpHandleRA (demoRouter 1) (demoRA (3 * Hour) Hour)) demoResolved).

Definition demoPrefixState : slaacPrefixState :=
  default (mkSlaacPrefixState O O 0 0 None 0 O 0 0)
          (slaacPrefixes demoRefreshed !! demoPrefix).

(** Ten routers discovered. *)
Definition demoFull : ndpState :=
  foldl (λ s n, demoExec (OpHandleRA (demoRouter n)
                            (mkNDPRouterAdvert false false (30 * Second) [])) s)
        (demoInit DefaultNDPConfigurations) (seq 1 10).

(** A state in which [demoAddr] has just been added as a tentative address
    and DAD is disabled. *)
Definition demoTentative : ndpState :=
  upd_addressEndpoints
    (insert demoAddr (mkAddressState 64 PermanentTentative AddressConfigStatic false 1))
    (demoInit (mkNDPConfigurations 0 Second 3 (4 * Second) Second true true true
                 true 0 true (7 * 24 * Hour) (24 * Hour) (5 * Second))).

(** ** Further specifications *)

(** The ranges [validate] checks. *)
Definition inRange (c : NDPConfigurations) : Prop :=
  minimumRetransmitTimer ≤ RetransmitTimer c
  ∧ minimumRtrSolicitationInterval ≤ RtrSolicitationInterval c
  ∧ minimumMaxRtrSolicitationDelay ≤ MaxRtrSolicitationDelay c
  ∧ MinMaxTempAddrValidLifetime ≤ MaxTempAddrValidLifetime c
  ∧ MinMaxTempAddrPreferredLifetime ≤ MaxTempAddrPreferredLifetime c
  ∧ MaxTempAddrPreferredLifetime c ≤ MaxTempAddrValidLifetime c
  ∧ minRegenAdvanceDuration ≤ RegenAdvanceDuration c.

(** The fields [validate] does not look at. *)
Definition sameSwitches (c c' : NDPConfigurations) : Prop :=
  DupAddrDetectTransmits c' = DupAddrDetectTransmits c
  ∧ MaxRtrSolicitations c' = MaxRtrSolicitations c
  ∧ HandleRAs c' = HandleRAs c
  ∧ DiscoverDefaultRouters c' = DiscoverDefaultRouters c
  ∧ DiscoverOnLinkPrefixes c' = DiscoverOnLinkPrefixes c
  ∧ AutoGenGlobalAddresses c' = AutoGenGlobalAddresses c
  ∧ AutoGenAddressConflictRetries c' = AutoGenAddressConflictRetries c
  ∧ AutoGenTempGlobalAddresses c' = AutoGenTempGlobalAddresses c.

(** The Neighbor Solicitation [sendDADPacket] builds for [addr]. *)
Definition dadProbe {hdr : Header} (addr : Address) : Packet :=
  mkPacket IPv6Any (SolicitedNodeAddr addr) 255
    (EthernetAddressFromMulticastIPv6Address (SolicitedNodeAddr addr))
    (NeighborSolicit addr).

(** The call of a dispatcher method, if a dispatcher is registered. *)
Definition notified (s : ndpState) (e : Event) : list Event :=
  match NDPDisp (ep s) with
  | Some _ => [e]
  | None => []
  end.

(** The DHCPv6 configuration a Router Advertisement signals: the Managed
    flag takes precedence over the Other flag. *)
Definition signalled (ra : NDPRouterAdvert) : DHCPv6ConfigurationFromNDPRA :=
  if ra_ManagedAddrConfFlag ra then DHCPv6ManagedAddress
  else if ra_OtherConfFlag ra then DHCPv6OtherConfigurations
  else DHCPv6NoConfiguration.

(** The state [d] nanoseconds later. *)
Definition later (d : Duration) (s : ndpState) : ndpState :=
  upd_clock (λ t, t + d) s.

(** The Router Solicitation the router solicitation job builds, from
    source address [src] and with the options [opt]. *)
Definition routerSolicit {hdr : Header} (src : Address)
    (opt : option LinkAddress) : Packet :=
  mkPacket src IPv6AllRoutersMulticastAddress 255
    (EthernetAddressFromMulticastIPv6Address IPv6AllRoutersMulticastAddress)
    (RouterSolicit opt).

(** The delay [startSolicitingRouters] draws before the first
    solicitation. *)
Definition firstSolicitationDelay (s : ndpState) : Duration :=
  if MaxRtrSolicitationDelay (configs s) >? 0
  then rand_Int63n (ep s) (MaxRtrSolicitationDelay (configs s))
  else 0.

(** The remaining lifetime [rl] that [refreshSLAACPrefixLifetimes] computes
    for a prefix at instant [now]. *)
Definition remainingLifetime {hdr : Header} (st : slaacPrefixState)
    (now : Time) : Duration :=
  if validUntil st =? 0 then NDPInfiniteLifetime else validUntil st - now.

(** No SLAAC address can be added in [s]: there is no dispatcher, or the
    integrator turns down every address it is offered. *)
Definition declining (s : ndpState) : Prop :=
  ∀ d, NDPDisp (ep s) = Some d → ∀ t a, acceptAutoGenAddress d t a = false.

Definition sameTempAddrMaps (s s' : ndpState) : Prop :=
  tempAddrMaps s' = tempAddrMaps s ∧ clock s' = clock s
  ∧ configs s' = configs s.

(** ** Further concrete instances *)

(** A NIC that refuses every packet, and a fresh state over a given
    endpoint. *)
Definition demoBrokenEndpoint : Endpoint :=
  mkEndpoint 1 "nic0"
    (octet 2 ++ octet 3 ++ octet 4 ++ octet 5 ++ octet 6 ++ octet 7)%string
    (λ _ _, Some (ErrLink 5)) (Some demoDispatcher) None "" false
    (λ _ _, None) (λ _, 0).

Definition demoState (e : Endpoint) (c : NDPConfigurations) : ndpState :=
  mkNdpState e c ∅ ∅ None ∅ ∅ 0 "" 0 ∅ ∅ O ∅ O 1000 [] [] (mkStats 0 0 0).

(** [demoAddr] added as a tentative address, with two DAD transmits
    configured, and the state once DAD has started on it (job 0). *)
Definition demoAdded (e : Endpoint) : ndpState :=
  upd_addressEndpoints
    (insert demoAddr (mkAddressState 64 PermanentTentative AddressConfigStatic false 1))
    (demoState e (mkNDPConfigurations 2 Second 3 (4 * Second) Second true true
                    true true 0 true (7 * 24 * Hour) (24 * Hour) (5 * Second))).

Definition demoProbing (e : Endpoint) : ndpState :=
  after (startDuplicateAddressDetection (hdr:=demoHeader) demoAddr (Some demoAddr))
        (demoAdded e).

(** An integrator that refuses everything. *)
Definition demoVetoEndpoint : Endpoint :=
  mkEndpoint 1 "nic0"
    (octet 2 ++ octet 3 ++ octet 4 ++ octet 5 ++ octet 6 ++ octet 7)%string
    (λ _ _, None)
    (Some (mkNDPDispatcher (λ _ _, false) (λ _ _, false) (λ _ _, false)))
    None "" false (λ _ _, None) (λ _, 0).

(** A Router Advertisement without options. *)
Definition demoBareRA (rl : Duration) : NDPRouterAdvert :=
  mkNDPRouterAdvert false false rl [].

(** A burst of Router Solicitations just started (job 0). *)
Definition demoSoliciting : ndpState :=
  after startSolicitingRouters (demoInit DefaultNDPConfigurations).

(** The stable address of [demoPrefix] in [demoRefreshed], the object behind
    it and the deprecation job of the prefix. *)
Definition demoStable : Address :=
  default EmptyString (stableAddr_addressEndpoint demoPrefixState).

Definition demoStableState : AddressState :=
  default (mkAddressState 0 Temporary AddressConfigStatic false 0)
          (addressEndpoints demoRefreshed !! demoStable).

Definition demoDeprecationJob : Job :=
  default (mkJob RtrSolicitJob 0 None)
          (jobs demoRefreshed !! deprecationJob demoPrefixState).

(** [demoConfigured] after a DAD conflict on the stable address of
    [demoPrefix]: the prefix has no stable address any more. *)
Definition demoConflicted : ndpState :=
  upd_slaacPrefixes (alter clear_stableAddr demoPrefix) demoConfigured.

Definition demoConflictedState : slaacPrefixState :=
  default (mkSlaacPrefixState O O 0 0 None 0 O 0 0)
          (slaacPrefixes demoConflicted !! demoPrefix).

(** * Properties *)

(** ** The monad *)

Section Monad.

Lemma bind_Some {A B : Type} (m : M A) (k : A → M B) s b s' :
  bind m k s = Some (b, s') ↔ ∃ a s1, m s = Some (a, s1) ∧ k a s1 = Some (b, s').
Proof.
  unfold bind. split.
  - destruct (m s) as [[a s1]|]; [eauto | discriminate].
  - intros (a & s1 & -> & Hk). exact Hk.
Qed.

Lemma ret_Some {A : Type} (a b : A) s s' :
  ret a s = Some (b, s') ↔ b = a ∧ s' = s.
Proof. unfold ret. split; [intros [= <- <-] | intros [-> ->]]; auto. Qed.

Lemma gets_Some {A : Type} (f : ndpState → A) b s s' :
  gets f s = Some (b, s') ↔ b = f s ∧ s' = s.
Proof. unfold gets. split; [intros [= <- <-] | intros [-> ->]]; auto. Qed.

Lemma modify_Some (f : ndpState → ndpState) u s s' :
  modify f s = Some (u, s') ↔ s' = f s.
Proof. unfold modify. destruct u. split; [intros [= <-] | intros ->]; auto. Qed.

Lemma returned {A : Type} (a b : A) (s s' : ndpState) :
  Some (a, s) = Some (b, s') → b = a ∧ s' = s.
Proof. intros [= <- <-]. auto. Qed.

(** Equations that run an operation on a state, one step at a time. *)
Lemma run_bind_bind {A B C : Type} (m : M A) (k : A → M B) (k' : B → M C) s :
  bind (bind m k) k' s = bind m (λ a, bind (k a) k') s.
Proof. unfold bind. destruct (m s) as [[a s1]|]; reflexivity. Qed.

Lemma run_bind_ret {A B : Type} (a : A) (k : A → M B) s :
  bind (ret a) k s = k a s.
Proof. reflexivity. Qed.

Lemma run_bind_gets {A B : Type} (f : ndpState → A) (k : A → M B) s :
  bind (gets f) k s = k (f s) s.
Proof. reflexivity. Qed.

Lemma run_bind_modify {B : Type} (f : ndpState → ndpState) (k : unit → M B) s :
  bind (modify f) k s = k tt (f s).
Proof. reflexivity. Qed.

Lemma run_bind_panic {A B : Type} (k : A → M B) s :
  bind (@panic A) k s = None.
Proof. reflexivity. Qed.

Lemma run_ret {A : Type} (a : A) s : ret a s = Some (a, s).
Proof. reflexivity. Qed.

Lemma run_gets {A : Type} (f : ndpState → A) s : gets f s = Some (f s, s).
Proof. reflexivity. Qed.

Lemma run_modify (f : ndpState → ndpState) s : modify f s = Some (tt, f s).
Proof. reflexivity. Qed.

(** Rules for [preserves] and [returns]. *)
Lemma preserves_ret {A : Type} (R : ndpState → ndpState → Prop) `{!Reflexive R}
    (a : A) : preserves R (ret a).
Proof. intros s b s' Hrun. apply ret_Some in Hrun as [_ ->]. reflexivity. Qed.

Lemma preserves_panic {A : Type} (R : ndpState → ndpState → Prop) :
  preserves R (@panic A).
Proof. intros s b s' [=]. Qed.

Lemma preserves_gets {A : Type} (R : ndpState → ndpState → Prop) `{!Reflexive R}
    (f : ndpState → A) : preserves R (gets f).
Proof. intros s b s' Hrun. apply gets_Some in Hrun as [_ ->]. reflexivity. Qed.

Lemma preserves_modify (R : ndpState → ndpState → Prop) (f : ndpState → ndpState) :
  (∀ s, R s (f s)) → preserves R (modify f).
Proof. intros Hf s b s' Hrun. apply modify_Some in Hrun as ->. apply Hf. Qed.

Lemma preserves_bind {A B : Type} (R : ndpState → ndpState → Prop)
    `{!Transitive R} (m : M A) (k : A → M B) :
  preserves R m → (∀ a, preserves R (k a)) → preserves R (bind m k).
Proof.
  intros Hm Hk s b s' Hrun. apply bind_Some in Hrun as (a & s1 & H1 & H2).
  transitivity s1; [eapply Hm | eapply Hk]; eassumption.
Qed.

Lemma preserves_foldM {A B : Type} (R : ndpState → ndpState → Prop)
    `{!PreOrder R} (body : B → A → M B) (l : list A) :
  (∀ acc x, preserves R (body acc x)) → ∀ acc, preserves R (foldM body acc l).
Proof.
  intros Hbody. induction l as [|x l IH]; intros acc; cbn [foldM].
  - apply preserves_ret; apply _.
  - apply preserves_bind; [apply _ | apply Hbody | intros acc'; apply IH].
Qed.

Lemma preserves_weaken {A : Type} (R R' : ndpState → ndpState → Prop) (m : M A) :
  (∀ s s', R s s' → R' s s') → preserves R m → preserves R' m.
Proof. intros Hsub Hm s a s' Hrun. apply Hsub. eapply Hm. exact Hrun. Qed.

Lemma returns_ret {A : Type} (Q : A → Prop) (a : A) : Q a → returns Q (ret a).
Proof. intros Ha s b s' [-> _]%ret_Some. exact Ha. Qed.

Lemma returns_panic {A : Type} (Q : A → Prop) : returns Q (@panic A).
Proof. intros s b s' [=]. Qed.

Lemma returns_bind {A B : Type} (Q : B → Prop) (m : M A) (k : A → M B) :
  (∀ a, returns Q (k a)) → returns Q (bind m k).
Proof.
  intros Hk s b s' Hrun. apply bind_Some in Hrun as (a & s1 & _ & H2).
  eapply Hk. exact H2.
Qed.

Lemma returns_bind_with {A B : Type} (P : A → Prop) (Q : B → Prop) (m : M A)
    (k : A → M B) :
  returns P m → (∀ a, P a → returns Q (k a)) → returns Q (bind m k).
Proof.
  intros Hm Hk s b s' Hrun. apply bind_Some in Hrun as (a & s1 & H1 & H2).
  eapply Hk; [eapply Hm; exact H1 | exact H2].
Qed.

Lemma returns_conseq {A : Type} (P Q : A → Prop) (m : M A) :
  returns P m → (∀ a, P a → Q a) → returns Q m.
Proof. intros Hm HPQ s a s' Hrun. apply HPQ. eapply Hm. exact Hrun. Qed.

(** Rules for [succeeds]. *)
Lemma succeeds_bind {A B : Type} (P : ndpState → Prop) (Q : A → Prop)
    (R : B → Prop) (m : M A) (k : A → M B) :
  succeeds P Q m → (∀ a, Q a → succeeds P R (k a)) → succeeds P R (bind m k).
Proof.
  intros Hm Hk s Hs. destruct (Hm s Hs) as (a & s1 & Hrun & Hs1 & Ha).
  destruct (Hk a Ha s1 Hs1) as (b & s' & Hrun' & Hs' & Hb).
  exists b, s'. split; [| auto]. apply bind_Some. eauto.
Qed.

Lemma succeeds_ret {A : Type} (P : ndpState → Prop) (Q : A → Prop) (a : A) :
  Q a → succeeds P Q (ret a).
Proof. intros Ha s Hs. exists a, s. auto. Qed.

Lemma succeeds_gets {A : Type} (P : ndpState → Prop) (Q : A → Prop)
    (f : ndpState → A) :
  (∀ s, P s → Q (f s)) → succeeds P Q (gets f).
Proof. intros Hf s Hs. exists (f s), s. auto. Qed.

Lemma succeeds_modify (P : ndpState → Prop) (Q : unit → Prop)
    (f : ndpState → ndpState) :
  (∀ s, P s → P (f s)) → Q tt → succeeds P Q (modify f).
Proof. intros Hf Hq s Hs. exists tt, (f s). auto. Qed.

Lemma succeeds_conseq {A : Type} (P : ndpState → Prop) (Q Q' : A → Prop)
    (m : M A) :
  succeeds P Q m → (∀ a, Q a → Q' a) → succeeds P Q' m.
Proof.
  intros Hm Hq s Hs. destruct (Hm s Hs) as (a & s' & Hrun & Hs' & Ha). eauto 6.
Qed.

Lemma routerDiscoveries_snoc t e :
  routerDiscoveries (t ++ [e])
  = routerDiscoveries t ++ match e with
                           | OnDefaultRouterDiscovered _ ip => [ip]
                           | _ => []
                           end.
Proof. unfold routerDiscoveries. rewrite omap_app. destruct e; reflexivity. Qed.

Lemma prefixDiscoveries_snoc t e :
  prefixDiscoveries (t ++ [e])
  = prefixDiscoveries t ++ match e with
                           | OnOnLinkPrefixDiscovered _ p => [p]
                           | _ => []
                           end.
Proof. unfold prefixDiscoveries. rewrite omap_app. destruct e; reflexivity. Qed.

Lemma size_delete_le `{Countable K} {V : Type} (k : K) (m : gmap K V) :
  (size (delete k m) ≤ size m)%nat.
Proof. apply map_subseteq_size, delete_subseteq. Qed.

Lemma size_insert_same `{Countable K} {V : Type} (k : K) (v : V) (m : gmap K V) :
  is_Some (m !! k) → size (<[k:=v]> m) = size m.
Proof. intros [w Hk]. apply map_size_insert_Some. eauto. Qed.

End Monad.

Global Instance aside_preorder : PreOrder aside.
Proof.
  split.
  - intros s. unfold aside. auto 10.
  - intros s1 s2 s3 (?&?&?&?&?&?&?) (?&?&?&?&?&?&?). unfold aside.
    repeat split; congruence.
Qed.

Global Instance keepsBounded_preorder : PreOrder keepsBounded.
Proof. split; unfold keepsBounded; [intros s | intros s1 s2 s3]; auto. Qed.

Global Instance sameRouters_preorder : PreOrder sameRouters.
Proof.
  split; unfold sameRouters; [intros s; auto | intros s1 s2 s3 [??] [??]].
  split; congruence.
Qed.

Global Instance sameSLAAC_preorder : PreOrder sameSLAAC.
Proof. split; unfold sameSLAAC; [intros s | intros s1 s2 s3]; congruence. Qed.

Global Instance sameSLAACOnLink_preorder : PreOrder sameSLAACOnLink.
Proof.
  split; unfold sameSLAACOnLink; [intros s; auto | intros s1 s2 s3 [??] [??]].
  split; congruence.
Qed.

Global Instance sameSLAACDom_preorder : PreOrder sameSLAACDom.
Proof. split; unfold sameSLAACDom; [intros s | intros s1 s2 s3]; congruence. Qed.

Global Arguments bind {A B} m f s : simpl never.
Global Arguments ret {A} a s : simpl never.
Global Arguments gets {A} f s : simpl never.
Global Arguments modify f s : simpl never.
Global Arguments panic {A} s : simpl never.

Create Rewrite HintDb run.
Global Hint Rewrite @run_bind_bind @run_bind_ret @run_bind_gets @run_bind_modify
  @run_bind_panic @run_ret @run_gets @run_modify : run.

Create HintDb frame discriminated.

(** Run the operation at the head of the goal as far as it computes. *)
Ltac run := repeat (progress (autorewrite with run; cbn)).

(** Settle the [bool_decide] tests whose outcome is known. *)
Ltac decided :=
  repeat first
    [ rewrite bool_decide_eq_true_2 by (reflexivity || assumption || congruence)
    | rewrite bool_decide_eq_false_2 by (discriminate || assumption || congruence) ];
  run.

(** Split on the test the operation at the head of the goal is stuck on. *)
Ltac run_case :=
  match goal with
  | |- context [bind (match ?x with _ => _ end) _ _] => destruct x eqn:?
  | |- context [(match ?x with _ => _ end) _ = _] => destruct x eqn:?
  end.

(** The side condition of a state update. *)
Ltac frame_side :=
  unfold aside, keepsBounded, sameRouters, bounded, sameSLAAC, sameSLAACOnLink,
    sameSLAACDom; cbn;
  rewrite ?routerDiscoveries_snoc, ?prefixDiscoveries_snoc, ?app_nil_r;
  auto 10.

(** One step of a proof of [preserves R m], by the structure of [m]. *)
Ltac frame_step :=
  cbv beta zeta;
  lazymatch goal with
  | |- preserves _ (bind _ _) => apply preserves_bind; [apply _ | | intro]
  | |- preserves _ (ret _) => apply preserves_ret; apply _
  | |- preserves _ panic => apply preserves_panic
  | |- preserves _ (gets _) => apply preserves_gets; apply _
  | |- preserves _ (modify _) => apply preserves_modify; intro; frame_side
  | |- preserves _ (foldM _ _ _) => apply preserves_foldM; [apply _ | intros]
  | |- preserves _ (forEach _ _) => unfold forEach
  | |- preserves _ (notify _) => unfold notify
  | |- preserves _ (emit _) => unfold emit
  | |- preserves _ (ask _ _ _) => unfold ask
  | |- preserves _ (onAddressEndpoint _ _) => unfold onAddressEndpoint
  | |- preserves _ (match ?x with _ => _ end) => destruct x
  | |- preserves _ _ =>
      first [ solve [eauto with frame]
            | progress unfold NewJob, Job_Schedule, Job_Cancel, getRemaining,
                setRemaining, GetKind, SetKind, Deprecated, SetDeprecated,
                ConfigType, GetAddressWithPrefix, DecRef, getTempAddrs,
                updTempAddrs, makeTempAddrs, hasPermanentAddressRLocked ]
  end.

Ltac frame := repeat frame_step.

(** One step of a proof of [returns Q m]. *)
Ltac result_step :=
  cbv beta zeta;
  lazymatch goal with
  | |- returns _ (bind _ _) => apply returns_bind; intro
  | |- returns _ (ret _) => apply returns_ret
  | |- returns _ panic => apply returns_panic
  | |- returns _ (match ?x with _ => _ end) => destruct x
  end.

Section Properties.
Context {hdr : Header} {iter : MapIteration}.

(** ** What the operations on addresses and SLAAC prefixes leave aside *)

Lemma startDuplicateAddressDetection_aside addr ae :
  preserves aside (startDuplicateAddressDetection addr ae).
Proof. unfold startDuplicateAddressDetection. frame. Qed.

Lemma stopDuplicateAddressDetection_aside addr :
  preserves aside (stopDuplicateAddressDetection addr).
Proof. unfold stopDuplicateAddressDetection. frame. Qed.

Lemma sendDADPacket_aside addr ae : preserves aside (sendDADPacket addr ae).
Proof. unfold sendDADPacket. frame. Qed.

Lemma deprecateSLAACAddress_aside ae : preserves aside (deprecateSLAACAddress ae).
Proof. unfold deprecateSLAACAddress. frame. Qed.

#[local] Hint Resolve startDuplicateAddressDetection_aside
  stopDuplicateAddressDetection_aside sendDADPacket_aside
  deprecateSLAACAddress_aside : frame.

Lemma cleanupTempSLAACAddrResources_aside r a t :
  preserves aside (cleanupTempSLAACAddrResources r a t).
Proof. unfold cleanupTempSLAACAddrResources. frame. Qed.

#[local] Hint Resolve cleanupTempSLAACAddrResources_aside : frame.

Lemma cleanupTempSLAACAddrResourcesAndNotify_aside a b :
  preserves aside (cleanupTempSLAACAddrResourcesAndNotify a b).
Proof. unfold cleanupTempSLAACAddrResourcesAndNotify. frame. Qed.

Lemma cleanupSLAACAddrResourcesAndNotify_with_aside f a b :
  (∀ p st, preserves aside (f p st)) →
  preserves aside (cleanupSLAACAddrResourcesAndNotify_with f a b).
Proof. intros Hf. unfold cleanupSLAACAddrResourcesAndNotify_with. frame. Qed.

#[local] Hint Resolve cleanupTempSLAACAddrResourcesAndNotify_aside
  cleanupSLAACAddrResourcesAndNotify_with_aside : frame.

Lemma removePermanentEndpointLocked_aside ae :
  preserves aside (removePermanentEndpointLocked ae).
Proof.
  unfold removePermanentEndpointLocked. frame.
  apply cleanupSLAACAddrResourcesAndNotify_with_aside. intros; frame.
Qed.

#[local] Hint Resolve removePermanentEndpointLocked_aside : frame.

Lemma invalidateTempSLAACAddr_aside r a t :
  preserves aside (invalidateTempSLAACAddr r a t).
Proof. unfold invalidateTempSLAACAddr. frame. Qed.

#[local] Hint Resolve invalidateTempSLAACAddr_aside : frame.

Lemma rangeTempAddrs_preserves {B : Type} (R : ndpState → ndpState → Prop)
    `{!PreOrder R} r (body : B → Address → tempSLAACAddrState → M B) acc :
  (∀ r, preserves R (getTempAddrs r)) →
  (∀ acc k v, preserves R (body acc k v)) →
  preserves R (rangeTempAddrs r body acc).
Proof.
  intros Hget Hbody. unfold rangeTempAddrs.
  apply preserves_bind; [apply _ | apply Hget | intros m].
  apply preserves_foldM; [apply _ |]. intros acc' k.
  apply preserves_bind; [apply _ | apply Hget | intros cur].
  destruct (cur !! k); [apply Hbody | apply preserves_ret; apply _].
Qed.

Lemma cleanupSLAACPrefixResources_aside p st :
  preserves aside (cleanupSLAACPrefixResources p st).
Proof.
  unfold cleanupSLAACPrefixResources. frame.
  apply rangeTempAddrs_preserves; [apply _ | intros; frame | intros; frame].
Qed.

#[local] Hint Resolve cleanupSLAACPrefixResources_aside : frame.

Lemma invalidateSLAACPrefix_aside p st :
  preserves aside (invalidateSLAACPrefix p st).
Proof. unfold invalidateSLAACPrefix. frame. Qed.

#[local] Hint Resolve invalidateSLAACPrefix_aside : frame.

Lemma addAndAcquirePermanentAddressLocked_aside a c d :
  preserves aside (addAndAcquirePermanentAddressLocked a c d).
Proof. unfold addAndAcquirePermanentAddressLocked. frame. Qed.

#[local] Hint Resolve addAndAcquirePermanentAddressLocked_aside : frame.

Lemma addAndAcquireSLAACAddr_aside a c d :
  preserves aside (addAndAcquireSLAACAddr a c d).
Proof. unfold addAndAcquireSLAACAddr. frame. Qed.

#[local] Hint Resolve addAndAcquireSLAACAddr_aside : frame.

Lemma generateSLAACAddr_loop_aside n p st b :
  preserves aside (generateSLAACAddr_loop n p st b).
Proof.
  revert st b. induction n as [|n IH]; intros st b; cbn [generateSLAACAddr_loop];
    frame.
Qed.

#[local] Hint Resolve generateSLAACAddr_loop_aside : frame.

Lemma generateSLAACAddr_aside p st : preserves aside (generateSLAACAddr p st).
Proof. unfold generateSLAACAddr. frame. Qed.

#[local] Hint Resolve generateSLAACAddr_aside : frame.

Lemma regenerateSLAACAddr_aside p : preserves aside (regenerateSLAACAddr p).
Proof. unfold regenerateSLAACAddr. frame. Qed.

Lemma generateTempSLAACAddr_loop_aside n a :
  preserves aside (generateTempSLAACAddr_loop n a).
Proof. induction n as [|n IH]; cbn [generateTempSLAACAddr_loop]; frame. Qed.

#[local] Hint Resolve regenerateSLAACAddr_aside generateTempSLAACAddr_loop_aside : frame.

Lemma generateTempSLAACAddr_aside p st b :
  preserves aside (generateTempSLAACAddr p st b).
Proof. unfold generateTempSLAACAddr. frame. Qed.

#[local] Hint Resolve generateTempSLAACAddr_aside : frame.

Lemma regenerateTempSLAACAddr_aside p b :
  preserves aside (regenerateTempSLAACAddr p b).
Proof. unfold regenerateTempSLAACAddr. frame. Qed.

Lemma refreshTempAddr_aside st now acc a t :
  preserves aside (refreshTempAddr st now acc a t).
Proof. unfold refreshTempAddr. frame. Qed.

Lemma refreshPreferredLifetime_aside st pl now :
  preserves aside (refreshPreferredLifetime st pl now).
Proof. unfold refreshPreferredLifetime. frame. Qed.

Lemma refreshValidLifetime_aside st vl now :
  preserves aside (refreshValidLifetime st vl now).
Proof. unfold refreshValidLifetime. frame. Qed.

#[local] Hint Resolve regenerateTempSLAACAddr_aside refreshTempAddr_aside
  refreshPreferredLifetime_aside refreshValidLifetime_aside : frame.

Lemma refreshTempAddrs_aside p st now :
  preserves aside (refreshTempAddrs p st now).
Proof.
  unfold refreshTempAddrs. frame.
  all: apply rangeTempAddrs_preserves; [apply _ | intros; frame | intros; frame].
Qed.

#[local] Hint Resolve refreshTempAddrs_aside : frame.

Lemma refreshSLAACPrefixLifetimes_aside p st pl vl :
  preserves aside (refreshSLAACPrefixLifetimes p st pl vl).
Proof. unfold refreshSLAACPrefixLifetimes. frame. Qed.

Lemma doSLAAC_aside p pl vl : preserves aside (doSLAAC p pl vl).
Proof. unfold doSLAAC. frame. Qed.

#[local] Hint Resolve refreshSLAACPrefixLifetimes_aside doSLAAC_aside : frame.

Lemma handleAutonomousPrefixInformation_aside pi :
  preserves aside (handleAutonomousPrefixInformation pi).
Proof. unfold handleAutonomousPrefixInformation. frame. Qed.

Lemma handleRA_dhcpv6_aside ra : preserves aside (handleRA_dhcpv6 ra).
Proof. unfold handleRA_dhcpv6. frame. Qed.

Lemma removeSLAACAddresses_aside b : preserves aside (removeSLAACAddresses b).
Proof. unfold removeSLAACAddresses. frame. Qed.

Lemma startSolicitingRouters_aside : preserves aside startSolicitingRouters.
Proof. unfold startSolicitingRouters. frame. Qed.

Lemma stopSolicitingRouters_aside : preserves aside stopSolicitingRouters.
Proof. unfold stopSolicitingRouters. frame. Qed.

Lemma acquireOutgoingPrimaryAddressRLocked_aside a :
  preserves aside (acquireOutgoingPrimaryAddressRLocked a).
Proof. unfold acquireOutgoingPrimaryAddressRLocked. frame. Qed.

#[local] Hint Resolve handleAutonomousPrefixInformation_aside handleRA_dhcpv6_aside
  removeSLAACAddresses_aside startSolicitingRouters_aside
  stopSolicitingRouters_aside acquireOutgoingPrimaryAddressRLocked_aside : frame.

Lemma rtrSolicitJob_fn_aside j : preserves aside (rtrSolicitJob_fn j).
Proof. unfold rtrSolicitJob_fn. frame. Qed.

Lemma dadJob_fn_aside j a ae : preserves aside (dadJob_fn j a ae).
Proof. unfold dadJob_fn. frame. Qed.

Lemma slaacDeprecationJob_fn_aside p : preserves aside (slaacDeprecationJob_fn p).
Proof. unfold slaacDeprecationJob_fn. frame. Qed.

Lemma slaacInvalidationJob_fn_aside p : preserves aside (slaacInvalidationJob_fn p).
Proof. unfold slaacInvalidationJob_fn. frame. Qed.

Lemma withTempAddr_aside {A : Type} p a
    (f : slaacPrefixState → tempSLAACAddrState → M A) :
  (∀ st t, preserves aside (f st t)) → preserves aside (withTempAddr p a f).
Proof. intros Hf. unfold withTempAddr. frame. Qed.

Lemma tempDeprecationJob_fn_aside p a : preserves aside (tempDeprecationJob_fn p a).
Proof. apply withTempAddr_aside. intros; frame. Qed.

Lemma tempInvalidationJob_fn_aside p a :
  preserves aside (tempInvalidationJob_fn p a).
Proof. apply withTempAddr_aside. intros; frame. Qed.

Lemma tempRegenJob_fn_aside p a : preserves aside (tempRegenJob_fn p a).
Proof. apply withTempAddr_aside. intros; frame. Qed.

#[local] Hint Resolve rtrSolicitJob_fn_aside dadJob_fn_aside slaacDeprecationJob_fn_aside
  slaacInvalidationJob_fn_aside tempDeprecationJob_fn_aside
  tempInvalidationJob_fn_aside tempRegenJob_fn_aside : frame.


(** ** Configuration *)

(** C3: [validate] does not put the defaults in place of out-of-range
    temporary-address lifetimes.  A maximum valid lifetime below
    [MinMaxTempAddrValidLifetime] becomes that minimum (2 hours, not the
    default of 7 days); a maximum preferred lifetime out of range becomes
    [MinMaxTempAddrPreferredLifetime] (1 h 10 min 5 s, not the default of 1
    day); a negative [RegenAdvanceDuration] becomes 0 (not the default of 5
    seconds).  The three timers validated first do get their defaults. *)
Theorem validate_temp_lifetimes_not_defaulted :
  let c := validate (with_RegenAdvanceDuration (-1)
                       (with_MaxTempAddrPreferredLifetime 0
                          (with_MaxTempAddrValidLifetime Hour
                             (with_RetransmitTimer 0 DefaultNDPConfigurations)))) in
  RetransmitTimer c = defaultRetransmitTimer
  ∧ MaxTempAddrValidLifetime c = 2 * Hour
  ∧ MaxTempAddrValidLifetime c ≠ defaultMaxTempAddrValidLifetime
  ∧ MaxTempAddrPreferredLifetime c = Hour + 10 * Minute + 5 * Second
  ∧ MaxTempAddrPreferredLifetime c ≠ defaultMaxTempAddrPreferredLifetime
  ∧ RegenAdvanceDuration c = 0
  ∧ RegenAdvanceDuration c ≠ defaultRegenAdvanceDuration.
Proof. vm_compute. repeat split; congruence. Qed.

(** ** Duplicate Address Detection *)

(** C6: on an address that is not a unicast IPv6 address,
    [startDuplicateAddressDetection] returns [ErrAddressFamilyNotSupported]
    and the state it returns is the state it was called in: no DAD entry, no
    job, no dispatcher call, no change of the address kind. *)
Theorem startDAD_not_unicast (addr : Address) (ae : option AddressEndpoint)
    (s : ndpState) :
  IsV6UnicastAddress addr = false →
  startDuplicateAddressDetection addr ae s
  = Some (Some ErrAddressFamilyNotSupported, s).
Proof.
  intros Hu. unfold startDuplicateAddressDetection. rewrite Hu. reflexivity.
Qed.

(** C5: with [DupAddrDetectTransmits = 0], starting DAD on a tentative
    unicast address that is not in DAD returns no error; the address is
    [Permanent] afterwards, the dispatcher (if one is registered) has been
    called exactly once more, with [resolved = true] and no error, and the DAD
    table and the jobs are as they were: no entry created, no job created or
    scheduled. *)
Theorem startDAD_no_transmits (addr : Address) (a : AddressEndpoint)
    (st : AddressState) (s : ndpState) :
  IsV6UnicastAddress addr = true →
  addressEndpoints s !! a = Some st →
  ae_Kind st = PermanentTentative →
  dad s !! addr = None →
  DupAddrDetectTransmits (configs s) = 0 →
  ∃ s', startDuplicateAddressDetection addr (Some a) s = Some (None, s')
    ∧ (ae_Kind <$> addressEndpoints s' !! a) = Some Permanent
    ∧ events s' = events s ++
        match NDPDisp (ep s) with
        | Some _ => [OnDuplicateAddressDetectionStatus (nic_ID (ep s)) addr true None]
        | None => []
        end
    ∧ dad s' = dad s ∧ jobs s' = jobs s ∧ nextJob s' = nextJob s
    ∧ s' = promoted addr a st s.
Proof.
  intros Hu Ha Hk Hd Hn. exists (promoted addr a st s).
  assert (Hrun : startDuplicateAddressDetection addr (Some a) s
                 = Some (None, promoted addr a st s)).
  { unfold startDuplicateAddressDetection, promoted, GetKind, SetKind,
      onAddressEndpoint, notify, emit.
    rewrite Hu. run. rewrite Ha. run. rewrite Hk. decided. rewrite Hd. run.
    rewrite Hn. run. rewrite Ha. run.
    destruct (NDPDisp (ep s)); run; reflexivity. }
  split; [exact Hrun |]. unfold promoted.
  destruct (NDPDisp (ep s)); cbn; rewrite lookup_insert_eq, ?app_nil_r; auto 10.
Qed.

(** C9: [stopDuplicateAddressDetection] on an address in DAD cancels the job
    of the entry, removes the entry and calls the dispatcher (if one is
    registered) once, with [resolved = false] and no error; on an address
    that is not in DAD it returns the state unchanged. *)
Theorem stopDAD_spec (addr : Address) (s : ndpState) :
  match dad s !! addr with
  | Some d =>
      ∃ s', stopDuplicateAddressDetection addr s = Some (tt, s')
        ∧ scheduledAt s' (dad_job d) = None
        ∧ dad s' = delete addr (dad s)
        ∧ events s' = events s ++
            match NDPDisp (ep s) with
            | Some _ =>
                [OnDuplicateAddressDetectionStatus (nic_ID (ep s)) addr false None]
            | None => []
            end
        ∧ s' = stopped addr d s
  | None => stopDuplicateAddressDetection addr s = Some (tt, s)
  end.
Proof.
  unfold stopDuplicateAddressDetection.
  destruct (dad s !! addr) as [d|] eqn:Hd.
  - exists (stopped addr d s).
    assert (Hrun : stopDuplicateAddressDetection addr s = Some (tt, stopped addr d s)).
    { unfold stopDuplicateAddressDetection, stopped, notify, emit, Job_Cancel.
      run. rewrite Hd. run. destruct (NDPDisp (ep s)); run; reflexivity. }
    split; [exact Hrun |]. unfold stopped, scheduledAt.
    destruct (NDPDisp (ep s)); cbn; rewrite lookup_alter_eq, ?app_nil_r;
      (split; [| auto]); destruct (jobs s !! dad_job d); reflexivity.
  - run. rewrite Hd. reflexivity.
Qed.

(** ** Deprecation of SLAAC addresses *)

Lemma deprecateSLAACAddress_deprecated a st s :
  addressEndpoints s !! a = Some st →
  ae_Deprecated st = true →
  deprecateSLAACAddress (Some a) s = Some (tt, s).
Proof.
  intros Ha Hdep. unfold deprecateSLAACAddress, Deprecated, onAddressEndpoint.
  run. rewrite Ha. run. rewrite Hdep. reflexivity.
Qed.

Lemma deprecateSLAACAddress_preferred a st s :
  addressEndpoints s !! a = Some st →
  ae_Deprecated st = false →
  deprecateSLAACAddress (Some a) s = Some (tt, deprecatedNow a st s).
Proof.
  intros Ha Hdep.
  unfold deprecateSLAACAddress, Deprecated, SetDeprecated, GetAddressWithPrefix,
    onAddressEndpoint, notify, emit, deprecatedNow.
  run. rewrite Ha. run. rewrite Hdep. run. rewrite Ha. run.
  rewrite lookup_insert_eq. run.
  destruct (NDPDisp (ep s)); run; reflexivity.
Qed.

Lemma deprecatedNow_lookup a st s :
  addressEndpoints (deprecatedNow a st s) !! a
  = Some (mkAddressState (ae_PrefixLen st) (ae_Kind st) (ae_ConfigType st)
                         true (ae_Refs st)).
Proof.
  unfold deprecatedNow. destruct (NDPDisp (ep s)); cbn; apply lookup_insert_eq.
Qed.

(** C10: [deprecateSLAACAddress] on an address that is already deprecated
    returns the state unchanged (no dispatcher call); on an address that is
    not, it marks the address and calls [OnAutoGenAddressDeprecated] once (if
    a dispatcher is registered), and a second call right after changes
    nothing more. *)
Theorem deprecateSLAACAddress_idempotent (a : AddressEndpoint)
    (st : AddressState) (s : ndpState) :
  addressEndpoints s !! a = Some st →
  (ae_Deprecated st = true → deprecateSLAACAddress (Some a) s = Some (tt, s))
  ∧ ∃ s', deprecateSLAACAddress (Some a) s = Some (tt, s')
      ∧ (ae_Deprecated <$> addressEndpoints s' !! a) = Some true
      ∧ events s' = events s ++
          (if ae_Deprecated st then []
           else match NDPDisp (ep s) with
                | Some _ =>
                    [OnAutoGenAddressDeprecated (nic_ID (ep s))
                       (mkAddressWithPrefix a (ae_PrefixLen st))]
                | None => []
                end)
      ∧ deprecateSLAACAddress (Some a) s' = Some (tt, s').
Proof.
  intros Ha. split; [apply deprecateSLAACAddress_deprecated; exact Ha |].
  destruct (ae_Deprecated st) eqn:Hdep.
  - exists s. rewrite (deprecateSLAACAddress_deprecated a st s Ha Hdep).
    rewrite Ha, app_nil_r. cbn. rewrite Hdep. auto.
  - exists (deprecatedNow a st s).
    rewrite (deprecateSLAACAddress_preferred a st s Ha Hdep).
    rewrite deprecatedNow_lookup. cbn.
    split; [reflexivity |]. split; [reflexivity |]. split.
    + unfold deprecatedNow. destruct (NDPDisp (ep s)); cbn;
        rewrite ?app_nil_r; reflexivity.
    + eapply deprecateSLAACAddress_deprecated;
        [apply deprecatedNow_lookup | reflexivity].
Qed.

(** ** Prefix Information options *)

(** C7: a Prefix Information option whose preferred lifetime exceeds its
    valid lifetime is dropped: [handleAutonomousPrefixInformation] returns
    the state unchanged, so no SLAAC prefix is created, refreshed or removed
    and the dispatcher is not called. *)
Theorem handleAutonomousPrefixInformation_drops_invalid
    (pi : NDPPrefixInformation) (s : ndpState) :
  pi_PreferredLifetime pi > pi_ValidLifetime pi →
  handleAutonomousPrefixInformation pi s = Some (tt, s).
Proof.
  intros Hgt. unfold handleAutonomousPrefixInformation.
  destruct (Z.gtb_spec (pi_PreferredLifetime pi) (pi_ValidLifetime pi)); [| lia].
  reflexivity.
Qed.

Lemma generateTempSLAACAddr_validUntil p st b :
  returns (λ r, validUntil r.2 = validUntil st) (generateTempSLAACAddr p st b).
Proof.
  unfold generateTempSLAACAddr. repeat result_step; cbn; destruct b; reflexivity.
Qed.

Lemma refreshTempAddrs_validUntil p st now :
  returns (λ r, validUntil r = validUntil st) (refreshTempAddrs p st now).
Proof.
  unfold refreshTempAddrs.
  repeat first
    [ lazymatch goal with
      | |- returns _ (bind (generateTempSLAACAddr _ _ _) _) =>
          eapply returns_bind_with;
          [apply generateTempSLAACAddr_validUntil | cbv beta; intros ? ?]
      end
    | result_step ]; auto.
Qed.

Lemma refreshPreferredLifetime_validUntil st pl now :
  returns (λ r, validUntil r = validUntil st)
    (refreshPreferredLifetime st pl now).
Proof. unfold refreshPreferredLifetime. repeat result_step; reflexivity. Qed.

(** The rule of RFC 4862 section 5.5.3.e on a prefix that stays valid for
    three more hours. *)
Lemma refreshValidLifetime_three_hours st vl now :
  validUntil st = now + 3 * Hour →
  0 ≤ now →
  3 * Hour < NDPInfiniteLifetime →
  returns (λ r, (vl = Hour → validUntil r = now + 2 * Hour)
                ∧ (vl = 3 * Hour → validUntil r = now + 3 * Hour))
    (refreshValidLifetime st vl now).
Proof.
  intros Hst Hnow Hinf. unfold refreshValidLifetime. rewrite Hst.
  unfold MinPrefixInformationValidLifetimeForUpdate, Hour, Minute, Second,
    Millisecond in *.
  destruct (Z.geb_spec vl NDPInfiniteLifetime).
  { repeat result_step. split; intros ->; lia. }
  destruct (Z.eqb_spec (now + 3 * (60 * (60 * (1000 * 1000000)))) 0); [lia |].
  destruct (Z.gtb_spec vl (2 * (60 * (60 * (1000 * 1000000))))); cbn [orb].
  { destruct (Z.eqb_spec vl 0); cbn [negb]; repeat result_step; cbn;
      split; intros ->; lia. }
  destruct (Z.gtb_spec vl (now + 3 * (60 * (60 * (1000 * 1000000))) - now)).
  { destruct (Z.eqb_spec vl 0); cbn [negb]; repeat result_step; cbn;
      split; intros ->; lia. }
  destruct (Z.gtb_spec (now + 3 * (60 * (60 * (1000 * 1000000))) - now)
              (2 * (60 * (60 * (1000 * 1000000))))); [| lia].
  destruct (Z.eqb_spec (2 * (60 * (60 * (1000 * 1000000)))) 0); [lia |].
  cbn [negb]. repeat result_step. cbn. split; intros ->; lia.
Qed.

(** C1 (amended): for a SLAAC prefix that is valid for three more hours, a
    Prefix Information option with a valid lifetime of one hour is not
    ignored: when [handleAutonomousPrefixInformation] returns, the prefix is
    valid for two more hours ([MinPrefixInformationValidLifetimeForUpdate]);
    with a valid lifetime of three hours it is valid for three more hours. *)
Theorem refresh_valid_lifetime_two_hour_rule (pi : NDPPrefixInformation)
    (st : slaacPrefixState) (s s' : ndpState) :
  slaacPrefixes s !! pi_Subnet pi = Some st →
  validUntil st = clock s + 3 * Hour →
  0 ≤ clock s →
  3 * Hour < NDPInfiniteLifetime →
  pi_PreferredLifetime pi ≤ pi_ValidLifetime pi →
  handleAutonomousPrefixInformation pi s = Some (tt, s') →
  clock s' = clock s
  ∧ ∃ st', slaacPrefixes s' !! pi_Subnet pi = Some st'
      ∧ (pi_ValidLifetime pi = Hour → validUntil st' - clock s' = 2 * Hour)
      ∧ (pi_ValidLifetime pi = 3 * Hour → validUntil st' - clock s' = 3 * Hour).
Proof.
  intros Hst Hvu Hnow Hinf Hpl. unfold handleAutonomousPrefixInformation.
  destruct (Z.gtb_spec (pi_PreferredLifetime pi) (pi_ValidLifetime pi)); [lia |].
  run. rewrite Hst. intros Hrun.
  apply bind_Some in Hrun as (r & s1 & Hrefresh & Hput).
  apply modify_Some in Hput as ->. cbn.
  pose proof (refreshSLAACPrefixLifetimes_aside _ _ _ _ _ _ _ Hrefresh)
    as (_ & _ & _ & _ & Hclock & _).
  split; [exact Hclock |]. exists r. rewrite lookup_insert_eq.
  split; [reflexivity |]. rewrite Hclock.
  revert Hrefresh. unfold refreshSLAACPrefixLifetimes. rewrite run_bind_gets.
  remember (clock s) as now eqn:Hn. intros Hrefresh.
  assert (Hr : (pi_ValidLifetime pi = Hour → validUntil r = now + 2 * Hour)
               ∧ (pi_ValidLifetime pi = 3 * Hour
                  → validUntil r = now + 3 * Hour)).
  { revert Hrefresh. generalize s r s1.
    change (returns
      (λ r, (pi_ValidLifetime pi = Hour → validUntil r = now + 2 * Hour)
            ∧ (pi_ValidLifetime pi = 3 * Hour → validUntil r = now + 3 * Hour))
      (bind (refreshPreferredLifetime st (pi_PreferredLifetime pi) now)
         (λ st1, bind (refreshValidLifetime st1 (pi_ValidLifetime pi) now)
                   (λ st2, refreshTempAddrs (pi_Subnet pi) st2 now)))).
    eapply returns_bind_with;
      [apply refreshPreferredLifetime_validUntil | cbv beta; intros st1 H1].
    eapply returns_bind_with;
      [apply refreshValidLifetime_three_hours; congruence
      | cbv beta; intros st2 H2].
    eapply returns_conseq; [apply refreshTempAddrs_validUntil |].
    cbv beta. intros st3 H3. rewrite H3. exact H2. }
  destruct Hr as [H1 H3]. split; intros Hvl; [rewrite H1 | rewrite H3]; auto; lia.
Qed.

(** *** The refresh returns *)

Lemma onAddressEndpoint_succeeds {A : Type} (a : AddressEndpoint) (Q : A → Prop)
    (f : Address → AddressState → M A) :
  (∀ st, ae_Kind st ≠ Permanent → succeeds (unresolved a) Q (f a st)) →
  succeeds (unresolved a) Q (onAddressEndpoint (Some a) f).
Proof.
  intros Hf s Hs. pose proof Hs as (st & Hst & Hk).
  unfold onAddressEndpoint. rewrite run_bind_gets. cbv beta. rewrite Hst.
  apply Hf; assumption.
Qed.

Lemma unresolved_insert a st s :
  ae_Kind st ≠ Permanent →
  unresolved a (upd_addressEndpoints (insert a st) s).
Proof. intros Hk. exists st. cbn. rewrite lookup_insert_eq. auto. Qed.

Ltac succeeds_step :=
  cbv beta zeta;
  lazymatch goal with
  | |- succeeds _ _ (bind _ _) =>
      eapply succeeds_bind with (Q := λ _, True); [| cbv beta; intros ? _]
  | |- succeeds _ _ (ret _) => apply succeeds_ret
  | |- succeeds _ _ (gets _) => apply succeeds_gets; intros ? ?
  | |- succeeds (unresolved _) _ (onAddressEndpoint (Some _) _) =>
      apply onAddressEndpoint_succeeds; intros ? ?
  | |- succeeds (unresolved _) _ (modify (upd_addressEndpoints (insert _ _))) =>
      apply succeeds_modify; [intros ? _; apply unresolved_insert; assumption |]
  | |- succeeds _ _ (modify _) => apply succeeds_modify; [intros ? ?; assumption |]
  | |- succeeds _ _ (if ?b then _ else _) => destruct b
  | |- succeeds _ _ (match ?x with _ => _ end) => destruct x
  end.

Lemma Job_Cancel_succeeds a j :
  succeeds (unresolved a) (λ _, True) (Job_Cancel j).
Proof. unfold Job_Cancel. repeat succeeds_step. exact I. Qed.

Lemma Job_Schedule_succeeds a j d :
  succeeds (unresolved a) (λ _, True) (Job_Schedule j d).
Proof. unfold Job_Schedule. repeat succeeds_step. exact I. Qed.

Lemma SetDeprecated_succeeds a d :
  succeeds (unresolved a) (λ _, True) (SetDeprecated (Some a) d).
Proof. unfold SetDeprecated. repeat succeeds_step. exact I. Qed.

Lemma notify_succeeds a mk : succeeds (unresolved a) (λ _, True) (notify mk).
Proof. unfold notify, emit. repeat succeeds_step; exact I. Qed.

Lemma deprecateSLAACAddress_succeeds a :
  succeeds (unresolved a) (λ _, True) (deprecateSLAACAddress (Some a)).
Proof.
  unfold deprecateSLAACAddress, Deprecated, GetAddressWithPrefix.
  eapply succeeds_bind with (Q := λ _, True).
  { repeat succeeds_step. exact I. }
  intros dep _. destruct dep; [apply succeeds_ret; exact I |].
  eapply succeeds_bind; [apply SetDeprecated_succeeds | intros _ _].
  eapply succeeds_bind with (Q := λ _, True).
  { repeat succeeds_step. exact I. }
  intros addr _. apply notify_succeeds.
Qed.

Lemma refreshPreferredLifetime_succeeds a st pl now :
  stableAddr_addressEndpoint st = Some a →
  succeeds (unresolved a) (λ r, stableAddr_addressEndpoint r = Some a)
    (refreshPreferredLifetime st pl now).
Proof.
  intros Ha. unfold refreshPreferredLifetime. rewrite Ha.
  eapply succeeds_bind with (Q := λ _, True).
  { destruct (pl =? 0);
      [apply deprecateSLAACAddress_succeeds | apply SetDeprecated_succeeds]. }
  intros _ _.
  eapply succeeds_bind; [apply Job_Cancel_succeeds | intros _ _].
  destruct (pl <? NDPInfiniteLifetime); [| apply succeeds_ret; exact Ha].
  eapply succeeds_bind with (Q := λ _, True).
  { destruct (negb (pl =? 0));
      [apply Job_Schedule_succeeds | apply succeeds_ret; exact I]. }
  intros _ _. apply succeeds_ret. exact Ha.
Qed.

Lemma refreshValidLifetime_succeeds a st vl now :
  stableAddr_addressEndpoint st = Some a →
  succeeds (unresolved a) (λ r, stableAddr_addressEndpoint r = Some a)
    (refreshValidLifetime st vl now).
Proof.
  intros Ha. unfold refreshValidLifetime.
  destruct (vl >=? NDPInfiniteLifetime).
  { eapply succeeds_bind; [apply Job_Cancel_succeeds | intros _ _].
    apply succeeds_ret. exact Ha. }
  cbv zeta.
  match goal with |- succeeds _ _ (if ?b then _ else _) => destruct b end;
    [| apply succeeds_ret; exact Ha].
  eapply succeeds_bind; [apply Job_Cancel_succeeds | intros _ _].
  eapply succeeds_bind; [apply Job_Schedule_succeeds | intros _ _].
  apply succeeds_ret. exact Ha.
Qed.

Lemma refreshTempAddrs_succeeds a p st now :
  stableAddr_addressEndpoint st = Some a →
  succeeds (unresolved a) (λ _, True) (refreshTempAddrs p st now).
Proof.
  intros Ha. unfold refreshTempAddrs. rewrite Ha.
  eapply succeeds_bind with (Q := λ k, k ≠ Permanent).
  { unfold GetKind. apply onAddressEndpoint_succeeds. intros ast Hk.
    apply succeeds_ret. exact Hk. }
  intros k Hk. rewrite bool_decide_eq_false_2 by exact Hk. cbn [negb].
  apply succeeds_ret. exact I.
Qed.

(** The refresh of a SLAAC prefix returns whenever the stable address of the
    prefix is in the address table and DAD has not resolved on it (the
    temporary addresses are left alone until it has). *)
Lemma refresh_returns_while_tentative (pi : NDPPrefixInformation)
    (st : slaacPrefixState) (a : AddressEndpoint) (s : ndpState) :
  pi_PreferredLifetime pi ≤ pi_ValidLifetime pi →
  slaacPrefixes s !! pi_Subnet pi = Some st →
  stableAddr_addressEndpoint st = Some a →
  unresolved a s →
  ∃ s', handleAutonomousPrefixInformation pi s = Some (tt, s').
Proof.
  intros Hpl Hst Ha Hs. unfold handleAutonomousPrefixInformation.
  destruct (Z.gtb_spec (pi_PreferredLifetime pi) (pi_ValidLifetime pi)); [lia |].
  rewrite run_bind_gets. cbv beta. rewrite Hst.
  assert (Hrefresh : succeeds (unresolved a) (λ _, True)
            (refreshSLAACPrefixLifetimes (pi_Subnet pi) st
               (pi_PreferredLifetime pi) (pi_ValidLifetime pi))).
  { unfold refreshSLAACPrefixLifetimes.
    eapply succeeds_bind with (Q := λ _, True);
      [apply succeeds_gets; auto | intros now _].
    eapply succeeds_bind;
      [apply refreshPreferredLifetime_succeeds; exact Ha | cbv beta; intros st1 H1].
    eapply succeeds_bind;
      [apply refreshValidLifetime_succeeds; exact H1 | cbv beta; intros st2 H2].
    apply refreshTempAddrs_succeeds. exact H2. }
  destruct (Hrefresh s Hs) as (r & s1 & Hrun & _ & _).
  exists (upd_slaacPrefixes (insert (pi_Subnet pi) r) s1).
  apply bind_Some. exists r, s1. split; [exact Hrun | reflexivity].
Qed.

(** ** The discovery tables *)

Lemma aside_keepsBounded s s' : aside s s' → keepsBounded s s'.
Proof. intros (Hr & Hp & _). unfold keepsBounded, bounded. rewrite Hr, Hp. auto. Qed.

Lemma aside_sameRouters s s' : aside s s' → sameRouters s s'.
Proof. intros (Hr & _ & He & _). split; assumption. Qed.

#[local] Hint Extern 5 (preserves keepsBounded _) =>
  apply (preserves_weaken aside keepsBounded _ aside_keepsBounded) : frame.
#[local] Hint Extern 5 (preserves sameRouters _) =>
  apply (preserves_weaken aside sameRouters _ aside_sameRouters) : frame.

Lemma invalidateDefaultRouter_bounded ip :
  preserves keepsBounded (invalidateDefaultRouter ip).
Proof.
  intros s u s'. unfold invalidateDefaultRouter, Job_Cancel, notify, emit.
  repeat first [progress run | run_case]; intros [-> ->]%returned [Hr Hp]; split; cbn; auto.
  all: etransitivity; [apply size_delete_le | exact Hr].
Qed.

Lemma invalidateOnLinkPrefix_bounded p :
  preserves keepsBounded (invalidateOnLinkPrefix p).
Proof.
  intros s u s'. unfold invalidateOnLinkPrefix, Job_Cancel, notify, emit.
  repeat first [progress run | run_case]; intros [-> ->]%returned [Hr Hp]; split; cbn; auto.
  all: etransitivity; [apply size_delete_le | exact Hp].
Qed.

Lemma invalidateOnLinkPrefix_sameRouters p :
  preserves sameRouters (invalidateOnLinkPrefix p).
Proof. unfold invalidateOnLinkPrefix. frame. Qed.

Lemma handleRA_defaultRouter_bounded ip ra :
  preserves keepsBounded (handleRA_defaultRouter ip ra).
Proof.
  intros s u s'.
  unfold handleRA_defaultRouter, rememberDefaultRouter, invalidateDefaultRouter,
    ask, NewJob, Job_Schedule, Job_Cancel, notify, emit.
  repeat first [progress run | run_case]; intros [-> ->]%returned [Hr Hp];
    split; cbn; auto.
  all: try (rewrite size_insert_same by eauto; exact Hr).
  all: try (etransitivity; [apply size_delete_le | exact Hr]).
  all: rewrite map_size_insert_None by assumption;
    repeat match goal with
           | H : _ && _ = true |- _ => apply andb_true_iff in H as [? ?]
           end;
    repeat match goal with
           | H : (_ <=? _)%nat = true |- _ => apply Nat.leb_le in H
           | H : (_ <? _)%nat = true |- _ => apply Nat.ltb_lt in H
           end;
    unfold MaxDiscoveredDefaultRouters, MaxDiscoveredOnLinkPrefixes in *; lia.
Qed.

Lemma handleOnLinkPrefixInformation_bounded pi :
  preserves keepsBounded (handleOnLinkPrefixInformation pi).
Proof.
  intros s u s'.
  unfold handleOnLinkPrefixInformation, rememberOnLinkPrefix,
    invalidateOnLinkPrefix, ask, NewJob, Job_Schedule, Job_Cancel, notify, emit.
  repeat first [progress run | run_case]; intros [-> ->]%returned [Hr Hp];
    split; cbn; auto.
  all: try (rewrite size_insert_same by eauto; exact Hp).
  all: try (etransitivity; [apply size_delete_le | exact Hp]).
  all: rewrite map_size_insert_None by assumption;
    repeat match goal with
           | H : _ && _ = true |- _ => apply andb_true_iff in H as [? ?]
           end;
    repeat match goal with
           | H : (_ <=? _)%nat = true |- _ => apply Nat.leb_le in H
           | H : (_ <? _)%nat = true |- _ => apply Nat.ltb_lt in H
           end;
    unfold MaxDiscoveredDefaultRouters, MaxDiscoveredOnLinkPrefixes in *; lia.
Qed.

Lemma rememberOnLinkPrefix_sameRouters p l :
  preserves sameRouters (rememberOnLinkPrefix p l).
Proof. unfold rememberOnLinkPrefix. frame. Qed.

#[local] Hint Resolve invalidateOnLinkPrefix_sameRouters rememberOnLinkPrefix_sameRouters
  : frame.

Lemma handleOnLinkPrefixInformation_sameRouters pi :
  preserves sameRouters (handleOnLinkPrefixInformation pi).
Proof. unfold handleOnLinkPrefixInformation. frame. Qed.

#[local] Hint Resolve invalidateDefaultRouter_bounded invalidateOnLinkPrefix_bounded
  handleRA_defaultRouter_bounded handleOnLinkPrefixInformation_bounded
  handleOnLinkPrefixInformation_sameRouters : frame.

Lemma handleRA_option_bounded opt : preserves keepsBounded (handleRA_option opt).
Proof. unfold handleRA_option. frame. Qed.

Lemma handleRA_option_sameRouters opt :
  preserves sameRouters (handleRA_option opt).
Proof. unfold handleRA_option. frame. Qed.

#[local] Hint Resolve handleRA_option_bounded handleRA_option_sameRouters : frame.

Lemma handleRA_bounded ip ra : preserves keepsBounded (handleRA ip ra).
Proof. unfold handleRA. frame. Qed.

Lemma runJob_bounded j fn : preserves keepsBounded (runJob j fn).
Proof. unfold runJob. frame. Qed.

#[local] Hint Resolve handleRA_bounded runJob_bounded : frame.

Lemma fireJob_bounded j : preserves keepsBounded (fireJob j).
Proof. unfold fireJob. frame. Qed.

Lemma cleanupState_bounded b : preserves keepsBounded (cleanupState b).
Proof. unfold cleanupState. frame. Qed.

#[local] Hint Resolve fireJob_bounded cleanupState_bounded : frame.

Lemma exec_bounded op : preserves keepsBounded (exec op).
Proof. unfold exec. frame. Qed.

Lemma reachable_bounded s : reachable s → bounded s.
Proof.
  induction 1 as [s [Hr Hp] | s op s' _ IH Hrun].
  - split; [rewrite Hr | rewrite Hp]; rewrite map_size_empty; 
      unfold MaxDiscoveredDefaultRouters, MaxDiscoveredOnLinkPrefixes; lia.
  - exact (exec_bounded op s tt s' Hrun IH).
Qed.

Lemma handleRA_defaultRouter_full ip ra s :
  (MaxDiscoveredDefaultRouters ≤ size (defaultRouters s))%nat →
  defaultRouters s !! ip = None →
  handleRA_defaultRouter ip ra s = Some (tt, s).
Proof.
  intros Hfull Hnew. unfold handleRA_defaultRouter. run.
  destruct (DiscoverDefaultRouters (configs s)); run; [| reflexivity].
  assert (Hlt : (size (defaultRouters s) <? MaxDiscoveredDefaultRouters)%nat
                = false) by (apply Nat.ltb_ge; exact Hfull).
  cbn in Hlt.
  rewrite Hnew. destruct (ra_RouterLifetime ra =? 0); run; [reflexivity |].
  rewrite Hlt. reflexivity.
Qed.

Lemma handleOnLinkPrefixInformation_full pi s :
  (MaxDiscoveredOnLinkPrefixes ≤ size (onLinkPrefixes s))%nat →
  onLinkPrefixes s !! pi_Subnet pi = None →
  handleOnLinkPrefixInformation pi s = Some (tt, s).
Proof.
  intros Hfull Hnew. unfold handleOnLinkPrefixInformation. run.
  assert (Hlt : (size (onLinkPrefixes s) <? MaxDiscoveredOnLinkPrefixes)%nat
                = false) by (apply Nat.ltb_ge; exact Hfull).
  cbn in Hlt.
  rewrite Hnew. destruct (pi_ValidLifetime pi =? 0); run; [reflexivity |].
  rewrite Hlt, andb_false_r. reflexivity.
Qed.

Lemma handleRA_full ip ra s s' :
  (MaxDiscoveredDefaultRouters ≤ size (defaultRouters s))%nat →
  defaultRouters s !! ip = None →
  handleRA ip ra s = Some (tt, s') →
  sameRouters s s'.
Proof.
  intros Hfull Hnew. unfold handleRA. run.
  destruct (negb (HandleRAs (configs s)) || Forwarding (ep s)); run.
  { intros [_ ->]%returned. reflexivity. }
  intros Hrun. apply bind_Some in Hrun as (u1 & s1 & H1 & Hrun).
  apply bind_Some in Hrun as (u2 & s2 & H2 & H3).
  pose proof (handleRA_dhcpv6_aside ra s u1 s1 H1) as Ha.
  assert (Hs1 : sameRouters s s1) by (apply aside_sameRouters; exact Ha).
  destruct Ha as (Hr1 & _).
  rewrite handleRA_defaultRouter_full in H2 by (rewrite Hr1; assumption).
  apply returned in H2 as [_ ->].
  transitivity s1; [exact Hs1 |].
  revert H3. unfold forEach. apply preserves_foldM; [apply _ |].
  intros; frame.
Qed.

(** C4: in every state reached from an initial one by operations that
    return (Router Advertisements, job firings, teardown and the others),
    the default-router table and the on-link prefix table hold at most
    [MaxDiscoveredDefaultRouters] and [MaxDiscoveredOnLinkPrefixes] entries.
    When the router table is full, the router part of [handleRA] for an
    unknown router with a non-zero lifetime returns the state unchanged, and
    the whole of [handleRA] leaves the table and the calls of
    [OnDefaultRouterDiscovered] as they were; when the prefix table is full,
    [handleOnLinkPrefixInformation] for an unknown prefix with a non-zero
    valid lifetime returns the state unchanged. *)
Theorem discovery_tables_bounded (s : ndpState) :
  reachable s →
  (size (defaultRouters s) ≤ MaxDiscoveredDefaultRouters)%nat
  ∧ (size (onLinkPrefixes s) ≤ MaxDiscoveredOnLinkPrefixes)%nat
  ∧ (∀ ip ra,
       size (defaultRouters s) = MaxDiscoveredDefaultRouters →
       defaultRouters s !! ip = None →
       ra_RouterLifetime ra ≠ 0 →
       handleRA_defaultRouter ip ra s = Some (tt, s)
       ∧ ∀ s', handleRA ip ra s = Some (tt, s') →
               defaultRouters s' = defaultRouters s
               ∧ routerDiscoveries (events s') = routerDiscoveries (events s))
  ∧ (∀ pi,
       size (onLinkPrefixes s) = MaxDiscoveredOnLinkPrefixes →
       onLinkPrefixes s !! pi_Subnet pi = None →
       pi_ValidLifetime pi ≠ 0 →
       handleOnLinkPrefixInformation pi s = Some (tt, s)).
Proof.
  intros Hreach. destruct (reachable_bounded s Hreach) as [Hr Hp].
  split; [exact Hr |]. split; [exact Hp |]. split.
  - intros ip ra Hfull Hnew _. split.
    + apply handleRA_defaultRouter_full; [rewrite Hfull; reflexivity | exact Hnew].
    + intros s' Hrun.
      apply (handleRA_full ip ra s s'); [rewrite Hfull; reflexivity | exact Hnew
                                         | exact Hrun].
  - intros pi Hfull Hnew _.
    apply handleOnLinkPrefixInformation_full;
      [rewrite Hfull; reflexivity | exact Hnew].
Qed.

(** ** Teardown *)

Lemma invalidateOnLinkPrefix_sameSLAAC p :
  preserves sameSLAAC (invalidateOnLinkPrefix p).
Proof. unfold invalidateOnLinkPrefix. frame. Qed.

Lemma invalidateDefaultRouter_sameSLAACOnLink ip :
  preserves sameSLAACOnLink (invalidateDefaultRouter ip).
Proof. unfold invalidateDefaultRouter. frame. Qed.

Lemma stopDuplicateAddressDetection_sameSLAACDom a :
  preserves sameSLAACDom (stopDuplicateAddressDetection a).
Proof. unfold stopDuplicateAddressDetection. frame. Qed.

Lemma cleanupTempSLAACAddrResources_sameSLAACDom r a t :
  preserves sameSLAACDom (cleanupTempSLAACAddrResources r a t).
Proof. unfold cleanupTempSLAACAddrResources. frame. Qed.

#[local] Hint Resolve stopDuplicateAddressDetection_sameSLAACDom
  cleanupTempSLAACAddrResources_sameSLAACDom : frame.

Lemma cleanupTempSLAACAddrResourcesAndNotify_sameSLAACDom a b :
  preserves sameSLAACDom (cleanupTempSLAACAddrResourcesAndNotify a b).
Proof. unfold cleanupTempSLAACAddrResourcesAndNotify. frame. Qed.

(** Without [invalidatePrefix], the callback of the parent endpoint only
    clears the handle of the stable address in an entry that exists. *)
Lemma cleanupSLAACAddrResourcesAndNotify_with_sameSLAACDom f a :
  preserves sameSLAACDom (cleanupSLAACAddrResourcesAndNotify_with f a false).
Proof.
  intros s u s'.
  unfold cleanupSLAACAddrResourcesAndNotify_with, notify, emit,
    GetAddressWithPrefix, DecRef, onAddressEndpoint.
  repeat first [progress run | progress rewrite ?lookup_insert_eq | run_case];
    try discriminate; intros [_ ->]%returned; unfold sameSLAACDom; cbn; auto.
  all: rewrite dom_insert_L; apply subseteq_union_1_L, singleton_subseteq_l;
    match goal with H : slaacPrefixes _ !! ?p = Some _ |- _ =>
      exact (elem_of_dom_2 (D:=gset Subnet) _ _ _ H) end.
Qed.

#[local] Hint Resolve cleanupTempSLAACAddrResourcesAndNotify_sameSLAACDom
  cleanupSLAACAddrResourcesAndNotify_with_sameSLAACDom : frame.

Lemma removePermanentEndpointLocked_sameSLAACDom ae :
  preserves sameSLAACDom (removePermanentEndpointLocked ae).
Proof. unfold removePermanentEndpointLocked. frame. Qed.

#[local] Hint Resolve removePermanentEndpointLocked_sameSLAACDom : frame.

Lemma invalidateTempSLAACAddr_sameSLAACDom r a t :
  preserves sameSLAACDom (invalidateTempSLAACAddr r a t).
Proof. unfold invalidateTempSLAACAddr. frame. Qed.

#[local] Hint Resolve invalidateTempSLAACAddr_sameSLAACDom : frame.

(** Invalidating a SLAAC prefix removes its entry and no other. *)
Lemma invalidateSLAACPrefix_dom p st s u s' :
  invalidateSLAACPrefix p st s = Some (u, s') →
  dom (slaacPrefixes s') = dom (slaacPrefixes s) ∖ {[p]}.
Proof.
  unfold invalidateSLAACPrefix, cleanupSLAACPrefixResources. intros Hrun.
  rewrite run_bind_bind in Hrun.
  apply bind_Some in Hrun as (u1 & s1 & H1 & Hrun). rewrite run_bind_bind in Hrun.
  apply bind_Some in Hrun as (u2 & s2 & H2 & Hrun). rewrite run_bind_bind in Hrun.
  apply bind_Some in Hrun as (u3 & s3 & H3 & Hrun). rewrite run_bind_bind in Hrun.
  apply bind_Some in Hrun as (u4 & s4 & H4 & Hrun).
  apply bind_Some in Hrun as (u5 & s5 & H5 & Hrun).
  assert (D1 : sameSLAACDom s s1).
  { revert H1. apply rangeTempAddrs_preserves; [apply _ | intros; frame | intros; frame]. }
  assert (D2 : sameSLAACDom s1 s2).
  { revert H2. generalize s1 u2 s2. change (preserves sameSLAACDom
      match stableAddr_addressEndpoint st with
      | Some ae => DecRef (Some ae)
      | None => ret ()
      end). frame. }
  assert (D3 : sameSLAACDom s2 s3) by (revert H3; generalize s2 u3 s3;
    change (preserves sameSLAACDom (Job_Cancel (deprecationJob st))); frame).
  assert (D4 : sameSLAACDom s3 s4) by (revert H4; generalize s3 u4 s4;
    change (preserves sameSLAACDom (Job_Cancel (invalidationJob st))); frame).
  apply modify_Some in H5 as ->.
  assert (D6 : sameSLAACDom (upd_slaacPrefixes (delete p) s4) s').
  { revert Hrun. generalize (upd_slaacPrefixes (delete p) s4) u s'.
    change (preserves sameSLAACDom
      match stableAddr_addressEndpoint st with
      | Some ae =>
          bind (removePermanentEndpointLocked (Some ae))
            (λ err, match err with Some _ => panic | None => ret () end)
      | None => ret ()
      end). frame. }
  unfold sameSLAACDom in *. cbn in D6. rewrite D6, dom_delete_L. congruence.
Qed.

Lemma rangeKeys_elem `{Countable K} {V : Type} (m : gmap K V) (k : K) :
  k ∈ rangeKeys m ↔ is_Some (m !! k).
Proof.
  unfold rangeKeys. rewrite (rangeOrder_perm (map_to_list m)).
  rewrite list_elem_of_fmap. split.
  - intros ([k' v] & -> & Hin). apply elem_of_map_to_list in Hin. eauto.
  - intros [v Hv]. exists (k, v). split; [reflexivity |].
    apply elem_of_map_to_list. exact Hv.
Qed.

(** The loop of [removeSLAACAddresses] over the prefixes [l]. *)
Lemma removeSLAACAddresses_loop keep (l : list Subnet) :
  ∀ (n : nat) s n' s',
    foldM (λ (n : nat) prefix,
             cur ← gets slaacPrefixes;
             match cur !! prefix with
             | None => ret n
             | Some state =>
                 if keep && bool_decide
                               (prefix = AddressWithPrefix_Subnet IPv6LinkLocalPrefix)
                 then ret (S n)
                 else invalidateSLAACPrefix prefix state;; ret n
             end) n l s = Some (n', s') →
    ∀ p, p ∈ dom (slaacPrefixes s') ↔
         p ∈ dom (slaacPrefixes s)
         ∧ (p ∈ l → keep = true ∧ p = AddressWithPrefix_Subnet IPv6LinkLocalPrefix).
Proof.
  induction l as [|k l IH]; intros n s n' s'; cbn [foldM].
  - intros [_ ->]%returned p. split; [intros Hp; split; [exact Hp |] | tauto].
    intros Hin. apply elem_of_nil in Hin. contradiction.
  - intros Hrun. apply bind_Some in Hrun as (n1 & s1 & Hbody & Hrest).
    specialize (IH _ _ _ _ Hrest).
    assert (Hstep : ∀ p, p ∈ dom (slaacPrefixes s1) ↔
              p ∈ dom (slaacPrefixes s)
              ∧ (p = k → keep = true
                         ∧ p = AddressWithPrefix_Subnet IPv6LinkLocalPrefix)).
    { revert Hbody. run.
      destruct (slaacPrefixes s !! k) as [state|] eqn:Hk.
      - destruct keep; cbn [andb].
        + case_bool_decide as Hll.
          * intros [_ ->]%returned p. split; [intros Hp; split; auto |].
            { intros ->. auto. } { tauto. }
          * intros Hrun. apply bind_Some in Hrun as (u & s2 & Hinv & Hret).
            apply returned in Hret as [_ ->].
            apply invalidateSLAACPrefix_dom in Hinv. intros p. rewrite Hinv.
            rewrite elem_of_difference, elem_of_singleton. split.
            { intros [Hp Hne]. split; [exact Hp | intros ->; contradiction]. }
            { intros [Hp Himp]. split; [exact Hp |]. intros ->.
              destruct (Himp eq_refl) as [_ ->]. contradiction. }
        + intros Hrun. apply bind_Some in Hrun as (u & s2 & Hinv & Hret).
          apply returned in Hret as [_ ->].
          apply invalidateSLAACPrefix_dom in Hinv. intros p. rewrite Hinv.
          rewrite elem_of_difference, elem_of_singleton. split.
          { intros [Hp Hne]. split; [exact Hp | intros ->; contradiction]. }
          { intros [Hp Himp]. split; [exact Hp |]. intros ->.
            destruct (Himp eq_refl) as [[=] _]. }
      - intros [_ ->]%returned p.
        apply (not_elem_of_dom (D:=gset Subnet)) in Hk. split.
        + intros Hp. split; [exact Hp | intros ->; contradiction].
        + tauto. }
    intros p. rewrite IH, Hstep, elem_of_cons. tauto.
Qed.

Lemma removeSLAACAddresses_dom keep s u s' :
  removeSLAACAddresses keep s = Some (u, s') →
  ∀ p, p ∈ dom (slaacPrefixes s') ↔
       p ∈ dom (slaacPrefixes s) ∧ keep = true
       ∧ p = AddressWithPrefix_Subnet IPv6LinkLocalPrefix.
Proof.
  unfold removeSLAACAddresses. run. intros Hrun.
  apply bind_Some in Hrun as (n & s1 & Hloop & Hcheck).
  assert (s' = s1) as ->.
  { revert Hcheck. run. destruct (negb _); [discriminate |].
    intros [_ ->]%returned. reflexivity. }
  intros p. rewrite (removeSLAACAddresses_loop _ _ _ _ _ _ Hloop p).
  rewrite rangeKeys_elem, <- elem_of_dom. tauto.
Qed.

Lemma forEach_preserves {A : Type} (R : ndpState → ndpState → Prop)
    `{!PreOrder R} (l : list A) (body : A → M unit) :
  (∀ x, preserves R (body x)) → preserves R (forEach l body).
Proof. intros Hb. unfold forEach. apply preserves_foldM; [apply _ | auto]. Qed.

(** C2 (amended): when [cleanupState hostOnly] returns, the default-router
    table and the on-link prefix table are empty, the only SLAAC prefix that
    may be left is the link-local one, if [hostOnly] is set and it was there
    before, and the stored DHCPv6 configuration is [0], the zero value of the
    type, which is not [DHCPv6NoConfiguration]. *)
Theorem cleanupState_spec (hostOnly : bool) (s s' : ndpState) :
  cleanupState hostOnly s = Some (tt, s') →
  defaultRouters s' = ∅
  ∧ onLinkPrefixes s' = ∅
  ∧ (∀ p, is_Some (slaacPrefixes s' !! p) ↔
          is_Some (slaacPrefixes s !! p) ∧ hostOnly = true
          ∧ p = AddressWithPrefix_Subnet IPv6LinkLocalPrefix)
  ∧ dhcpv6Configuration s' = 0
  ∧ dhcpv6Configuration s' ≠ DHCPv6NoConfiguration.
Proof.
  unfold cleanupState. intros Hrun.
  apply bind_Some in Hrun as (u1 & s1 & Hslaac & Hrun).
  rewrite run_bind_gets in Hrun.
  apply bind_Some in Hrun as (u2 & s2 & Honlink & Hrun).
  rewrite run_bind_gets in Hrun.
  destruct (Nat.eqb_spec (size (onLinkPrefixes s2)) 0) as [Hp0|]; [| discriminate].
  cbn [negb] in Hrun. rewrite run_bind_gets in Hrun.
  apply bind_Some in Hrun as (u3 & s3 & Hrouters & Hrun).
  rewrite run_bind_gets in Hrun.
  destruct (Nat.eqb_spec (size (defaultRouters s3)) 0) as [Hr0|]; [| discriminate].
  cbn [negb] in Hrun. apply modify_Some in Hrun as ->. cbn.
  assert (S2 : sameSLAAC s1 s2).
  { revert Honlink. apply forEach_preserves; [apply _ |]. intros; frame.
    apply invalidateOnLinkPrefix_sameSLAAC. }
  assert (S3 : sameSLAACOnLink s2 s3).
  { revert Hrouters. apply forEach_preserves; [apply _ |]. intros; frame.
    apply invalidateDefaultRouter_sameSLAACOnLink. }
  destruct S3 as [S3 P3]. unfold sameSLAAC in S2.
  split; [apply map_size_empty_inv; exact Hr0 |].
  split; [rewrite P3; apply map_size_empty_inv; exact Hp0 |].
  split; [| split; [reflexivity | discriminate]].
  intros p. rewrite S3, S2, <- !elem_of_dom.
  apply (removeSLAACAddresses_dom _ _ _ _ Hslaac).
Qed.

(** ** Router Solicitation *)

Lemma fireJob_rtrSolicit (j : JobRef) (r : Z) (dl : option Time) (s s' : ndpState) :
  rtrSolicitJob s = Some j →
  jobs s !! j = Some (mkJob RtrSolicitJob r dl) →
  (is_Some dl → 0 < r < 256) →
  fireJob j s = Some (tt, s') →
  rtrSolicitJob s' = Some j ∧ configs s' = configs s ∧ ep s' = ep s
  ∧ clock s' = clock s ∧ firingOutcome j r dl s s'.
Proof.
  intros Hj Hb Hr. unfold fireJob, firingOutcome. run. rewrite Hb. run.
  destruct dl as [t|]; run.
  2:{ intros [= <-]. auto 10. }
  destruct (Z.ltb_spec (clock s) t); run.
  { intros [= <-]. auto 10. }
  specialize (Hr (mk_is_Some _ _ eq_refl)).
  assert (Hu : u8 (r - 1) = r - 1) by (unfold u8; apply Z.mod_small; lia).
  unfold Job_Cancel, rtrSolicitJob_fn, acquireOutgoingPrimaryAddressRLocked,
    GetAddressWithPrefix, DecRef, onAddressEndpoint, setRemaining, getRemaining,
    Job_Schedule.
  run.
  repeat first [ progress run
               | progress rewrite ?lookup_insert_eq, ?lookup_alter_eq, ?Hb, ?Hu, ?Hj
               | run_case ].
  all: try discriminate.
  all: intros [= <-]; cbn; rewrite ?Hj; (do 4 (split; [reflexivity |])).
  all: first
    [ right; right; eexists t, _, _; (do 3 (split; [eauto; fail |])); cbn;
      rewrite !lookup_alter_eq, Hb; cbn; auto; fail
    | right; left; eexists t, _; (do 3 (split; [eauto; fail |])); cbn;
      rewrite !lookup_alter_eq, Hb; cbn;
      destruct (r - 1 =? 0); cbn in *; try discriminate; auto 10 ].
Qed.

Lemma startSolicitingRouters_starts (s0 s1 : ndpState) :
  rtrSolicitJob s0 = None →
  0 < MaxRtrSolicitations (configs s0) →
  startSolicitingRouters s0 = Some (tt, s1) →
  ∃ j delay, rtrSolicitJob s1 = Some j
    ∧ jobs s1 !! j
      = Some (mkJob RtrSolicitJob (MaxRtrSolicitations (configs s0))
                (Some (clock s0 + delay)))
    ∧ configs s1 = configs s0
    ∧ routerSolicitsSent s1 = routerSolicitsSent s0.
Proof.
  intros Hj Hmax. unfold startSolicitingRouters. run. rewrite Hj. run.
  destruct (Z.eqb_spec (MaxRtrSolicitations (configs s0)) 0); [lia |].
  unfold NewJob, Job_Schedule. run. intros [= <-]. cbn.
  eexists _, _. split; [reflexivity |]. rewrite lookup_alter_eq, lookup_insert_eq.
  cbn. auto.
Qed.

Lemma inBurst_firings s0 j s s' :
  MaxRtrSolicitations (configs s0) < 256 →
  inBurst s0 j s → firings j s s' → inBurst s0 j s'.
Proof.
  intros Hmax Hin Hf. induction Hf as [s | s s1 s' Hfire _ IH | s d s' Hd _ IH].
  - exact Hin.
  - apply IH. destruct Hin as (Hj & Hc & r & dl & Hb & Hr0 & Hdl & Hlo & Hhi).
    destruct (fireJob_rtrSolicit j r dl s s1 Hj Hb) as (Hj1 & Hc1 & _ & _ & Hout);
      [intros Hs; specialize (Hdl Hs); lia | exact Hfire |].
    split; [exact Hj1 |]. split; [congruence |].
    destruct Hout as [[-> _] | [(t & pkt & -> & _ & _ & _ & _ & _ & Hsent & Hb1)
                               | (t & pkt & e & -> & _ & _ & _ & Hsent & Hb1)]].
    + exists r, dl. auto 10.
    + specialize (Hdl (mk_is_Some _ _ eq_refl)).
      eexists _, _. split; [exact Hb1 |].
      split; [lia |]. split; [| lia].
      destruct (Z.eqb_spec (r - 1) 0); [intros [? [=]] | lia].
    + eexists _, _. split; [exact Hb1 |].
      split; [lia |]. split; [intros [? [=]] | lia].
  - apply IH. destruct Hin as (Hj & Hc & r & dl & Hb & Hrest).
    split; [exact Hj |]. split; [exact Hc |]. exists r, dl. auto.
Qed.

(** C8: [startSolicitingRouters], called when no router solicitation job
    exists and [MaxRtrSolicitations] is not zero, creates the job with
    [remaining = MaxRtrSolicitations] and schedules it.  In every state
    reached from there by firings of that job, at most [MaxRtrSolicitations]
    Router Solicitations have been written since the start, the job is
    scheduled only while [remaining > 0], and one more firing does what
    [firingOutcome] says: a written solicitation decrements [remaining] and
    reschedules the job at [RtrSolicitationInterval] only if [remaining] is
    still positive; a write error sets [remaining] to zero and leaves the job
    unscheduled, so it does not fire again. *)
Theorem routerSolicitation_burst (s0 s1 : ndpState) :
  rtrSolicitJob s0 = None →
  0 < MaxRtrSolicitations (configs s0) < 256 →
  startSolicitingRouters s0 = Some (tt, s1) →
  ∃ j, rtrSolicitJob s1 = Some j
    ∧ (∃ delay, jobs s1 !! j
         = Some (mkJob RtrSolicitJob (MaxRtrSolicitations (configs s0))
                   (Some (clock s0 + delay))))
    ∧ ∀ s, firings j s1 s →
        routerSolicitsSent s
        ≤ routerSolicitsSent s0 + MaxRtrSolicitations (configs s0)
        ∧ ∃ r dl, jobs s !! j = Some (mkJob RtrSolicitJob r dl)
            ∧ (is_Some dl → 0 < r)
            ∧ ∀ s', fireJob j s = Some (tt, s') → firingOutcome j r dl s s'.
Proof.
  intros Hj [Hpos Hmax] Hstart.
  destruct (startSolicitingRouters_starts s0 s1 Hj Hpos Hstart)
    as (j & delay & Hj1 & Hb1 & Hc1 & Hsent1).
  exists j. split; [exact Hj1 |]. split; [eauto |].
  intros s Hf.
  assert (Hin : inBurst s0 j s).
  { eapply inBurst_firings; [exact Hmax | | exact Hf].
    split; [exact Hj1 |]. split; [exact Hc1 |]. eexists _, _.
    split; [exact Hb1 |]. split; [lia |]. split; [intros _; lia |]. lia. }
  destruct Hin as (Hjs & Hc & r & dl & Hb & Hr0 & Hdl & Hlo & Hhi).
  split; [lia |]. exists r, dl. split; [exact Hb |]. split; [exact Hdl |].
  intros s' Hfire.
  apply (fireJob_rtrSolicit j r dl s s' Hjs Hb); [| exact Hfire].
  intros Hs. specialize (Hdl Hs). lia.
Qed.

(** * Further properties of the operations *)

(** ** More on the configuration *)

(** [validate] one [if] statement at a time, from the first. *)
Ltac validate_reduce :=
  cbn [orb with_RetransmitTimer with_RtrSolicitationInterval
       with_MaxRtrSolicitationDelay with_MaxTempAddrValidLifetime
       with_MaxTempAddrPreferredLifetime with_RegenAdvanceDuration
       DupAddrDetectTransmits RetransmitTimer MaxRtrSolicitations
       RtrSolicitationInterval MaxRtrSolicitationDelay HandleRAs
       DiscoverDefaultRouters DiscoverOnLinkPrefixes
       AutoGenGlobalAddresses AutoGenAddressConflictRetries
       AutoGenTempGlobalAddresses MaxTempAddrValidLifetime
       MaxTempAddrPreferredLifetime RegenAdvanceDuration].

Ltac validate_cases :=
  unfold validate; validate_reduce;
  repeat (match goal with
          | |- context [?a <? ?b] =>
              is_var a; destruct (Z.ltb_spec a b)
          | |- context [?a >? ?b] =>
              is_var a;
              lazymatch b with
              | context [if _ then _ else _] => fail
              | _ => destruct (Z.gtb_spec a b)
              end
          end;
          validate_reduce);
  unfold minimumRetransmitTimer, minimumRtrSolicitationInterval,
    minimumMaxRtrSolicitationDelay, MinMaxTempAddrValidLifetime,
    MinMaxTempAddrPreferredLifetime, minRegenAdvanceDuration,
    defaultRetransmitTimer, defaultRtrSolicitationInterval,
    defaultMaxRtrSolicitationDelay, defaultRegenAdvanceDuration,
    MaxDesyncFactor, Hour, Minute, Second, Millisecond in *.

Lemma validate_inRange (c : NDPConfigurations) : inRange (validate c).
Proof.
  destruct c as [dt rt mrs rsi mrsd hra ddr dop aga retries agt vl pl rad].
  unfold inRange. validate_cases; cbn; lia.
Qed.

Lemma validate_fixed (c : NDPConfigurations) : inRange c → validate c = c.
Proof.
  destruct c as [dt rt mrs rsi mrsd hra ddr dop aga retries agt vl pl rad].
  unfold inRange. cbn. intros (H1 & H2 & H3 & H4 & H5 & H6 & H7).
  validate_cases; try reflexivity; lia.
Qed.

(** X1: whatever the configuration, every field [validate] checks is in
    its range afterwards, the maximum preferred lifetime of temporary
    addresses does not exceed their maximum valid lifetime, the fields
    [validate] does not check are as they were, and validating a second time
    changes nothing. *)
Theorem validate_establishes_ranges (c : NDPConfigurations) :
  inRange (validate c)
  ∧ sameSwitches c (validate c)
  ∧ validate (validate c) = validate c.
Proof.
  split; [apply validate_inRange |].
  split; [| apply validate_fixed, validate_inRange].
  destruct c as [dt rt mrs rsi mrsd hra ddr dop aga retries agt vl pl rad].
  unfold sameSwitches. validate_cases; cbn; auto 10.
Qed.

(** X2: the configurations [validate] returns as they are, are those whose
    fields are all in range. *)
Theorem validate_fixed_points (c : NDPConfigurations) :
  validate c = c ↔ inRange c.
Proof.
  split; [| apply validate_fixed].
  intros Hc. rewrite <- Hc. apply validate_inRange.
Qed.

(** ** More on Duplicate Address Detection *)

(** X3: with [DupAddrDetectTransmits] not zero, starting DAD on a tentative
    unicast address that is not in DAD returns no error and sends nothing
    yet: it records a DAD entry whose job holds the number of transmits and
    is due at once, and leaves the address tentative and the dispatcher
    uncalled. *)
Theorem startDAD_schedules (addr : Address) (a : AddressEndpoint)
    (st : AddressState) (s : ndpState) :
  IsV6UnicastAddress addr = true →
  addressEndpoints s !! a = Some st →
  ae_Kind st = PermanentTentative →
  dad s !! addr = None →
  DupAddrDetectTransmits (configs s) ≠ 0 →
  ∃ s', startDuplicateAddressDetection addr (Some a) s = Some (None, s')
    ∧ dad s' = <[addr := mkDadState (nextJob s)]> (dad s)
    ∧ jobs s' = <[nextJob s := mkJob (DADJob addr (Some a))
                                 (DupAddrDetectTransmits (configs s))
                                 (Some (clock s))]> (jobs s)
    ∧ nextJob s' = S (nextJob s)
    ∧ addressEndpoints s' = addressEndpoints s
    ∧ events s' = events s ∧ wire s' = wire s ∧ stats s' = stats s.
Proof.
  intros Hu Ha Hk Hd Hn.
  unfold startDuplicateAddressDetection, GetKind, onAddressEndpoint, NewJob,
    Job_Schedule.
  rewrite Hu. run. rewrite Ha. run. rewrite Hk. decided. rewrite Hd. run.
  destruct (Z.eqb_spec (DupAddrDetectTransmits (configs s)) 0); [contradiction |].
  run. eexists. split; [reflexivity |]. cbn.
  rewrite alter_insert_eq. cbn. rewrite Z.add_0_r. auto 10.
Qed.

(** X4: [startDuplicateAddressDetection] panics, rather than restart or
    overwrite anything, on a unicast address whose endpoint is not tentative
    or that is in DAD already. *)
Theorem startDAD_panics (addr : Address) (a : AddressEndpoint)
    (st : AddressState) (s : ndpState) :
  IsV6UnicastAddress addr = true →
  addressEndpoints s !! a = Some st →
  ae_Kind st ≠ PermanentTentative ∨ is_Some (dad s !! addr) →
  startDuplicateAddressDetection addr (Some a) s = None.
Proof.
  intros Hu Ha Hbad.
  unfold startDuplicateAddressDetection, GetKind, onAddressEndpoint.
  rewrite Hu. run. rewrite Ha. run.
  destruct (decide (ae_Kind st = PermanentTentative)) as [Hk | Hk].
  - rewrite Hk. decided. destruct Hbad as [Hbad | [d Hd]]; [contradiction |].
    rewrite Hd. reflexivity.
  - decided. reflexivity.
Qed.

Lemma fireJob_due (j : JobRef) (b : Job) (t : Time) (s : ndpState) :
  jobs s !! j = Some b → job_deadline b = Some t → t ≤ clock s →
  fireJob j s
  = runJob j (job_fn b)
      (upd_jobs (alter (λ b, mkJob (job_fn b) (job_remaining b) None) j) s).
Proof.
  intros Hj Hdl Ht. unfold fireJob, Job_Cancel. run. rewrite Hj. run.
  rewrite Hdl. run. destruct (Z.ltb_spec (clock s) t); [lia |]. run.
  reflexivity.
Qed.

Lemma fireJob_idle (j : JobRef) (s : ndpState) :
  match scheduledAt s j with
  | Some t => clock s < t
  | None => True
  end →
  fireJob j s = Some (tt, s).
Proof.
  unfold fireJob, scheduledAt. run.
  destruct (jobs s !! j) as [b|]; cbn; [| reflexivity].
  destruct (job_deadline b) as [t|]; run; [| reflexivity].
  intros Ht. destruct (Z.ltb_spec (clock s) t); [reflexivity | lia].
Qed.

(** One firing of the DAD job whose Neighbor Solicitation the NIC takes. *)
Lemma dadJob_fn_sends (j : JobRef) (addr : Address) (a : AddressEndpoint)
    (st : AddressState) (r : Z) (dl : option Time) (s : ndpState) :
  dad s !! addr = Some (mkDadState j) →
  jobs s !! j = Some (mkJob (DADJob addr (Some a)) r dl) →
  addressEndpoints s !! a = Some st →
  ae_Kind st = PermanentTentative →
  r ≠ 0 →
  nic_WritePacketToRemote (ep s) (wire s) (dadProbe addr) = None →
  ∃ s', dadJob_fn j addr (Some a) s = Some (tt, s')
    ∧ wire s' = wire s ++ [dadProbe addr]
    ∧ st_NeighborSolicit (stats s') = st_NeighborSolicit (stats s) + 1
    ∧ jobs s' = <[j := mkJob (DADJob addr (Some a)) (u8 (r - 1))
                         (Some (clock s + RetransmitTimer (configs s)))]>
                  (jobs s)
    ∧ dad s' = dad s ∧ events s' = events s
    ∧ addressEndpoints s' = addressEndpoints s
    ∧ ep s' = ep s ∧ configs s' = configs s ∧ clock s' = clock s.
Proof.
  intros Hd Hj Ha Hk Hr Hw.
  unfold dadJob_fn, GetKind, onAddressEndpoint, getRemaining, setRemaining,
    sendDADPacket, Job_Schedule.
  unfold dadProbe, NDPHopLimit in *.
  run. rewrite Hd. run. rewrite Ha. run. rewrite Hk. decided. rewrite Hj. run.
  destruct (Z.eqb_spec r 0); [contradiction |]. run. rewrite Hw. run.
  eexists. split; [reflexivity |]. cbn. do 2 (split; [reflexivity |]).
  split; [| auto 10].
  apply map_eq. intros k. destruct (decide (k = j)) as [-> |].
  - rewrite !lookup_alter_eq, Hj, lookup_insert_eq. reflexivity.
  - rewrite !lookup_alter_ne, lookup_insert_ne by congruence. reflexivity.
Qed.

(** The firing of the DAD job with no transmit left, for an address SLAAC
    did not generate. *)
Lemma dadJob_fn_done (j : JobRef) (addr : Address) (a : AddressEndpoint)
    (st : AddressState) (d : dadState) (dl : option Time) (s : ndpState) :
  dad s !! addr = Some d →
  jobs s !! j = Some (mkJob (DADJob addr (Some a)) 0 dl) →
  addressEndpoints s !! a = Some st →
  ae_Kind st = PermanentTentative →
  ae_ConfigType st ≠ AddressConfigSlaac →
  ∃ s', dadJob_fn j addr (Some a) s = Some (tt, s')
    ∧ addressEndpoints s'
      = <[a := mkAddressState (ae_PrefixLen st) Permanent (ae_ConfigType st)
                 (ae_Deprecated st) (ae_Refs st)]> (addressEndpoints s)
    ∧ dad s' = delete addr (dad s)
    ∧ events s' = events s ++
        notified s (OnDuplicateAddressDetectionStatus (nic_ID (ep s)) addr
                      true None)
    ∧ wire s' = wire s ∧ stats s' = stats s ∧ jobs s' = jobs s.
Proof.
  intros Hd Hj Ha Hk Hc.
  unfold dadJob_fn, GetKind, SetKind, ConfigType, onAddressEndpoint,
    getRemaining, notify, emit, notified.
  run. rewrite Hd. run. rewrite Ha. run. rewrite Hk. decided. rewrite Hj. run.
  rewrite Ha. run.
  destruct (NDPDisp (ep s)); run; rewrite lookup_insert_eq; run; decided;
    eexists; (split; [reflexivity |]); cbn; rewrite ?app_nil_r; auto 10.
Qed.

(** X5: when the NIC refuses the Neighbor Solicitation of a firing of the
    DAD job, DAD ends there: nothing is written, the packet is counted as
    dropped, the entry is removed, the dispatcher is told that DAD did not
    resolve and with which error, the job is not rescheduled, and the address
    stays tentative. *)
Theorem dadJob_write_error (j : JobRef) (addr : Address) (a : AddressEndpoint)
    (st : AddressState) (d : dadState) (r : Z) (dl : option Time) (e : Error)
    (s : ndpState) :
  dad s !! addr = Some d →
  jobs s !! j = Some (mkJob (DADJob addr (Some a)) r dl) →
  addressEndpoints s !! a = Some st →
  ae_Kind st = PermanentTentative →
  r ≠ 0 →
  nic_WritePacketToRemote (ep s) (wire s) (dadProbe addr) = Some e →
  ∃ s', dadJob_fn j addr (Some a) s = Some (tt, s')
    ∧ wire s' = wire s
    ∧ st_NeighborSolicit (stats s') = st_NeighborSolicit (stats s)
    ∧ st_Dropped (stats s') = st_Dropped (stats s) + 1
    ∧ dad s' = delete addr (dad s)
    ∧ events s' = events s ++
        notified s (OnDuplicateAddressDetectionStatus (nic_ID (ep s)) addr
                      false (Some e))
    ∧ jobs s' = jobs s
    ∧ addressEndpoints s' = addressEndpoints s.
Proof.
  intros Hd Hj Ha Hk Hr Hw.
  unfold dadJob_fn, GetKind, onAddressEndpoint, getRemaining, sendDADPacket,
    notify, emit, notified.
  unfold dadProbe, NDPHopLimit in *.
  run. rewrite Hd. run. rewrite Ha. run. rewrite Hk. decided. rewrite Hj. run.
  destruct (Z.eqb_spec r 0); [contradiction |]. run. rewrite Hw. run.
  destruct (NDPDisp (ep s)); run; eexists; (split; [reflexivity |]); cbn;
    rewrite ?app_nil_r; auto 10.
Qed.

(** X6: a whole run of DAD.  From a state in which DAD is in progress on a
    tentative address (one SLAAC did not generate) with [n] transmits left,
    on a NIC that takes every packet, letting the job fire each time it is
    due writes exactly [n] Neighbor Solicitations for the address and then
    resolves DAD: the address is [Permanent], the entry is gone and the
    dispatcher has been told once, that DAD resolved. *)
Theorem dad_completes (n : nat) (j : JobRef) (addr : Address)
    (a : AddressEndpoint) :
  ∀ (st : AddressState) (dl : Time) (s : ndpState),
  dad s !! addr = Some (mkDadState j) →
  jobs s !! j = Some (mkJob (DADJob addr (Some a)) (Z.of_nat n) (Some dl)) →
  addressEndpoints s !! a = Some st →
  ae_Kind st = PermanentTentative →
  ae_ConfigType st ≠ AddressConfigSlaac →
  Z.of_nat n < 256 →
  (∀ w p, nic_WritePacketToRemote (ep s) w p = None) →
  ∃ s', firings j s s'
    ∧ (ae_Kind <$> addressEndpoints s' !! a) = Some Permanent
    ∧ dad s' = delete addr (dad s)
    ∧ wire s' = wire s ++ replicate n (dadProbe addr)
    ∧ st_NeighborSolicit (stats s')
      = st_NeighborSolicit (stats s) + Z.of_nat n
    ∧ events s' = events s ++
        notified s (OnDuplicateAddressDetectionStatus (nic_ID (ep s)) addr
                      true None).
Proof.
  induction n as [| n IH]; intros st dl s Hd Hj Ha Hk Hc Hn Hw.
  all: set (d := Z.max 0 (dl - clock s)).
  all: set (sw := upd_clock (λ t, t + d) s).
  all: set (sc := upd_jobs (alter (λ b, mkJob (job_fn b) (job_remaining b) None)
                              j) sw).
  all: assert (Hfire : fireJob j sw = dadJob_fn j addr (Some a) sc)
         by (rewrite (fireJob_due j _ dl sw Hj eq_refl); [reflexivity |];
             subst sw d; cbn; lia).
  all: assert (Hjc : jobs sc !! j
                     = Some (mkJob (DADJob addr (Some a)) (Z.of_nat _) None))
         by (subst sc sw; cbn; rewrite lookup_alter_eq, Hj; reflexivity).
  - destruct (dadJob_fn_done j addr a st _ None sc Hd Hjc Ha Hk Hc)
      as (s' & Hrun & Hae & Hdad & Hev & Hwire & Hst & _).
    exists s'. split.
    { apply firings_wait with (d := d); [subst d; lia |].
      apply firings_fire with (s := sw) (s1 := s');
        [rewrite Hfire; exact Hrun | apply firings_done]. }
    rewrite Hae, lookup_insert_eq, Hdad, Hwire, Hst, Hev. cbn.
    rewrite app_nil_r, Z.add_0_r. auto 10.
  - destruct (dadJob_fn_sends j addr a st _ None sc Hd Hjc Ha Hk
                ltac:(lia) (Hw _ _))
      as (s1 & Hrun & Hwire & Hns & Hjobs & Hdad & Hev & Hae & Hep & Hcf & Hcl).
    assert (Hu : u8 (Z.of_nat (S n) - 1) = Z.of_nat n)
      by (unfold u8; rewrite Z.mod_small; lia).
    destruct (IH st (clock sc + RetransmitTimer (configs sc)) s1)
      as (s' & Hfs & Hk' & Hdad' & Hwire' & Hns' & Hev'); try assumption.
    { rewrite Hdad. exact Hd. }
    { rewrite Hjobs, lookup_insert_eq, Hu. reflexivity. }
    { rewrite Hae. exact Ha. }
    { lia. }
    { rewrite Hep. exact Hw. }
    exists s'. split.
    { apply firings_wait with (d := d); [subst d; lia |].
      apply firings_fire with (s := sw) (s1 := s1);
        [rewrite Hfire; exact Hrun | exact Hfs]. }
    split; [exact Hk' |].
    rewrite Hdad', Hdad, Hwire', Hwire, Hns', Hns, Hev', Hev.
    unfold notified. rewrite Hep. cbn [replicate].
    rewrite <- app_assoc. cbn. split; [reflexivity |].
    split; [reflexivity |]. split; [lia | reflexivity].
Qed.

(** X7: DAD started and stopped right away.  The DAD table is as before the
    start, nothing has been sent, the only dispatcher call is the one of
    [stopDuplicateAddressDetection] (DAD did not resolve), the address is
    still tentative, and the job is left cancelled: a firing of it does
    nothing, whatever the time. *)
Theorem startDAD_then_stop (addr : Address) (a : AddressEndpoint)
    (st : AddressState) (s : ndpState) :
  IsV6UnicastAddress addr = true →
  addressEndpoints s !! a = Some st →
  ae_Kind st = PermanentTentative →
  dad s !! addr = None →
  DupAddrDetectTransmits (configs s) ≠ 0 →
  ∃ s1 s2,
    startDuplicateAddressDetection addr (Some a) s = Some (None, s1)
    ∧ stopDuplicateAddressDetection addr s1 = Some (tt, s2)
    ∧ dad s2 = dad s
    ∧ wire s2 = wire s
    ∧ events s2 = events s ++
        notified s (OnDuplicateAddressDetectionStatus (nic_ID (ep s)) addr
                      false None)
    ∧ addressEndpoints s2 = addressEndpoints s
    ∧ scheduledAt s2 (nextJob s) = None
    ∧ ∀ d, fireJob (nextJob s) (upd_clock (λ t, t + d) s2)
           = Some (tt, upd_clock (λ t, t + d) s2).
Proof.
  intros Hu Ha Hk Hd Hn.
  unfold startDuplicateAddressDetection, stopDuplicateAddressDetection,
    GetKind, onAddressEndpoint, NewJob, Job_Schedule, Job_Cancel, notify, emit,
    notified.
  assert (Hsched : ∀ (m : gmap JobRef Job) k x f g,
            alter f k (alter g k (<[k:=x]> m)) !! k ≫= job_deadline
            = job_deadline (f (g x))).
  { intros. rewrite !lookup_alter_eq, lookup_insert_eq. reflexivity. }
  rewrite Hu. run. rewrite Ha. run. rewrite Hk. decided. rewrite Hd. run.
  destruct (Z.eqb_spec (DupAddrDetectTransmits (configs s)) 0); [contradiction |].
  run. destruct (NDPDisp (ep s)) eqn:Hdisp.
  all: eexists; eexists; (split; [reflexivity |]); run;
    rewrite lookup_insert_eq; run; rewrite ?Hdisp; run;
    (split; [reflexivity |]); cbn;
    rewrite delete_insert_id by exact Hd; rewrite ?app_nil_r;
    (do 4 (split; [reflexivity |]));
    (split; [unfold scheduledAt; cbn; apply Hsched |]);
    intros d; apply fireJob_idle; unfold scheduledAt; cbn; rewrite Hsched;
    exact I.
Qed.

(** ** More on Router Advertisements *)

Lemma bind_ext {A B : Type} (m : M A) (k k' : A → M B) s :
  (∀ a s1, k a s1 = k' a s1) → bind m k s = bind m k' s.
Proof. intros Hk. unfold bind. destruct (m s) as [[a s1]|]; auto. Qed.

Lemma bind_returned {A B : Type} (m : M A) (k : A → M B) s a s1 :
  m s = Some (a, s1) → bind m k s = k a s1.
Proof. intros Hm. unfold bind. rewrite Hm. reflexivity. Qed.

Lemma foldM_app {A B : Type} (body : B → A → M B) (l1 l2 : list A) :
  ∀ acc s, foldM body acc (l1 ++ l2) s
           = bind (foldM body acc l1) (λ acc', foldM body acc' l2) s.
Proof.
  induction l1 as [| x l1 IH]; intros acc s; cbn [foldM app]; [reflexivity |].
  rewrite run_bind_bind. apply bind_ext. intros acc' s1. apply IH.
Qed.

(** X8: an endpoint that is configured not to handle Router Advertisements,
    or that forwards packets, ignores a Router Advertisement altogether:
    [handleRA] returns the state unchanged. *)
Theorem handleRA_disabled (ip : Address) (ra : NDPRouterAdvert) (s : ndpState) :
  HandleRAs (configs s) = false ∨ Forwarding (ep s) = true →
  handleRA ip ra s = Some (tt, s).
Proof.
  intros Hoff. unfold handleRA. run.
  destruct Hoff as [-> | ->]; rewrite ?orb_true_r; reflexivity.
Qed.

(** X9: a Prefix Information option for a link-local prefix, or whose
    prefix length is zero, is skipped: a Router Advertisement that carries
    one is handled as the same advertisement without it, whatever the flags
    and lifetimes of the option. *)
Theorem handleRA_skips_prefix (ip : Address) (managed other : bool)
    (rl : Duration) (before after : list NDPOption)
    (pi : NDPPrefixInformation) (s : ndpState) :
  IsV6LinkLocalAddress (subnet_ID (pi_Subnet pi)) = true
  ∨ subnet_Prefix (pi_Subnet pi) = 0 →
  handleRA ip
    (mkNDPRouterAdvert managed other rl
       (before ++ NDPPrefixInformationOption pi :: after)) s
  = handleRA ip (mkNDPRouterAdvert managed other rl (before ++ after)) s.
Proof.
  intros Hskip. unfold handleRA. run.
  destruct (negb (HandleRAs (configs s)) || Forwarding (ep s)); [reflexivity |].
  apply bind_ext. intros _ s1. apply bind_ext. intros _ s2.
  unfold forEach. rewrite !foldM_app. apply bind_ext. intros [] s3.
  cbn [foldM]. unfold handleRA_option at 1.
  destruct Hskip as [-> | ->]; [| destruct (IsV6LinkLocalAddress _)]; reflexivity.
Qed.

(** X10: the DHCPv6 signal of a Router Advertisement.  With a dispatcher,
    the configuration signalled (Managed before Other before none) is
    stored, [OnDHCPv6Configuration] is called only if it differs from the
    stored one, and the same advertisement again changes nothing and calls
    nothing.  Without a dispatcher the stored configuration is not
    updated. *)
Theorem handleRA_dhcpv6_signal (ra : NDPRouterAdvert) (s : ndpState) :
  match NDPDisp (ep s) with
  | None => handleRA_dhcpv6 ra s = Some (tt, s)
  | Some _ =>
      ∃ s', handleRA_dhcpv6 ra s = Some (tt, s')
        ∧ dhcpv6Configuration s' = signalled ra
        ∧ events s' = events s ++
            (if dhcpv6Configuration s =? signalled ra then []
             else [OnDHCPv6Configuration (nic_ID (ep s)) (signalled ra)])
        ∧ handleRA_dhcpv6 ra s' = Some (tt, s')
  end.
Proof.
  unfold handleRA_dhcpv6, emit. fold (signalled ra). run.
  destruct (NDPDisp (ep s)) eqn:Hd; [| reflexivity]. run.
  destruct (Z.eqb_spec (dhcpv6Configuration s) (signalled ra)) as [Heq | Hne]; run.
  - exists s. run. rewrite app_nil_r, Hd. run. rewrite Heq, Z.eqb_refl. auto.
  - eexists. split; [reflexivity |]. run. rewrite Hd. run.
    rewrite Z.eqb_refl. auto.
Qed.

(** X11: a default router discovered and withdrawn.  A Router
    Advertisement with a non-zero router lifetime from an unknown router,
    with room in the table and an integrator that accepts it, records the
    router with an invalidation job due when the lifetime ends and calls
    [OnDefaultRouterDiscovered]; an advertisement with a zero lifetime from
    that router then removes it again, cancels the job and calls
    [OnDefaultRouterInvalidated]: the table is as it was. *)
Theorem router_discovered_then_withdrawn (ip : Address)
    (ra ra0 : NDPRouterAdvert) (disp : NDPDispatcher) (s : ndpState) :
  DiscoverDefaultRouters (configs s) = true →
  defaultRouters s !! ip = None →
  (size (defaultRouters s) < MaxDiscoveredDefaultRouters)%nat →
  NDPDisp (ep s) = Some disp →
  rememberRouter disp (events s) ip = true →
  ra_RouterLifetime ra ≠ 0 →
  ra_RouterLifetime ra0 = 0 →
  ∃ s1 s2,
    handleRA_defaultRouter ip ra s = Some (tt, s1)
    ∧ defaultRouters s1
      = <[ip := mkDefaultRouterState (nextJob s)]> (defaultRouters s)
    ∧ jobs s1 !! nextJob s
      = Some (mkJob (DefaultRouterInvalidationJob ip) 0
                (Some (clock s + ra_RouterLifetime ra)))
    ∧ events s1 = events s ++ [OnDefaultRouterDiscovered (nic_ID (ep s)) ip]
    ∧ handleRA_defaultRouter ip ra0 s1 = Some (tt, s2)
    ∧ defaultRouters s2 = defaultRouters s
    ∧ scheduledAt s2 (nextJob s) = None
    ∧ events s2 = events s ++ [OnDefaultRouterDiscovered (nic_ID (ep s)) ip;
                               OnDefaultRouterInvalidated (nic_ID (ep s)) ip].
Proof.
  intros Hon Hnew Hroom Hdisp Hyes Hrl Hrl0.
  apply Nat.ltb_lt in Hroom. cbn in Hroom.
  unfold handleRA_defaultRouter, rememberDefaultRouter, invalidateDefaultRouter,
    ask, NewJob, Job_Schedule, Job_Cancel, notify, emit, scheduledAt.
  run. rewrite Hon. run. rewrite Hnew. run.
  destruct (Z.eqb_spec (ra_RouterLifetime ra) 0); [contradiction |]. run.
  rewrite Hroom. run. rewrite Hdisp. run. rewrite Hyes. run.
  eexists. eexists. split; [reflexivity |]. cbn.
  split; [reflexivity |].
  split; [rewrite lookup_alter_eq, lookup_insert_eq; reflexivity |].
  split; [reflexivity |].
  run. rewrite Hon. run. rewrite lookup_insert_eq, Hrl0. run.
  rewrite lookup_insert_eq. run. rewrite Hdisp. run.
  split; [reflexivity |]. cbn.
  rewrite delete_insert_id by exact Hnew.
  rewrite !lookup_alter_eq, lookup_insert_eq, <- app_assoc. auto.
Qed.

(** X12: the lifetime of a known default router.  A Router Advertisement
    with a non-zero router lifetime from a router in the table changes
    neither the table nor the trace; it moves the invalidation of the router
    to the end of the new lifetime, whatever was left of the old one: until
    then a firing of the job does nothing, from then on it removes the
    router and calls [OnDefaultRouterInvalidated]. *)
Theorem router_lifetime (ip : Address) (ra : NDPRouterAdvert) (j : JobRef)
    (r : Z) (dl : option Time) (s : ndpState) :
  DiscoverDefaultRouters (configs s) = true →
  defaultRouters s !! ip = Some (mkDefaultRouterState j) →
  jobs s !! j = Some (mkJob (DefaultRouterInvalidationJob ip) r dl) →
  ra_RouterLifetime ra ≠ 0 →
  ∃ s1, handleRA_defaultRouter ip ra s = Some (tt, s1)
    ∧ defaultRouters s1 = defaultRouters s
    ∧ events s1 = events s
    ∧ scheduledAt s1 j = Some (clock s + ra_RouterLifetime ra)
    ∧ (∀ d, d < ra_RouterLifetime ra →
            fireJob j (later d s1) = Some (tt, later d s1))
    ∧ (∀ d, ra_RouterLifetime ra ≤ d →
            ∃ s2, fireJob j (later d s1) = Some (tt, s2)
              ∧ defaultRouters s2 = delete ip (defaultRouters s)
              ∧ scheduledAt s2 j = None
              ∧ events s2 = events s ++
                  notified s (OnDefaultRouterInvalidated (nic_ID (ep s)) ip)).
Proof.
  intros Hon Hip Hj Hrl.
  unfold handleRA_defaultRouter, Job_Schedule, Job_Cancel.
  run. rewrite Hon. run. rewrite Hip. run.
  destruct (Z.eqb_spec (ra_RouterLifetime ra) 0); [contradiction |]. run.
  eexists. split; [reflexivity |]. cbn.
  split; [apply insert_id; exact Hip |]. split; [reflexivity |].
  assert (Hjob : ∀ (f g : Job → Job),
            alter f j (alter g j (jobs s)) !! j
            = Some (f (g (mkJob (DefaultRouterInvalidationJob ip) r dl)))).
  { intros. rewrite !lookup_alter_eq, Hj. reflexivity. }
  split; [unfold scheduledAt; cbn; rewrite Hjob; reflexivity |].
  split; intros d Hd.
  - apply fireJob_idle. unfold scheduledAt, later. cbn. rewrite Hjob. cbn. lia.
  - erewrite fireJob_due;
      [| unfold later; cbn; apply Hjob | reflexivity | unfold later; cbn; lia].
    cbn [runJob job_fn].
    unfold invalidateDefaultRouter, Job_Cancel, notify, emit, notified, later,
      scheduledAt.
    run. rewrite lookup_insert_eq. run.
    destruct (NDPDisp (ep s)); run; eexists; (split; [reflexivity |]); cbn;
      rewrite delete_insert_eq, !lookup_alter_eq, Hj, ?app_nil_r; auto.
Qed.

(** X13: the lifetime of a known on-link prefix.  A Prefix Information
    option with a zero valid lifetime removes the prefix at once and calls
    [OnOnLinkPrefixInvalidated].  With a non-zero one, table and trace are
    unchanged and the invalidation job is moved to the end of the new
    lifetime or, when the lifetime is infinite, left unscheduled, so that no
    firing of it ever removes the prefix. *)
Theorem onLinkPrefix_lifetime (pi : NDPPrefixInformation) (j : JobRef)
    (r : Z) (dl : option Time) (s : ndpState) :
  onLinkPrefixes s !! pi_Subnet pi = Some (mkOnLinkPrefixState j) →
  jobs s !! j = Some (mkJob (OnLinkPrefixInvalidationJob (pi_Subnet pi)) r dl) →
  ∃ s1, handleOnLinkPrefixInformation pi s = Some (tt, s1)
    ∧ if pi_ValidLifetime pi =? 0 then
        onLinkPrefixes s1 = delete (pi_Subnet pi) (onLinkPrefixes s)
        ∧ scheduledAt s1 j = None
        ∧ events s1 = events s ++
            notified s (OnOnLinkPrefixInvalidated (nic_ID (ep s)) (pi_Subnet pi))
      else
        onLinkPrefixes s1 = onLinkPrefixes s
        ∧ events s1 = events s
        ∧ if pi_ValidLifetime pi <? NDPInfiniteLifetime then
            scheduledAt s1 j = Some (clock s + pi_ValidLifetime pi)
          else
            scheduledAt s1 j = None
            ∧ ∀ d, fireJob j (later d s1) = Some (tt, later d s1).
Proof.
  intros Hp Hj.
  unfold handleOnLinkPrefixInformation, invalidateOnLinkPrefix, Job_Schedule,
    Job_Cancel, notify, emit, notified, scheduledAt.
  run. rewrite Hp. run.
  destruct (Z.eqb_spec (pi_ValidLifetime pi) 0); run.
  { rewrite Hp. run.
    destruct (NDPDisp (ep s)); run; eexists; (split; [reflexivity |]); cbn;
      rewrite lookup_alter_eq, Hj, ?app_nil_r; auto. }
  destruct (Z.ltb_spec (pi_ValidLifetime pi) NDPInfiniteLifetime); run.
  - eexists. split; [reflexivity |]. cbn.
    rewrite insert_id, !lookup_alter_eq, Hj by exact Hp. auto.
  - eexists. split; [reflexivity |]. cbn.
    rewrite insert_id, !lookup_alter_eq, Hj by exact Hp.
    do 3 (split; [reflexivity |]).
    intros d. apply fireJob_idle. unfold scheduledAt, later. cbn.
    rewrite lookup_alter_eq, Hj. exact I.
Qed.

(** X14: what is not discovered.  A Prefix Information option for an
    unknown prefix is ignored when its valid lifetime is zero, when the
    discovery of on-link prefixes is switched off or when no dispatcher is
    registered; a Router Advertisement from an unknown router is ignored, as
    far as the router is concerned, when its router lifetime is zero, when
    the discovery of default routers is switched off or when no dispatcher is
    registered.  The state is returned as it is. *)
Theorem discovery_ignored (s : ndpState) :
  (∀ pi, onLinkPrefixes s !! pi_Subnet pi = None →
         pi_ValidLifetime pi = 0 ∨ DiscoverOnLinkPrefixes (configs s) = false
         ∨ NDPDisp (ep s) = None →
         handleOnLinkPrefixInformation pi s = Some (tt, s))
  ∧ (∀ ip ra, defaultRouters s !! ip = None →
              ra_RouterLifetime ra = 0 ∨ DiscoverDefaultRouters (configs s) = false
              ∨ NDPDisp (ep s) = None →
              handleRA_defaultRouter ip ra s = Some (tt, s)).
Proof.
  split.
  - intros pi Hnew Hwhy.
    unfold handleOnLinkPrefixInformation, rememberOnLinkPrefix.
    run. rewrite Hnew.
    destruct (Z.eqb_spec (pi_ValidLifetime pi) 0); run; [reflexivity |].
    destruct Hwhy as [? | [-> | Hd]]; [contradiction | reflexivity |].
    destruct (_ && _); run; [| reflexivity]. rewrite Hd. reflexivity.
  - intros ip ra Hnew Hwhy.
    unfold handleRA_defaultRouter, rememberDefaultRouter. run.
    destruct (DiscoverDefaultRouters (configs s)) eqn:Hon; run; [| reflexivity].
    rewrite Hnew.
    destruct (Z.eqb_spec (ra_RouterLifetime ra) 0); run; [reflexivity |].
    destruct Hwhy as [? | [? | Hd]]; [contradiction | discriminate |].
    destruct (_ <=? _)%nat; run; [| reflexivity]. rewrite Hd. reflexivity.
Qed.

(** X15: the veto of the integrator.  When [OnDefaultRouterDiscovered]
    (or [OnOnLinkPrefixDiscovered]) returns [false], the router (the prefix)
    is not remembered: the call is the only trace left, no job is created and
    the tables are as they were. *)
Theorem discovery_vetoed (disp : NDPDispatcher) (s : ndpState) :
  NDPDisp (ep s) = Some disp →
  (∀ ip rl, rememberRouter disp (events s) ip = false →
            rememberDefaultRouter ip rl s
            = Some (tt, upd_events
                          (λ t, t ++ [OnDefaultRouterDiscovered (nic_ID (ep s)) ip])
                          s))
  ∧ (∀ p l, rememberPrefix disp (events s) p = false →
            rememberOnLinkPrefix p l s
            = Some (tt, upd_events
                          (λ t, t ++ [OnOnLinkPrefixDiscovered (nic_ID (ep s)) p])
                          s)).
Proof.
  intros Hd. split; intros x l Hno.
  - unfold rememberDefaultRouter, ask, emit. run. rewrite Hd. run.
    rewrite Hno. reflexivity.
  - unfold rememberOnLinkPrefix, ask, emit. run. rewrite Hd. run.
    rewrite Hno. reflexivity.
Qed.

(** ** More on Router Solicitation *)

(** X16: [startSolicitingRouters] does nothing when routers are being
    solicited already or when [MaxRtrSolicitations] is zero: no second job,
    no reset of the burst. *)
Theorem startSolicitingRouters_noop (s : ndpState) :
  is_Some (rtrSolicitJob s) ∨ MaxRtrSolicitations (configs s) = 0 →
  startSolicitingRouters s = Some (tt, s).
Proof.
  intros Hwhy. unfold startSolicitingRouters. run.
  destruct (rtrSolicitJob s) as [j|]; run; [reflexivity |].
  destruct Hwhy as [[j [=]] | ->]. reflexivity.
Qed.

(** X17: [stopSolicitingRouters] with a burst in progress forgets the job
    and cancels it: nothing is written, no later firing of the job does
    anything, and [startSolicitingRouters] then starts a fresh burst, with a
    new job holding the full count.  With no burst in progress it does
    nothing. *)
Theorem stopSolicitingRouters_stops (s : ndpState) :
  match rtrSolicitJob s with
  | None => stopSolicitingRouters s = Some (tt, s)
  | Some j =>
      ∃ s', stopSolicitingRouters s = Some (tt, s')
        ∧ rtrSolicitJob s' = None
        ∧ scheduledAt s' j = None
        ∧ wire s' = wire s ∧ stats s' = stats s
        ∧ (∀ d, fireJob j (later d s') = Some (tt, later d s'))
        ∧ (MaxRtrSolicitations (configs s) ≠ 0 →
           ∃ s'', startSolicitingRouters s' = Some (tt, s'')
             ∧ rtrSolicitJob s'' = Some (nextJob s)
             ∧ jobs s'' !! nextJob s
               = Some (mkJob RtrSolicitJob (MaxRtrSolicitations (configs s))
                         (Some (clock s + firstSolicitationDelay s))))
  end.
Proof.
  unfold stopSolicitingRouters, Job_Cancel. run.
  destruct (rtrSolicitJob s) as [j|] eqn:Hj; run; [| reflexivity].
  eexists. split; [reflexivity |]. cbn. split; [reflexivity |].
  assert (Hoff : alter (λ b, mkJob (job_fn b) (job_remaining b) None) j (jobs s)
                   !! j ≫= job_deadline = None).
  { rewrite lookup_alter_eq. destruct (jobs s !! j); reflexivity. }
  split; [exact Hoff |]. do 2 (split; [reflexivity |]).
  split.
  - intros d. apply fireJob_idle. unfold scheduledAt, later. cbn.
    rewrite Hoff. exact I.
  - intros Hmax. unfold startSolicitingRouters, NewJob, Job_Schedule,
      firstSolicitationDelay.
    run. destruct (Z.eqb_spec (MaxRtrSolicitations (configs s)) 0);
      [contradiction |].
    run. eexists. split; [reflexivity |]. cbn. split; [reflexivity |].
    rewrite lookup_alter_eq, lookup_insert_eq. reflexivity.
Qed.

(** X18: the Router Solicitation of one firing.  The job hands the NIC one
    packet for the all-routers multicast address with hop limit 255.  Its
    source is the unspecified address or the primary address the endpoint
    chose; with the unspecified source it carries no source link-layer
    address option, and an option it carries is the valid link address of
    the NIC.  The packet is on the wire if the NIC took it, and nothing is
    written otherwise. *)
Theorem routerSolicit_packet (j : JobRef) (r : Z) (dl : option Time)
    (s : ndpState) :
  rtrSolicitJob s = Some j →
  jobs s !! j = Some (mkJob RtrSolicitJob r dl) →
  ∃ s' src opt,
    rtrSolicitJob_fn j s = Some (tt, s')
    ∧ (src = IPv6Any
       ∨ outgoingPrimaryAddress (ep s) (addressEndpoints s)
           IPv6AllRoutersMulticastAddress = Some src)
    ∧ (src = IPv6Any → opt = None)
    ∧ (∀ l, opt = Some l →
            l = nic_LinkAddress (ep s)
            ∧ IsValidUnicastEthernetAddress l = true)
    ∧ wire s'
      = match nic_WritePacketToRemote (ep s) (wire s) (routerSolicit src opt) with
        | None => wire s ++ [routerSolicit src opt]
        | Some _ => wire s
        end.
Proof.
  intros Hj Hb.
  unfold rtrSolicitJob_fn, acquireOutgoingPrimaryAddressRLocked,
    GetAddressWithPrefix, DecRef, onAddressEndpoint, setRemaining, getRemaining,
    Job_Schedule, routerSolicit, NDPHopLimit.
  run.
  destruct (outgoingPrimaryAddress (ep s) (addressEndpoints s) _)
    as [a|] eqn:Hout; run.
  1: destruct (addressEndpoints s !! a) as [st|] eqn:Ha; run.
  1: rewrite lookup_insert_eq; run; rewrite lookup_insert_eq; run.
  all: match goal with
       | |- context [nic_WritePacketToRemote ?e ?w ?p] =>
           destruct (nic_WritePacketToRemote e w p) eqn:Hw
       end; run.
  all: repeat first [ progress run
                    | progress rewrite ?lookup_alter_eq, ?Hb, ?Hj
                    | run_case ].
  all: eexists; eexists; eexists; (split; [reflexivity |]); cbn.
  all: rewrite ?Hw.
  all: split; [auto |].
  all: split;
    [intros Hsrc; rewrite ?bool_decide_eq_true_2 by (exact Hsrc || reflexivity);
     reflexivity |].
  all: split; [| reflexivity].
  all: intros l; destruct (bool_decide _); cbn; try discriminate;
    destruct (IsValidUnicastEthernetAddress _) eqn:Hv; cbn;
    intros [= <-]; auto.
Qed.

(** ** More on SLAAC *)

Lemma refreshValidLifetime_floor st vl now :
  returns (λ r, (NDPInfiniteLifetime ≤ vl → validUntil r = 0)
                ∧ (vl < NDPInfiniteLifetime →
                   MinPrefixInformationValidLifetimeForUpdate < vl
                   ∨ remainingLifetime st now < vl →
                   vl ≠ 0 → validUntil r = now + vl)
                ∧ (validUntil r = 0
                   ∨ Z.min (remainingLifetime st now)
                       MinPrefixInformationValidLifetimeForUpdate
                     ≤ validUntil r - now))
    (refreshValidLifetime st vl now).
Proof.
  unfold refreshValidLifetime, remainingLifetime.
  destruct (Z.geb_spec vl NDPInfiniteLifetime).
  { repeat result_step. cbn. split; [auto |]. split; [lia | auto]. }
  destruct (Z.eqb_spec (validUntil st) 0) as [Hz | Hz].
  all: cbv beta iota zeta.
  all: match goal with
       | |- context [(?a >? ?b) || (?a >? ?c)] =>
           destruct (Z.gtb_spec a b); cbn [orb];
           [| destruct (Z.gtb_spec a c)]
       end.
  all: try match goal with
       | |- context [if ?a >? ?b then _ else _] => destruct (Z.gtb_spec a b)
       end.
  all: repeat match goal with
       | |- context [negb (?a =? 0)] => destruct (Z.eqb_spec a 0); cbn [negb]
       end.
  all: repeat result_step; cbn.
  all: unfold MinPrefixInformationValidLifetimeForUpdate, Hour, Minute, Second,
         Millisecond in *.
  all: split; [intros; lia |]; split; [intros ? [?|?] ?; lia || reflexivity |].
  all: first [left; assumption || reflexivity | right; lia | left; lia].
Qed.

(** X19: the floor of RFC 4862 section 5.5.3.e.  Whatever valid lifetime a
    Prefix Information option advertises for a known SLAAC prefix, when
    [handleAutonomousPrefixInformation] returns the prefix is still there and
    is valid for ever, or it is valid for at least the smaller of what was
    left to it and two hours: an advertisement cannot cut a prefix short.  An infinite lifetime makes the
    prefix valid for ever; a finite non-zero one above two hours, or above
    what was left, is taken as it is. *)
Theorem refresh_valid_lifetime_floor (pi : NDPPrefixInformation)
    (st : slaacPrefixState) (s s' : ndpState) :
  slaacPrefixes s !! pi_Subnet pi = Some st →
  pi_PreferredLifetime pi ≤ pi_ValidLifetime pi →
  handleAutonomousPrefixInformation pi s = Some (tt, s') →
  ∃ st', slaacPrefixes s' !! pi_Subnet pi = Some st'
    ∧ clock s' = clock s
    ∧ (NDPInfiniteLifetime ≤ pi_ValidLifetime pi → validUntil st' = 0)
    ∧ (pi_ValidLifetime pi < NDPInfiniteLifetime →
       MinPrefixInformationValidLifetimeForUpdate < pi_ValidLifetime pi
       ∨ remainingLifetime st (clock s) < pi_ValidLifetime pi →
       pi_ValidLifetime pi ≠ 0 →
       validUntil st' = clock s + pi_ValidLifetime pi)
    ∧ (validUntil st' = 0
       ∨ Z.min (remainingLifetime st (clock s))
           MinPrefixInformationValidLifetimeForUpdate
         ≤ validUntil st' - clock s).
Proof.
  intros Hst Hpl. unfold handleAutonomousPrefixInformation.
  destruct (Z.gtb_spec (pi_PreferredLifetime pi) (pi_ValidLifetime pi)); [lia |].
  run. rewrite Hst. intros Hrun.
  apply bind_Some in Hrun as (r & s1 & Hrefresh & Hput).
  apply modify_Some in Hput as ->. cbn.
  pose proof (refreshSLAACPrefixLifetimes_aside _ _ _ _ _ _ _ Hrefresh)
    as (_ & _ & _ & _ & Hclock & _).
  exists r. rewrite lookup_insert_eq. split; [reflexivity |].
  split; [exact Hclock |].
  unfold refreshSLAACPrefixLifetimes in Hrefresh.
  rewrite run_bind_gets in Hrefresh.
  refine (_ : (λ r, _ ∧ _ ∧ _) r). revert Hrefresh.
  generalize (clock s) as now. intros now. generalize s r s1.
  eapply returns_bind_with;
    [apply refreshPreferredLifetime_validUntil | cbv beta; intros st1 H1].
  eapply returns_bind_with;
    [apply (refreshValidLifetime_floor st1) | cbv beta; intros st2 H2].
  eapply returns_conseq; [apply refreshTempAddrs_validUntil |].
  cbv beta. intros st3 H3. rewrite H3.
  unfold remainingLifetime in *. rewrite H1 in H2. exact H2.
Qed.

(** X20: the preferred lifetime of a refreshed prefix.  The first part of
    [refreshSLAACPrefixLifetimes] leaves the stable address deprecated exactly
    when the advertised preferred lifetime is zero, calling
    [OnAutoGenAddressDeprecated] only if the address was not deprecated
    before; an address that was deprecated is preferred again with a non-zero
    lifetime.  The deprecation job is due at the end of a finite non-zero
    lifetime and is left unscheduled otherwise. *)
Theorem refresh_preferred_lifetime (st : slaacPrefixState) (a : AddressEndpoint)
    (ast : AddressState) (b : Job) (pl : Duration) (now : Time) (s : ndpState) :
  stableAddr_addressEndpoint st = Some a →
  addressEndpoints s !! a = Some ast →
  jobs s !! deprecationJob st = Some b →
  ∃ s', refreshPreferredLifetime st pl now s
        = Some (set_preferredUntil
                  (if pl <? NDPInfiniteLifetime then now + pl else 0) st, s')
    ∧ (ae_Deprecated <$> addressEndpoints s' !! a) = Some (pl =? 0)
    ∧ events s' = events s ++
        (if (pl =? 0) && negb (ae_Deprecated ast)
         then notified s (OnAutoGenAddressDeprecated (nic_ID (ep s))
                            (mkAddressWithPrefix a (ae_PrefixLen ast)))
         else [])
    ∧ scheduledAt s' (deprecationJob st)
      = (if (pl <? NDPInfiniteLifetime) && negb (pl =? 0)
         then Some (clock s + pl) else None).
Proof.
  intros Ha Hast Hb.
  unfold refreshPreferredLifetime, deprecateSLAACAddress, Deprecated,
    SetDeprecated, GetAddressWithPrefix, onAddressEndpoint, Job_Cancel,
    Job_Schedule, notify, emit, notified, scheduledAt.
  rewrite Ha.
  destruct (Z.eqb_spec pl 0) as [Hz | Hz];
    destruct (ae_Deprecated ast) eqn:Hdep;
    destruct (NDPDisp (ep s)) eqn:Hd;
    destruct (Z.ltb_spec pl NDPInfiniteLifetime).
  all: do 5 (run; rewrite ?lookup_insert_eq, ?Hast, ?Hdep, ?Hd).
  all: eexists; (split; [reflexivity |]); cbn.
  all: rewrite ?lookup_insert_eq, ?lookup_alter_eq, ?Hb, ?Hast, ?app_nil_r; cbn.
  all: rewrite ?Hdep; auto.
Qed.

(** X21: a Prefix Information option for a prefix NDP has no SLAAC state for
    starts nothing when the generation of global addresses is switched off,
    when its valid lifetime is zero or when the prefix is not 64 bits long:
    [handleAutonomousPrefixInformation] returns the state unchanged. *)
Theorem handleAutonomousPrefixInformation_declines
    (pi : NDPPrefixInformation) (s : ndpState) :
  slaacPrefixes s !! pi_Subnet pi = None →
  AutoGenGlobalAddresses (configs s) = false
  ∨ pi_ValidLifetime pi = 0
  ∨ subnet_Prefix (pi_Subnet pi) ≠ validPrefixLenForAutoGen →
  handleAutonomousPrefixInformation pi s = Some (tt, s).
Proof.
  intros Hnew Hwhy. unfold handleAutonomousPrefixInformation, doSLAAC.
  destruct (pi_PreferredLifetime pi >? pi_ValidLifetime pi); [reflexivity |].
  run. rewrite Hnew. run.
  destruct (AutoGenGlobalAddresses (configs s)); run; [| reflexivity].
  destruct (Z.eqb_spec (pi_ValidLifetime pi) 0); [reflexivity |].
  destruct (Z.eqb_spec (subnet_Prefix (pi_Subnet pi)) validPrefixLenForAutoGen);
    [| reflexivity].
  destruct Hwhy as [? | [? | ?]]; [discriminate | contradiction | contradiction].
Qed.

(** Without opaque interface identifiers, no second address can be derived
    for a prefix. *)
Lemma generateSLAACAddr_loop_stuck n prefix st addrBytes s :
  OpaqueIIDOpts_NICNameFromID (ep s) = None →
  u8 (generationAttempts st + stableAddr_localGenerationFailures st) ≠ 0 →
  generateSLAACAddr_loop (S n) prefix st addrBytes s = Some ((None, st), s).
Proof.
  intros Hop Hctr. cbn [generateSLAACAddr_loop]. run. rewrite Hop.
  destruct (Z.eqb_spec
              (u8 (generationAttempts st + stableAddr_localGenerationFailures st))
              0); [contradiction | reflexivity].
Qed.

(** X22: when the stable address of a SLAAC prefix cannot be regenerated,
    the prefix is given up.  If the prefix has used up its generation
    attempts, or addresses are derived from the link address (no opaque
    interface identifiers) and an attempt has already been made or failed,
    [regenerateSLAACAddr], when it returns, has removed the prefix and no
    other. *)
Theorem regenerateSLAACAddr_gives_up (prefix : Subnet) (st : slaacPrefixState)
    (s s' : ndpState) :
  slaacPrefixes s !! prefix = Some st →
  stableAddr_addressEndpoint st = None →
  generationAttempts st = maxGenerationAttempts st
  ∨ (OpaqueIIDOpts_NICNameFromID (ep s) = None
     ∧ u8 (generationAttempts st + stableAddr_localGenerationFailures st) ≠ 0) →
  regenerateSLAACAddr prefix s = Some (tt, s') →
  slaacPrefixes s' !! prefix = None
  ∧ dom (slaacPrefixes s') = dom (slaacPrefixes s) ∖ {[prefix]}.
Proof.
  intros Hst Hstable Hwhy.
  assert (Hgen : generateSLAACAddr prefix st s = Some ((false, st), s)).
  { unfold generateSLAACAddr. rewrite Hstable.
    destruct (Z.eqb_spec (generationAttempts st) (maxGenerationAttempts st));
      [reflexivity |].
    destruct Hwhy as [? | [Hop Hctr]]; [contradiction |].
    change maxSLAACAddrLocalRegenAttempts with (S 9).
    unfold bind at 1. rewrite generateSLAACAddr_loop_stuck by assumption.
    reflexivity. }
  unfold regenerateSLAACAddr. run. rewrite Hst. run.
  rewrite (bind_returned _ _ _ _ _ Hgen). cbn. intros Hinv.
  pose proof (invalidateSLAACPrefix_dom _ _ _ _ _ Hinv) as Hdom.
  split; [| exact Hdom].
  apply not_elem_of_dom. rewrite Hdom.
  intros [_ Hn]%elem_of_difference. apply Hn, elem_of_singleton. reflexivity.
Qed.

(** The loop of [generateSLAACAddr] reads the state and does not write it. *)
Lemma generateSLAACAddr_loop_reads n prefix :
  ∀ st addrBytes s r s',
  generateSLAACAddr_loop n prefix st addrBytes s = Some (r, s') → s' = s.
Proof.
  induction n as [| n IH]; intros st addrBytes s r s';
    cbn [generateSLAACAddr_loop].
  { intros [_ ->]%ret_Some. reflexivity. }
  unfold hasPermanentAddressRLocked. run.
  repeat first [progress run | run_case]; try discriminate.
  all: try (intros [_ ->]%returned; reflexivity).
  all: apply IH.
Qed.

Lemma addAndAcquireSLAACAddr_declined addr c dep s r s' :
  declining s →
  addAndAcquireSLAACAddr addr c dep s = Some (r, s') →
  r = None
  ∧ s' = match NDPDisp (ep s) with
         | Some _ => upd_events (λ t, t ++ [OnAutoGenAddress (nic_ID (ep s)) addr]) s
         | None => s
         end.
Proof.
  intros Hno. unfold addAndAcquireSLAACAddr, ask, emit. run.
  destruct (NDPDisp (ep s)) as [d|] eqn:Hd; run.
  - rewrite (Hno d Hd). run. intros [-> ->]%returned. auto.
  - intros [-> ->]%returned. auto.
Qed.

Lemma generateSLAACAddr_declined prefix st s r s' :
  declining s →
  generateSLAACAddr prefix st s = Some (r, s') →
  r.1 = false
  ∧ slaacPrefixes s' = slaacPrefixes s
  ∧ addressEndpoints s' = addressEndpoints s
  ∧ dad s' = dad s ∧ jobs s' = jobs s ∧ wire s' = wire s.
Proof.
  intros Hno. unfold generateSLAACAddr.
  destruct (stableAddr_addressEndpoint st); [discriminate |].
  destruct (generationAttempts st =? maxGenerationAttempts st).
  { intros [-> ->]%returned. auto 10. }
  intros (g & s1 & Hloop & Hrest)%bind_Some.
  apply generateSLAACAddr_loop_reads in Hloop as ->.
  destruct g as [[addr|] st1]; cbn in Hrest.
  2:{ apply returned in Hrest as [-> ->]. auto 10. }
  rewrite run_bind_gets in Hrest.
  apply bind_Some in Hrest as (ae & s2 & Hadd & Hrest).
  apply addAndAcquireSLAACAddr_declined in Hadd as [-> ->]; [| exact Hno].
  apply returned in Hrest as [-> ->].
  destruct (NDPDisp (ep s)); auto 10.
Qed.

(** X23: SLAAC needs the integrator.  When no dispatcher is registered, or
    the integrator turns down the addresses it is offered, [doSLAAC] adds no
    address to the endpoint, starts no DAD, sends nothing, schedules no job
    and keeps no state for the prefix. *)
Theorem doSLAAC_declined (prefix : Subnet) (pl vl : Duration) (s s' : ndpState) :
  declining s →
  doSLAAC prefix pl vl s = Some (tt, s') →
  slaacPrefixes s' = slaacPrefixes s
  ∧ addressEndpoints s' = addressEndpoints s
  ∧ dad s' = dad s
  ∧ wire s' = wire s
  ∧ ∀ j t, scheduledAt s' j = Some t → scheduledAt s j = Some t.
Proof.
  intros Hno. unfold doSLAAC.
  destruct (vl =? 0); [intros [_ ->]%returned; auto 10 |].
  destruct (negb (subnet_Prefix prefix =? validPrefixLenForAutoGen));
    [intros [_ ->]%returned; auto 10 |].
  unfold NewJob, makeTempAddrs. run.
  match goal with
  | |- bind (generateSLAACAddr ?p ?st) _ ?s0 = _ → _ =>
      intros (r & s1 & Hgen & Hrest)%bind_Some;
      apply (generateSLAACAddr_declined p st s0) in Hgen
        as (Hr & Hp & Ha & Hd & Hj & Hw); [| exact Hno]
  end.
  rewrite Hr in Hrest. cbn in Hrest. apply returned in Hrest as [_ ->].
  rewrite Hp, Ha, Hd, Hw. cbn. do 4 (split; [reflexivity |]).
  intros j t. unfold scheduledAt. rewrite Hj. cbn.
  destruct (decide (j = S (nextJob s))) as [-> |];
    [rewrite lookup_insert_eq; discriminate |].
  rewrite lookup_insert_ne by congruence.
  destruct (decide (j = nextJob s)) as [-> |];
    [rewrite lookup_insert_eq; discriminate |].
  rewrite lookup_insert_ne by congruence. auto.
Qed.

#[local] Instance sameTempAddrMaps_preorder : PreOrder sameTempAddrMaps.
Proof.
  split.
  - intros s. unfold sameTempAddrMaps. auto.
  - intros s1 s2 s3 (? & ? & ?) (? & ? & ?). unfold sameTempAddrMaps.
    repeat split; congruence.
Qed.

Ltac frame_side ::=
  unfold aside, keepsBounded, sameRouters, bounded, sameSLAAC, sameSLAACOnLink,
    sameSLAACDom, sameTempAddrMaps; cbn;
  rewrite ?routerDiscoveries_snoc, ?prefixDiscoveries_snoc, ?app_nil_r;
  auto 10.

Lemma startDuplicateAddressDetection_sameTempAddrMaps addr ae :
  preserves sameTempAddrMaps (startDuplicateAddressDetection addr ae).
Proof. unfold startDuplicateAddressDetection. frame. Qed.

#[local] Hint Resolve startDuplicateAddressDetection_sameTempAddrMaps : frame.

Lemma addAndAcquireSLAACAddr_sameTempAddrMaps addr c d :
  preserves sameTempAddrMaps (addAndAcquireSLAACAddr addr c d).
Proof.
  unfold addAndAcquireSLAACAddr, addAndAcquirePermanentAddressLocked. frame.
Qed.

Lemma generateTempSLAACAddr_loop_sameTempAddrMaps n a :
  preserves sameTempAddrMaps (generateTempSLAACAddr_loop n a).
Proof. induction n as [|n IH]; cbn [generateTempSLAACAddr_loop]; frame. Qed.

(** X24: the lifetimes of a new temporary address (RFC 4941 section 3.3).
    When [generateTempSLAACAddr] generates an address, the address is recorded
    in the map of the prefix as created now and not yet regenerated, with its
    three jobs scheduled: invalidation after a valid lifetime that is positive,
    at most [MaxTempAddrValidLifetime] and ends no later than the prefix;
    deprecation after a preferred lifetime that exceeds
    [RegenAdvanceDuration], is at most [MaxTempAddrPreferredLifetime] less the
    desync factor and ends no later than the preferred lifetime of the
    prefix; regeneration [RegenAdvanceDuration] before the deprecation. *)
Theorem temporary_address_lifetimes (prefix : Subnet) (st st' : slaacPrefixState)
    (reset : bool) (s s' : ndpState) :
  generateTempSLAACAddr prefix st reset s = Some ((true, st'), s') →
  ∃ addr t,
    (∀ m, tempAddrMaps s !! tempAddrs st = Some m →
          tempAddrMaps s' !! tempAddrs st = Some (<[addr := t]> m))
    ∧ tmp_createdAt t = clock s
    ∧ tmp_regenerated t = false
    ∧ ∃ vl pl,
        scheduledAt s' (tmp_invalidationJob t) = Some (clock s + vl)
        ∧ scheduledAt s' (tmp_deprecationJob t) = Some (clock s + pl)
        ∧ scheduledAt s' (tmp_regenJob t)
          = Some (clock s + (pl - RegenAdvanceDuration (configs s)))
        ∧ 0 < vl ≤ MaxTempAddrValidLifetime (configs s)
        ∧ (validUntil st ≠ 0 → clock s + vl ≤ validUntil st)
        ∧ RegenAdvanceDuration (configs s) < pl
        ∧ pl ≤ MaxTempAddrPreferredLifetime (configs s)
               - temporaryAddressDesyncFactor s
        ∧ (preferredUntil st ≠ 0 → clock s + pl ≤ preferredUntil st).
Proof.
  unfold generateTempSLAACAddr. rewrite run_bind_gets. cbv beta.
  destruct (negb (AutoGenTempGlobalAddresses (configs s)) || _);
    [intros [[=] _]%returned |].
  set (st0 := if reset then _ else st).
  assert (Hv0 : validUntil st0 = validUntil st) by (subst st0; destruct reset; reflexivity).
  assert (Hp0 : preferredUntil st0 = preferredUntil st) by (subst st0; destruct reset; reflexivity).
  assert (Ht0 : tempAddrs st0 = tempAddrs st) by (subst st0; destruct reset; reflexivity).
  cbv zeta.
  destruct (generationAttempts st0 =? maxGenerationAttempts st0);
    [intros [[=] _]%returned |].
  intros (stable & s1 & Hstable & Hrun)%bind_Some.
  assert (s1 = s) as ->.
  { revert Hstable. unfold GetAddressWithPrefix, onAddressEndpoint.
    destruct (stableAddr_addressEndpoint st0); [| discriminate].
    run. destruct (addressEndpoints s !! _); [| discriminate].
    intros [_ ->]%returned. reflexivity. }
  rewrite run_bind_gets in Hrun. cbv beta in Hrun.
  set (vl := if negb (validUntil st0 =? 0) then _ else _) in Hrun.
  destruct (Z.leb_spec vl 0) as [| Hvl];
    [apply returned in Hrun as [[=] _] |].
  rewrite run_bind_gets in Hrun. cbv beta in Hrun.
  set (pl := if negb (preferredUntil st0 =? 0) then _ else _) in Hrun.
  destruct (Z.leb_spec pl (RegenAdvanceDuration (configs s))) as [| Hpl];
    [apply returned in Hrun as [[=] _] |].
  apply bind_Some in Hrun as (g & s2 & Hloop & Hrun).
  destruct g as [generatedAddr|]; [| apply returned in Hrun as [[=] _]].
  apply bind_Some in Hrun as (ae & s3 & Hadd & Hrun).
  destruct ae as [a|]; [| apply returned in Hrun as [[=] _]].
  apply generateTempSLAACAddr_loop_sameTempAddrMaps in Hloop
    as (Hm2 & Hc2 & Hf2).
  apply addAndAcquireSLAACAddr_sameTempAddrMaps in Hadd as (Hm3 & Hc3 & Hf3).
  rewrite Hm2 in Hm3. rewrite Hc2 in Hc3. rewrite Hf2 in Hf3.
  revert Hrun. unfold NewJob, Job_Schedule, updTempAddrs. run.
  rewrite Hc3. intros [[= ->] ->]%returned. cbn.
  eexists _, _. split.
  { intros m Hm. rewrite Ht0, Hm3, lookup_alter_eq, Hm. reflexivity. }
  do 2 (split; [reflexivity |]).
  exists vl, pl. unfold scheduledAt. cbn.
  assert (Hne1 : nextJob s3 ≠ S (nextJob s3)) by lia.
  assert (Hne2 : nextJob s3 ≠ S (S (nextJob s3))) by lia.
  assert (Hne3 : S (nextJob s3) ≠ S (S (nextJob s3))) by lia.
  do 3 (split;
    [repeat first [ rewrite lookup_alter_eq | rewrite lookup_insert_eq
                  | rewrite lookup_alter_ne by congruence
                  | rewrite lookup_insert_ne by congruence ];
     reflexivity |]).
  subst vl pl. rewrite Hv0, Hp0 in *.
  destruct (Z.eqb_spec (validUntil st) 0);
    destruct (Z.eqb_spec (preferredUntil st) 0); cbn [negb] in *;
    repeat match goal with
           | H : context [?a >? ?b] |- _ => destruct (Z.gtb_spec a b)
           | |- context [?a >? ?b] => destruct (Z.gtb_spec a b)
           end; lia.
Qed.

End Properties.

(** * The statements on concrete inputs *)

Lemma startDAD_not_unicast_witness :
  IsV6UnicastAddress (Header:=demoHeader) demoMulticast = false
  ∧ startDuplicateAddressDetection (hdr:=demoHeader) demoMulticast
      (Some demoMulticast) demoTentative
    = Some (Some ErrAddressFamilyNotSupported, demoTentative).
Proof.
  split; [reflexivity |].
  apply (startDAD_not_unicast (hdr:=demoHeader)). reflexivity.
Defined.

Lemma startDAD_no_transmits_witness :
  ∃ s', startDuplicateAddressDetection (hdr:=demoHeader) demoAddr
          (Some demoAddr) demoTentative = Some (None, s')
    ∧ (ae_Kind <$> addressEndpoints s' !! demoAddr) = Some Permanent
    ∧ events s' = [OnDuplicateAddressDetectionStatus 1 demoAddr true None]
    ∧ dad s' = ∅ ∧ jobs s' = ∅ ∧ nextJob s' = O
    ∧ s' = promoted demoAddr demoAddr
             (mkAddressState 64 PermanentTentative AddressConfigStatic false 1)
             demoTentative.
Proof.
  apply (startDAD_no_transmits (hdr:=demoHeader) demoAddr demoAddr
           (mkAddressState 64 PermanentTentative AddressConfigStatic false 1)
           demoTentative); reflexivity.
Defined.

Lemma deprecateSLAACAddress_idempotent_witness :
  addressEndpoints demoTentative !! demoAddr
  = Some (mkAddressState 64 PermanentTentative AddressConfigStatic false 1)
  ∧ ∃ s', deprecateSLAACAddress (Some demoAddr) demoTentative = Some (tt, s')
      ∧ events s' = [OnAutoGenAddressDeprecated 1 (mkAddressWithPrefix demoAddr 64)]
      ∧ deprecateSLAACAddress (Some demoAddr) s' = Some (tt, s').
Proof.
  split; [reflexivity |].
  destruct (deprecateSLAACAddress_idempotent demoAddr
              (mkAddressState 64 PermanentTentative AddressConfigStatic false 1)
              demoTentative eq_refl) as (_ & s' & Hrun & _ & Hev & Hagain).
  exists s'. split; [exact Hrun |]. split; [exact Hev | exact Hagain].
Defined.

Lemma handleAutonomousPrefixInformation_drops_invalid_witness :
  pi_PreferredLifetime (demoPI Hour (2 * Hour)) > pi_ValidLifetime (demoPI Hour (2 * Hour))
  ∧ handleAutonomousPrefixInformation (hdr:=demoHeader) (iter:=demoIteration)
      (demoPI Hour (2 * Hour)) demoRefreshed
    = Some (tt, demoRefreshed).
Proof.
  split; [reflexivity |].
  apply (handleAutonomousPrefixInformation_drops_invalid (hdr:=demoHeader)
           (iter:=demoIteration) (demoPI Hour (2 * Hour))).
  reflexivity.
Defined.

(** The refresh of [demoPrefix], valid for three more hours in
    [demoRefreshed], by an option with a valid lifetime of one hour. *)
Lemma refresh_valid_lifetime_two_hour_rule_witness :
  let pi := demoPI Hour Hour in
  let s' := after (handleAutonomousPrefixInformation (hdr:=demoHeader)
                     (iter:=demoIteration) pi) demoRefreshed in
  handleAutonomousPrefixInformation (hdr:=demoHeader) (iter:=demoIteration) pi
    demoRefreshed = Some (tt, s')
  ∧ validUntil demoPrefixState = clock demoRefreshed + 3 * Hour
  ∧ clock s' = clock demoRefreshed
  ∧ ∃ st', slaacPrefixes s' !! pi_Subnet pi = Some st'
      ∧ (pi_ValidLifetime pi = Hour → validUntil st' - clock s' = 2 * Hour)
      ∧ (pi_ValidLifetime pi = 3 * Hour → validUntil st' - clock s' = 3 * Hour).
Proof.
  intros pi s'.
  assert (Hrun : handleAutonomousPrefixInformation (hdr:=demoHeader)
                   (iter:=demoIteration) pi demoRefreshed = Some (tt, s'))
    by (vm_compute; reflexivity).
  split; [exact Hrun |]. split; [vm_compute; reflexivity |].
  apply (refresh_valid_lifetime_two_hour_rule (hdr:=demoHeader)
           (iter:=demoIteration) pi demoPrefixState demoRefreshed s');
    [ vm_compute; reflexivity | vm_compute; reflexivity
    | vm_compute; congruence | vm_compute; reflexivity
    | vm_compute; congruence | exact Hrun ].
Defined.

(** C1 as stated fails: the valid lifetime does not remain three hours. *)
Lemma refresh_one_hour_not_ignored :
  let s := demoRefreshed in
  let run := handleAutonomousPrefixInformation (hdr:=demoHeader)
               (iter:=demoIteration) (demoPI Hour Hour) in
  let s' := after run s in
  (validUntil <$> slaacPrefixes s !! demoPrefix) = Some (clock s + 3 * Hour)
  ∧ is_Some (run s)
  ∧ clock s' = clock s
  ∧ (validUntil <$> slaacPrefixes s' !! demoPrefix) = Some (clock s' + 2 * Hour)
  ∧ (validUntil <$> slaacPrefixes s' !! demoPrefix) ≠ Some (clock s' + 3 * Hour).
Proof.
  vm_compute. split; [reflexivity |]. split; [eexists; reflexivity |].
  split; [reflexivity |]. split; [reflexivity | congruence].
Qed.

(** [cleanupState] with [hostOnly] set, in a state with a router, an on-link
    prefix, the SLAAC prefix [demoPrefix] and the link-local one. *)
Lemma cleanupState_spec_witness :
  let s' := after (cleanupState (hdr:=demoHeader) (iter:=demoIteration) true)
                  demoRefreshed in
  cleanupState (hdr:=demoHeader) (iter:=demoIteration) true demoRefreshed
  = Some (tt, s')
  ∧ dom (slaacPrefixes demoRefreshed) = {[demoPrefix; demoLinkLocal]}
  ∧ defaultRouters s' = ∅
  ∧ onLinkPrefixes s' = ∅
  ∧ (∀ p, is_Some (slaacPrefixes s' !! p) ↔
          is_Some (slaacPrefixes demoRefreshed !! p) ∧ true = true
          ∧ p = AddressWithPrefix_Subnet (Header:=demoHeader)
                  (IPv6LinkLocalPrefix (Header:=demoHeader)))
  ∧ dhcpv6Configuration s' = 0
  ∧ dhcpv6Configuration s' ≠ DHCPv6NoConfiguration.
Proof.
  intros s'.
  assert (Hrun : cleanupState (hdr:=demoHeader) (iter:=demoIteration) true
                   demoRefreshed = Some (tt, s')) by (vm_compute; reflexivity).
  split; [exact Hrun |]. split; [vm_compute; reflexivity |].
  exact (cleanupState_spec (hdr:=demoHeader) (iter:=demoIteration) true
           demoRefreshed s' Hrun).
Defined.

(** C2 as stated fails: the stored configuration was
    [DHCPv6NoConfiguration] and is not after [cleanupState]. *)
Lemma cleanupState_dhcpv6_not_NoConfiguration :
  let run := cleanupState (hdr:=demoHeader) (iter:=demoIteration) false in
  let s' := after run demoRefreshed in
  is_Some (run demoRefreshed)
  ∧ dhcpv6Configuration demoRefreshed = DHCPv6NoConfiguration
  ∧ dhcpv6Configuration s' = 0
  ∧ dhcpv6Configuration s' ≠ DHCPv6NoConfiguration.
Proof.
  vm_compute. split; [eexists; reflexivity |]. split; [reflexivity |].
  split; [reflexivity | congruence].
Qed.

Lemma reachable_demoExec (op : Op) (s : ndpState) :
  reachable (hdr:=demoHeader) (iter:=demoIteration) s →
  is_Some (exec (hdr:=demoHeader) (iter:=demoIteration) op s) →
  reachable (hdr:=demoHeader) (iter:=demoIteration) (demoExec op s).
Proof.
  intros Hs [[[] s'] Hrun]. unfold demoExec, after. rewrite Hrun.
  eapply reachable_step; eassumption.
Qed.

Lemma reachable_demoFull :
  reachable (hdr:=demoHeader) (iter:=demoIteration) demoFull.
Proof.
  unfold demoFull. cbn [foldl seq].
  repeat (apply reachable_demoExec; [| vm_compute; eexists; reflexivity]).
  apply reachable_initial. split; reflexivity.
Qed.

(** The eleventh router, with the table full. *)
Lemma discovery_tables_bounded_witness :
  let ra := mkNDPRouterAdvert false false (30 * Second) [] in
  reachable (hdr:=demoHeader) (iter:=demoIteration) demoFull
  ∧ size (defaultRouters demoFull) = MaxDiscoveredDefaultRouters
  ∧ defaultRouters demoFull !! demoRouter 11 = None
  ∧ handleRA_defaultRouter (demoRouter 11) ra demoFull = Some (tt, demoFull)
  ∧ handleRA (hdr:=demoHeader) (iter:=demoIteration) (demoRouter 11) ra demoFull
    = Some (tt, demoFull).
Proof.
  intros ra.
  destruct (discovery_tables_bounded (hdr:=demoHeader) (iter:=demoIteration)
              demoFull reachable_demoFull) as (_ & _ & Hrouter & _).
  assert (Hsize : size (defaultRouters demoFull) = MaxDiscoveredDefaultRouters)
    by (vm_compute; reflexivity).
  assert (Hnew : defaultRouters demoFull !! demoRouter 11 = None)
    by (vm_compute; reflexivity).
  assert (Hrl : ra_RouterLifetime ra ≠ 0) by (vm_compute; congruence).
  destruct (Hrouter (demoRouter 11) ra Hsize Hnew Hrl) as [Hstep _].
  split; [exact reachable_demoFull |]. split; [exact Hsize |].
  split; [exact Hnew |]. split; [exact Hstep |]. vm_compute. reflexivity.
Defined.

(** A burst started in a fresh state with the default configuration. *)
Lemma routerSolicitation_burst_witness :
  let s0 := demoInit DefaultNDPConfigurations in
  let s1 := after (startSolicitingRouters) s0 in
  rtrSolicitJob s0 = None
  ∧ 0 < MaxRtrSolicitations (configs s0) < 256
  ∧ ∃ j, rtrSolicitJob s1 = Some j
      ∧ ∀ s, firings (hdr:=demoHeader) (iter:=demoIteration) j s1 s →
             routerSolicitsSent s ≤ 3.
Proof.
  intros s0 s1.
  assert (Hnone : rtrSolicitJob s0 = None) by reflexivity.
  assert (Hmax : 0 < MaxRtrSolicitations (configs s0) < 256)
    by (vm_compute; split; reflexivity).
  assert (Hrun : startSolicitingRouters s0 = Some (tt, s1))
    by (vm_compute; reflexivity).
  split; [exact Hnone |]. split; [exact Hmax |].
  destruct (routerSolicitation_burst (hdr:=demoHeader) (iter:=demoIteration)
              s0 s1 Hnone Hmax Hrun) as (j & Hj & _ & Hall).
  exists j. split; [exact Hj |]. intros s Hs.
  destruct (Hall s Hs) as [Hle _]. exact Hle.
Defined.

(** Four firings of the job, four seconds apart: three solicitations are
    written and the job is left unscheduled. *)
Example demo_burst_sends_three :
  let fire s := demoExec (OpFireJob O) (demoExec (OpAdvanceClock (4 * Second)) s) in
  let s := fire (fire (fire (fire
             (demoExec OpStartSolicitingRouters
                (demoInit DefaultNDPConfigurations))))) in
  routerSolicitsSent s = 3 ∧ length (wire s) = 3%nat ∧ scheduledAt s O = None.
Proof. vm_compute. repeat split; reflexivity. Qed.

(** * The further statements on concrete inputs *)

Lemma startDAD_schedules_witness :
  ∃ s', startDuplicateAddressDetection (hdr:=demoHeader) demoAddr
          (Some demoAddr) (demoAdded demoEndpoint) = Some (None, s')
    ∧ dad s' = {[demoAddr := mkDadState O]}
    ∧ jobs s' = {[O := mkJob (DADJob demoAddr (Some demoAddr)) 2 (Some 1000)]}
    ∧ events s' = [] ∧ wire s' = [].
Proof.
  destruct (startDAD_schedules (hdr:=demoHeader) demoAddr demoAddr
              (mkAddressState 64 PermanentTentative AddressConfigStatic false 1)
              (demoAdded demoEndpoint))
    as (s' & Hrun & Hdad & Hjobs & _ & _ & Hev & Hwire & _);
    [reflexivity | reflexivity | reflexivity | reflexivity
    | vm_compute; congruence |].
  exists s'. split; [exact Hrun |]. split; [exact Hdad |].
  split; [exact Hjobs |]. split; [exact Hev | exact Hwire].
Defined.

(** DAD started a second time on the same address. *)
Lemma startDAD_panics_witness :
  is_Some (dad (demoProbing demoEndpoint) !! demoAddr)
  ∧ startDuplicateAddressDetection (hdr:=demoHeader) demoAddr (Some demoAddr)
      (demoProbing demoEndpoint) = None.
Proof.
  assert (H : is_Some (dad (demoProbing demoEndpoint) !! demoAddr))
    by (vm_compute; eexists; reflexivity).
  split; [exact H |].
  apply (startDAD_panics (hdr:=demoHeader) demoAddr demoAddr
           (mkAddressState 64 PermanentTentative AddressConfigStatic false 1));
    [reflexivity | reflexivity | right; exact H].
Defined.

(** The first firing of the DAD job on a NIC that refuses the packet. *)
Lemma dadJob_write_error_witness :
  ∃ s', dadJob_fn (hdr:=demoHeader) O demoAddr
          (Some demoAddr) (demoProbing demoBrokenEndpoint) = Some (tt, s')
    ∧ wire s' = []
    ∧ st_Dropped (stats s') = 1
    ∧ dad s' = delete demoAddr (dad (demoProbing demoBrokenEndpoint))
    ∧ events s'
      = [OnDuplicateAddressDetectionStatus 1 demoAddr false (Some (ErrLink 5))]
    ∧ (ae_Kind <$> addressEndpoints s' !! demoAddr) = Some PermanentTentative.
Proof.
  destruct (dadJob_write_error (hdr:=demoHeader) O
              demoAddr demoAddr
              (mkAddressState 64 PermanentTentative AddressConfigStatic false 1)
              (mkDadState O) 2 (Some 1000) (ErrLink 5)
              (demoProbing demoBrokenEndpoint))
    as (s' & Hrun & Hwire & _ & Hdrop & Hdad & Hev & _ & Hae);
    [reflexivity | reflexivity | reflexivity | reflexivity
    | vm_compute; congruence | reflexivity |].
  exists s'. split; [exact Hrun |]. split; [exact Hwire |].
  split; [exact Hdrop |]. split; [exact Hdad |]. split; [exact Hev |].
  rewrite Hae. reflexivity.
Defined.

(** DAD with two transmits on a NIC that takes every packet. *)
Lemma dad_completes_witness :
  ∃ s', firings (hdr:=demoHeader) (iter:=demoIteration) O
          (demoProbing demoEndpoint) s'
    ∧ (ae_Kind <$> addressEndpoints s' !! demoAddr) = Some Permanent
    ∧ wire s' = [dadProbe (hdr:=demoHeader) demoAddr;
                 dadProbe (hdr:=demoHeader) demoAddr]
    ∧ events s' = [OnDuplicateAddressDetectionStatus 1 demoAddr true None].
Proof.
  destruct (dad_completes (hdr:=demoHeader) (iter:=demoIteration) 2 O demoAddr
              demoAddr
              (mkAddressState 64 PermanentTentative AddressConfigStatic false 1)
              1000 (demoProbing demoEndpoint))
    as (s' & Hrun & Hk & _ & Hwire & _ & Hev);
    [reflexivity | reflexivity | reflexivity | reflexivity
    | vm_compute; congruence | vm_compute; reflexivity | reflexivity |].
  exists s'. split; [exact Hrun |]. split; [exact Hk |].
  split; [exact Hwire | exact Hev].
Defined.

Lemma startDAD_then_stop_witness :
  ∃ s1 s2,
    startDuplicateAddressDetection (hdr:=demoHeader) demoAddr (Some demoAddr)
      (demoAdded demoEndpoint) = Some (None, s1)
    ∧ stopDuplicateAddressDetection demoAddr s1 = Some (tt, s2)
    ∧ dad s2 = ∅ ∧ wire s2 = []
    ∧ events s2 = [OnDuplicateAddressDetectionStatus 1 demoAddr false None]
    ∧ scheduledAt s2 O = None.
Proof.
  destruct (startDAD_then_stop (hdr:=demoHeader) (iter:=demoIteration) demoAddr
              demoAddr
              (mkAddressState 64 PermanentTentative AddressConfigStatic false 1)
              (demoAdded demoEndpoint))
    as (s1 & s2 & Hstart & Hstop & Hdad & Hwire & Hev & _ & Hsched & _);
    [reflexivity | reflexivity | reflexivity | reflexivity
    | vm_compute; congruence |].
  exists s1, s2. split; [exact Hstart |]. split; [exact Hstop |].
  split; [exact Hdad |]. split; [exact Hwire |]. split; [exact Hev | exact Hsched].
Defined.

Lemma handleRA_disabled_witness :
  let s := demoState demoEndpoint
             (mkNDPConfigurations 1 Second 3 (4 * Second) Second false true
                true true 0 true (7 * 24 * Hour) (24 * Hour) (5 * Second)) in
  handleRA (hdr:=demoHeader) (iter:=demoIteration) (demoRouter 1)
    (demoRA (3 * Hour) Hour) s = Some (tt, s).
Proof.
  intros s.
  apply (handleRA_disabled (hdr:=demoHeader) (iter:=demoIteration)).
  left. reflexivity.
Defined.

(** An advertisement for the link-local prefix in front of one for
    [demoPrefix]. *)
Lemma handleRA_skips_prefix_witness :
  let ll := mkNDPPrefixInformation demoLinkLocal true true Hour Hour in
  let s := demoInit DefaultNDPConfigurations in
  handleRA (hdr:=demoHeader) (iter:=demoIteration) (demoRouter 1)
    (mkNDPRouterAdvert false false (30 * Second)
       ([] ++ NDPPrefixInformationOption ll
           :: [NDPPrefixInformationOption (demoPI (3 * Hour) Hour)])) s
  = Some (tt, demoConfigured).
Proof.
  intros ll s.
  etransitivity;
    [apply (handleRA_skips_prefix (hdr:=demoHeader) (iter:=demoIteration)
              (demoRouter 1) false false (30 * Second) []
              [NDPPrefixInformationOption (demoPI (3 * Hour) Hour)] ll s);
     left; reflexivity |].
  vm_compute. reflexivity.
Defined.

Lemma router_discovered_then_withdrawn_witness :
  let s := demoInit DefaultNDPConfigurations in
  ∃ s1 s2,
    handleRA_defaultRouter (demoRouter 1) (demoBareRA (30 * Second)) s
    = Some (tt, s1)
    ∧ defaultRouters s1 = {[demoRouter 1 := mkDefaultRouterState O]}
    ∧ handleRA_defaultRouter (demoRouter 1) (demoBareRA 0) s1 = Some (tt, s2)
    ∧ defaultRouters s2 = ∅
    ∧ events s2 = [OnDefaultRouterDiscovered 1 (demoRouter 1);
                   OnDefaultRouterInvalidated 1 (demoRouter 1)].
Proof.
  intros s.
  destruct (router_discovered_then_withdrawn (demoRouter 1)
              (demoBareRA (30 * Second)) (demoBareRA 0) demoDispatcher s)
    as (s1 & s2 & H1 & Hr1 & _ & _ & H2 & Hr2 & _ & Hev);
    [reflexivity | reflexivity | vm_compute; lia | reflexivity | reflexivity
    | vm_compute; congruence | reflexivity |].
  exists s1, s2. split; [exact H1 |]. split; [exact Hr1 |].
  split; [exact H2 |]. split; [exact Hr2 | exact Hev].
Defined.

(** The router of [demoConfigured], advertised again with a lifetime of one
    minute. *)
Lemma router_lifetime_witness :
  ∃ s1, handleRA_defaultRouter (demoRouter 1) (demoBareRA Minute) demoConfigured
        = Some (tt, s1)
    ∧ scheduledAt s1 O = Some (clock demoConfigured + Minute)
    ∧ fireJob (hdr:=demoHeader) (iter:=demoIteration) O (later Second s1)
      = Some (tt, later Second s1)
    ∧ ∃ s2, fireJob (hdr:=demoHeader) (iter:=demoIteration) O (later Minute s1)
            = Some (tt, s2)
        ∧ defaultRouters s2 = delete (demoRouter 1) (defaultRouters demoConfigured).
Proof.
  destruct (router_lifetime (hdr:=demoHeader) (iter:=demoIteration)
              (demoRouter 1) (demoBareRA Minute) O 0 (Some 30000001000)
              demoConfigured)
    as (s1 & H1 & _ & _ & Hdl & Hidle & Hdue);
    [reflexivity | vm_compute; reflexivity | vm_compute; reflexivity
    | vm_compute; congruence |].
  exists s1. split; [exact H1 |]. split; [exact Hdl |].
  split; [apply Hidle; vm_compute; reflexivity |].
  destruct (Hdue Minute) as (s2 & H2 & Hr & _); [vm_compute; congruence |].
  exists s2. split; [exact H2 | exact Hr].
Defined.

(** The on-link prefix of [demoConfigured], advertised again with an
    infinite lifetime. *)
Lemma onLinkPrefix_lifetime_witness :
  let pi := demoPI (NDPInfiniteLifetime (Header:=demoHeader)) Hour in
  ∃ s1, handleOnLinkPrefixInformation (hdr:=demoHeader) pi demoConfigured
        = Some (tt, s1)
    ∧ onLinkPrefixes s1 = onLinkPrefixes demoConfigured
    ∧ scheduledAt s1 1%nat = None.
Proof.
  intros pi.
  destruct (onLinkPrefix_lifetime (hdr:=demoHeader) (iter:=demoIteration) pi
              1%nat 0 (Some 10800000001000) demoConfigured)
    as (s1 & H1 & Hrest);
    [vm_compute; reflexivity | vm_compute; reflexivity |].
  exists s1. split; [exact H1 |].
  change (pi_ValidLifetime pi =? 0) with false in Hrest.
  change (pi_ValidLifetime pi <? NDPInfiniteLifetime) with false in Hrest.
  destruct Hrest as (Hp & _ & Hs & _). split; [exact Hp | exact Hs].
Defined.

Lemma discovery_ignored_witness :
  let s := demoInit DefaultNDPConfigurations in
  handleOnLinkPrefixInformation (hdr:=demoHeader) (demoPI 0 0) s = Some (tt, s)
  ∧ handleRA_defaultRouter (demoRouter 1) (demoBareRA 0) s = Some (tt, s).
Proof.
  intros s.
  destruct (discovery_ignored (hdr:=demoHeader) s) as [Hp Hr].
  split.
  - apply Hp; [reflexivity | left; reflexivity].
  - apply Hr; [reflexivity | left; reflexivity].
Defined.

Lemma discovery_vetoed_witness :
  let s := demoState demoVetoEndpoint DefaultNDPConfigurations in
  ∃ s', handleRA_defaultRouter (demoRouter 1) (demoBareRA (30 * Second)) s
        = Some (tt, s')
    ∧ rememberDefaultRouter (demoRouter 1) (30 * Second) s = Some (tt, s')
    ∧ defaultRouters s' = ∅ ∧ jobs s' = ∅
    ∧ events s' = [OnDefaultRouterDiscovered 1 (demoRouter 1)].
Proof.
  intros s.
  destruct (discovery_vetoed (hdr:=demoHeader)
              (mkNDPDispatcher (λ _ _, false) (λ _ _, false) (λ _ _, false)) s
              eq_refl) as [Hr _].
  eexists. split; [vm_compute; reflexivity |].
  split; [apply Hr; reflexivity |]. vm_compute. auto.
Defined.

Lemma startSolicitingRouters_noop_witness :
  is_Some (rtrSolicitJob demoSoliciting)
  ∧ startSolicitingRouters demoSoliciting = Some (tt, demoSoliciting).
Proof.
  assert (H : is_Some (rtrSolicitJob demoSoliciting))
    by (vm_compute; eexists; reflexivity).
  split; [exact H |]. apply startSolicitingRouters_noop. left. exact H.
Defined.

Lemma stopSolicitingRouters_stops_witness :
  ∃ s', stopSolicitingRouters demoSoliciting = Some (tt, s')
    ∧ rtrSolicitJob s' = None
    ∧ fireJob (hdr:=demoHeader) (iter:=demoIteration) O (later Hour s')
      = Some (tt, later Hour s')
    ∧ ∃ s'', startSolicitingRouters s' = Some (tt, s'')
        ∧ rtrSolicitJob s'' = Some 1%nat.
Proof.
  pose proof (stopSolicitingRouters_stops (hdr:=demoHeader)
                (iter:=demoIteration) demoSoliciting) as H.
  change (rtrSolicitJob demoSoliciting) with (Some O) in H.
  destruct H as (s' & Hstop & Hnone & _ & _ & _ & Hidle & Hagain).
  exists s'. split; [exact Hstop |]. split; [exact Hnone |].
  split; [apply Hidle |].
  destruct Hagain as (s'' & Hstart & Hj & _); [vm_compute; congruence |].
  exists s''. split; [exact Hstart | exact Hj].
Defined.

(** The first solicitation of the burst: no address is assigned, so the
    source is unspecified and there is no option. *)
Lemma routerSolicit_packet_witness :
  ∃ s', rtrSolicitJob_fn (hdr:=demoHeader) O demoSoliciting = Some (tt, s')
    ∧ wire s' = [routerSolicit (hdr:=demoHeader)
                   (IPv6Any (Header:=demoHeader)) None].
Proof.
  destruct (routerSolicit_packet (hdr:=demoHeader) O 3 (Some 1000)
              demoSoliciting eq_refl eq_refl)
    as (s' & src & opt & Hrun & Hsrc & Hopt & _ & Hwire).
  exists s'. split; [exact Hrun |].
  destruct Hsrc as [-> | Hsrc]; [| discriminate Hsrc].
  rewrite (Hopt eq_refl) in Hwire. exact Hwire.
Defined.

(** [demoPrefix], valid for three more hours, advertised with a valid
    lifetime of one minute: it stays valid for two hours. *)
Lemma refresh_valid_lifetime_floor_witness :
  let pi := demoPI Minute Minute in
  let s' := after (handleAutonomousPrefixInformation (hdr:=demoHeader)
                     (iter:=demoIteration) pi) demoRefreshed in
  handleAutonomousPrefixInformation (hdr:=demoHeader) (iter:=demoIteration) pi
    demoRefreshed = Some (tt, s')
  ∧ remainingLifetime (hdr:=demoHeader) demoPrefixState (clock demoRefreshed)
    = 3 * Hour
  ∧ ∃ st', slaacPrefixes s' !! demoPrefix = Some st'
      ∧ (validUntil st' = 0
         ∨ Z.min (3 * Hour) (2 * Hour) ≤ validUntil st' - clock demoRefreshed).
Proof.
  intros pi s'.
  assert (Hrun : handleAutonomousPrefixInformation (hdr:=demoHeader)
                   (iter:=demoIteration) pi demoRefreshed = Some (tt, s'))
    by (vm_compute; reflexivity).
  assert (Hrl : remainingLifetime (hdr:=demoHeader) demoPrefixState
                  (clock demoRefreshed) = 3 * Hour)
    by (vm_compute; reflexivity).
  split; [exact Hrun |]. split; [exact Hrl |].
  destruct (refresh_valid_lifetime_floor (hdr:=demoHeader)
              (iter:=demoIteration) pi demoPrefixState demoRefreshed s')
    as (st' & Hst' & _ & _ & _ & Hfloor);
    [vm_compute; reflexivity | vm_compute; congruence | exact Hrun |].
  exists st'. split; [exact Hst' |]. rewrite Hrl in Hfloor. exact Hfloor.
Defined.

(** The stable address of [demoPrefix] deprecated by a preferred lifetime
    of zero. *)
Lemma refresh_preferred_lifetime_witness :
  ∃ st' s', refreshPreferredLifetime (hdr:=demoHeader) demoPrefixState 0
              (clock demoRefreshed) demoRefreshed = Some (st', s')
    ∧ (ae_Deprecated <$> addressEndpoints s' !! demoStable) = Some true
    ∧ scheduledAt s' (deprecationJob demoPrefixState) = None.
Proof.
  destruct (refresh_preferred_lifetime (hdr:=demoHeader) demoPrefixState
              demoStable demoStableState demoDeprecationJob 0
              (clock demoRefreshed) demoRefreshed)
    as (s' & Hrun & Hdep & _ & Hjob);
    [vm_compute; reflexivity | vm_compute; reflexivity
    | vm_compute; reflexivity |].
  eexists _, s'. split; [exact Hrun |]. split; [exact Hdep | exact Hjob].
Defined.

Lemma handleAutonomousPrefixInformation_declines_witness :
  let s := demoInit DefaultNDPConfigurations in
  handleAutonomousPrefixInformation (hdr:=demoHeader) (iter:=demoIteration)
    (demoPI 0 0) s = Some (tt, s).
Proof.
  intros s.
  apply (handleAutonomousPrefixInformation_declines (hdr:=demoHeader)
           (iter:=demoIteration) (demoPI 0 0) s);
    [reflexivity | right; left; reflexivity].
Defined.

Lemma regenerateSLAACAddr_gives_up_witness :
  let s' := after (regenerateSLAACAddr (hdr:=demoHeader) (iter:=demoIteration)
                     demoPrefix) demoConflicted in
  is_Some (slaacPrefixes demoConflicted !! demoPrefix)
  ∧ regenerateSLAACAddr (hdr:=demoHeader) (iter:=demoIteration) demoPrefix
      demoConflicted = Some (tt, s')
  ∧ slaacPrefixes s' !! demoPrefix = None.
Proof.
  intros s'.
  assert (Hrun : regenerateSLAACAddr (hdr:=demoHeader) (iter:=demoIteration)
                   demoPrefix demoConflicted = Some (tt, s'))
    by (vm_compute; reflexivity).
  split; [vm_compute; eexists; reflexivity |]. split; [exact Hrun |].
  apply (regenerateSLAACAddr_gives_up (hdr:=demoHeader) (iter:=demoIteration)
           demoPrefix demoConflictedState demoConflicted s');
    [vm_compute; reflexivity | vm_compute; reflexivity
    | left; vm_compute; reflexivity | exact Hrun].
Defined.

Lemma doSLAAC_declined_witness :
  let s := demoState demoVetoEndpoint DefaultNDPConfigurations in
  let s' := after (doSLAAC (hdr:=demoHeader) demoPrefix Hour (3 * Hour)) s in
  doSLAAC (hdr:=demoHeader) demoPrefix Hour (3 * Hour) s = Some (tt, s')
  ∧ events s' ≠ []
  ∧ slaacPrefixes s' = ∅ ∧ addressEndpoints s' = ∅ ∧ dad s' = ∅.
Proof.
  intros s s'.
  assert (Hrun : doSLAAC (hdr:=demoHeader) demoPrefix Hour (3 * Hour) s
                 = Some (tt, s')) by (vm_compute; reflexivity).
  split; [exact Hrun |]. split; [vm_compute; congruence |].
  destruct (doSLAAC_declined (hdr:=demoHeader) demoPrefix Hour (3 * Hour) s s')
    as (Hp & Ha & Hd & _); [| exact Hrun |].
  { intros d [= <-] t a. reflexivity. }
  split; [exact Hp |]. split; [exact Ha | exact Hd].
Defined.

(** One more temporary address for [demoPrefix] in [demoRefreshed]. *)
Lemma temporary_address_lifetimes_witness :
  let run := generateTempSLAACAddr (hdr:=demoHeader) demoPrefix demoPrefixState
               true demoRefreshed in
  ∃ st' s' vl, run = Some ((true, st'), s')
    ∧ 0 < vl ≤ 7 * 24 * Hour
    ∧ clock demoRefreshed + vl ≤ validUntil demoPrefixState.
Proof.
  intros run.
  destruct run as [[[[] st'] s']|] eqn:Hrun;
    [| vm_compute in Hrun; discriminate | vm_compute in Hrun; discriminate ].
  destruct (temporary_address_lifetimes (hdr:=demoHeader) demoPrefix
              demoPrefixState st' true demoRefreshed s' Hrun)
    as (addr & t & _ & _ & _ & vl & pl & _ & _ & _ & Hvl & Hend & _).
  exists st', s', vl. split; [reflexivity |]. split; [exact Hvl |].
  apply Hend. vm_compute. congruence.
Defined.
